(** * Upload handlers of the pool repository: manifest update, path
      resolution and the git-data commit pipeline

    Shallow embedding of the two Cloudflare Pages upload handlers
    ([src/unnamed/part_001], the single-commit variant, and the first
    handler of [src/unnamed/part_000], the Contents-API variant) and of
    their helper functions; then of the second handler of
    [src/unnamed/part_000], of [src/api/upload.ts] and of
    [src/image-validator.ts].

    Conventions.
    - A JavaScript string is a [string]; each [ascii] is one code unit
      (the embedding covers code units below 256).
    - A JavaScript value of the kind [JSON.parse] returns is a [JsVal];
      a number is carried by its canonical [String(n)] rendering, which
      is all the handlers observe of it.
    - Handlers are programs of the free monad [Prog] over the effects
      they perform ([fetch], the clock, [Math.random], [setTimeout],
      [console.warn]); [run] executes a program against an environment
      that answers from the history of events so far.
    - [cors] only adds response headers; responses are modelled by their
      status and JSON body. *)

From Stdlib Require Import String Ascii List ZArith Lia Bool.
Import ListNotations.
Open Scope string_scope.
Open Scope Z_scope.

(* ================================================================== *)
(** * Strings *)
(* ================================================================== *)

Module Str.

Definition code (c : ascii) : Z := Z.of_nat (nat_of_ascii c).

Definition is_digit (c : ascii) : bool := (48 <=? code c) && (code c <=? 57).
Definition is_lower (c : ascii) : bool := (97 <=? code c) && (code c <=? 122).
Definition is_upper (c : ascii) : bool := (65 <=? code c) && (code c <=? 90).

(** [WhiteSpace] and [LineTerminator] code units below 256:
    TAB, LF, VT, FF, CR, SP and NBSP. *)
Definition is_space (c : ascii) : bool :=
  let n := code c in
  ((9 <=? n) && (n <=? 13)) || (n =? 32) || (n =? 160).

Fixpoint all (p : ascii -> bool) (s : string) : bool :=
  match s with
  | EmptyString => true
  | String c r => p c && all p r
  end.

Fixpoint map (f : ascii -> ascii) (s : string) : string :=
  match s with
  | EmptyString => EmptyString
  | String c r => String (f c) (map f r)
  end.

Fixpoint drop_while (p : ascii -> bool) (s : string) : string :=
  match s with
  | EmptyString => EmptyString
  | String c r => if p c then drop_while p r else s
  end.

Fixpoint take_while (p : ascii -> bool) (s : string) : string :=
  match s with
  | EmptyString => EmptyString
  | String c r => if p c then String c (take_while p r) else EmptyString
  end.

Fixpoint rev_onto (s acc : string) : string :=
  match s with
  | EmptyString => acc
  | String c r => rev_onto r (String c acc)
  end.

Definition rev (s : string) : string := rev_onto s EmptyString.

Definition drop_while_end (p : ascii -> bool) (s : string) : string :=
  rev (drop_while p (rev s)).

(** [s.trim()] *)
Definition trim (s : string) : string :=
  drop_while_end is_space (drop_while is_space s).

Fixpoint contains_char (c : ascii) (s : string) : bool :=
  match s with
  | EmptyString => false
  | String d r => Ascii.eqb c d || contains_char c r
  end.

(** [s.slice(0, n)] *)
Fixpoint take (n : nat) (s : string) : string :=
  match n, s with
  | O, _ => EmptyString
  | _, EmptyString => EmptyString
  | S m, String c r => String c (take m r)
  end.

(** [s.slice(n)] *)
Fixpoint drop (n : nat) (s : string) : string :=
  match n, s with
  | O, _ => s
  | _, EmptyString => EmptyString
  | S m, String _ r => drop m r
  end.

(** The text after the last occurrence of [c]; the whole string when
    [c] does not occur: [s.split(c).pop()]. *)
Fixpoint after_last (c : ascii) (s : string) : string :=
  match s with
  | EmptyString => EmptyString
  | String d r =>
      if Ascii.eqb c d
      then after_last c r
      else if contains_char c r then after_last c r else s
  end.

(** [hay.includes(needle)] *)
Fixpoint includes (needle hay : string) : bool :=
  String.prefix needle hay ||
  match hay with
  | EmptyString => false
  | String _ r => includes needle r
  end.

(** [s.replace(/\n/g, empty)] *)
Fixpoint remove_char (c : ascii) (s : string) : string :=
  match s with
  | EmptyString => EmptyString
  | String d r => if Ascii.eqb c d then remove_char c r else String d (remove_char c r)
  end.

Fixpoint repeat (c : ascii) (n : nat) : string :=
  match n with
  | O => EmptyString
  | S m => String c (repeat c m)
  end.

Definition is_empty (s : string) : bool :=
  match s with EmptyString => true | _ => false end.

(** ASCII lower-casing, the part of [toLowerCase] that can produce the
    letters of an ASCII word. *)
Definition lower_char (c : ascii) : ascii :=
  if is_upper c then ascii_of_nat (nat_of_ascii c + 32) else c.

Definition to_lower (s : string) : string := map lower_char s.

(** Digit [d] (below 36) as [Number.prototype.toString] writes it. *)
Definition digit_char (d : Z) : ascii :=
  if d <? 10 then ascii_of_nat (Z.to_nat (48 + d))
  else ascii_of_nat (Z.to_nat (87 + d)).

Fixpoint radix_digits (fuel : nat) (b n : Z) (acc : string) : string :=
  match fuel with
  | O => acc
  | S f =>
      let acc' := String (digit_char (n mod b)) acc in
      if n / b =? 0 then acc' else radix_digits f b (n / b) acc'
  end.

(** A non-negative integer written in radix [b], most significant digit
    first, no leading zero ("0" for zero). *)
Definition to_radix (b n : Z) : string :=
  radix_digits (S (Z.to_nat (Z.log2 n))) b n EmptyString.

Definition of_Z (n : Z) : string :=
  if n <? 0 then String "-"%char (to_radix 10 (- n)) else to_radix 10 n.

Fixpoint digits_value_from (acc : Z) (s : string) : Z :=
  match s with
  | EmptyString => acc
  | String c r => digits_value_from (10 * acc + (code c - 48)) r
  end.

(** The mathematical value of a string of decimal digits. *)
Definition digits_value (s : string) : Z := digits_value_from 0 s.

End Str.

(* ================================================================== *)
(** * JavaScript values, errors and numbers *)
(* ================================================================== *)

Inductive JsError : Type :=
| Error (message : string)
| TypeError (message : string)
| ReferenceError (identifier : string)
| SyntaxError (message : string)
| InvalidCharacterError
| NetworkError (message : string).

Inductive Result (A : Type) : Type :=
| Ok (a : A)
| Thrown (e : JsError).
Arguments Ok {A} a.
Arguments Thrown {A} e.

#[warnings="-register-all"]
Inductive JsVal : Type :=
| JUndefined
| JNull
| JBool (b : bool)
| JNum (rendering : string)
| JStr (s : string)
| JArr (elems : list JsVal) (named : list (string * JsVal))
| JObj (props : list (string * JsVal)).

Module Js.

Fixpoint lookup {A} (k : string) (l : list (string * A)) : option A :=
  match l with
  | [] => None
  | (k', v) :: r => if String.eqb k k' then Some v else lookup k r
  end.

(** [o[k] = v] on an ordinary object: an existing key keeps its
    position, a new key is added last. *)
Fixpoint set {A} (k : string) (v : A) (l : list (string * A)) : list (string * A) :=
  match l with
  | [] => [(k, v)]
  | (k', v') :: r =>
      if String.eqb k k' then (k, v) :: r else (k', v') :: set k v r
  end.

Definition has {A} (k : string) (l : list (string * A)) : bool :=
  match lookup k l with Some _ => true | None => false end.

Fixpoint join (sep : string) (l : list string) : string :=
  match l with
  | [] => ""
  | [s] => s
  | s :: r => s ++ sep ++ join sep r
  end.

Definition bind_result {A B} (r : Result A) (f : A -> Result B) : Result B :=
  match r with
  | Ok a => f a
  | Thrown e => Thrown e
  end.

Fixpoint sequence {A} (l : list (Result A)) : Result (list A) :=
  match l with
  | [] => Ok []
  | r :: rest =>
      bind_result r (fun a =>
      bind_result (sequence rest) (fun t => Ok (a :: t)))
  end.

(** [String(v)] (and [`${v}`]).  An array joins its elements with ",",
    writing nothing for [null] and [undefined]; an object is
    "[object Object]" unless it has an own [toString] property, which
    after [JSON.parse] is never callable: converting it throws. *)
Fixpoint to_string (v : JsVal) : Result string :=
  match v with
  | JUndefined => Ok "undefined"
  | JNull => Ok "null"
  | JBool true => Ok "true"
  | JBool false => Ok "false"
  | JNum r => Ok r
  | JStr s => Ok s
  | JArr l _ =>
      bind_result
        (sequence
           (List.map
              (fun e =>
                 match e with
                 | JUndefined | JNull => Ok ""
                 | _ => to_string e
                 end) l))
        (fun parts => Ok (join "," parts))
  | JObj props =>
      if has "toString" props
      then Thrown (TypeError "Cannot convert object to primitive value")
      else Ok "[object Object]"
  end.

(** Truthiness: [undefined], [null], [false], [0], [NaN] and [""] are
    falsy. *)
Definition truthy (v : JsVal) : bool :=
  match v with
  | JUndefined | JNull => false
  | JBool b => b
  | JNum r => negb (String.eqb r "0" || String.eqb r "-0" || String.eqb r "NaN")
  | JStr s => negb (Str.is_empty s)
  | JArr _ _ | JObj _ => true
  end.

(** [v.k] for the property names the handlers read ([object], [sha],
    [tree], [content], [message], [files], [version]); none of them is
    defined on a prototype, so only own properties answer.  [named]
    holds the non-index properties assigned to an array. *)
Definition get (v : JsVal) (k : string) : Result JsVal :=
  match v with
  | JUndefined => Thrown (TypeError "Cannot read properties of undefined")
  | JNull => Thrown (TypeError "Cannot read properties of null")
  | JObj props | JArr _ props =>
      Ok (match lookup k props with Some x => x | None => JUndefined end)
  | _ => Ok JUndefined
  end.

(** [v.k = x] in strict-mode code (modules are strict): assigning a
    property of a primitive throws. *)
Definition put (v : JsVal) (k : string) (x : JsVal) : Result JsVal :=
  match v with
  | JUndefined => Thrown (TypeError "Cannot set properties of undefined")
  | JNull => Thrown (TypeError "Cannot set properties of null")
  | JBool _ | JNum _ | JStr _ => Thrown (TypeError "Cannot create property on a primitive")
  | JArr elems props => Ok (JArr elems (set k x props))
  | JObj props => Ok (JObj (set k x props))
  end.

(** [Array.isArray(v)] *)
Definition is_array (v : JsVal) : bool :=
  match v with JArr _ _ => true | _ => false end.

(** [a.unshift(x)]: the array after the call. *)
Definition unshift (x : JsVal) (a : JsVal) : Result JsVal :=
  match a with
  | JArr elems props => Ok (JArr (x :: elems) props)
  | _ => Thrown (TypeError "unshift is not a function")
  end.

(** An array literal or an array as [JSON.parse] builds it. *)
Definition arr (elems : list JsVal) : JsVal := JArr elems [].

(** [v?.k] *)
Definition get_opt (v : JsVal) (k : string) : Result JsVal :=
  match v with
  | JUndefined | JNull => Ok JUndefined
  | _ => get v k
  end.

(** ** Numbers computed from digit strings

    [Number(digits)], [n + 1] and [`${n}`] on the non-negative
    integer-valued doubles. *)

Inductive JsNumber : Type :=
| Finite (x : Z)
| PosInfinity.

Definition two53 : Z := 2 ^ 53.

(** The double nearest to the non-negative integer [n], ties to even. *)
Definition round_to_double (n : Z) : JsNumber :=
  if n <=? two53 then Finite n
  else
    let e := Z.log2 n - 52 in
    let q := n / 2 ^ e in
    let r := n mod 2 ^ e in
    let half := 2 ^ (e - 1) in
    let q' := if (half <? r) || ((r =? half) && Z.odd q) then q + 1 else q in
    let v := q' * 2 ^ e in
    if 2 ^ 1024 <=? v then PosInfinity else Finite v.

(** [Number(s)] for a string of decimal digits. *)
Definition number_of_digits (s : string) : JsNumber :=
  round_to_double (Str.digits_value s).

(** [n + 1] *)
Definition add_one (n : JsNumber) : JsNumber :=
  match n with
  | Finite x => round_to_double (x + 1)
  | PosInfinity => PosInfinity
  end.

Definition rounds_to (x : Z) (m : Z) : bool :=
  match round_to_double m with
  | Finite y => y =? x
  | PosInfinity => false
  end.

(** Shortest decimal significand for the double [x] of [d] decimal
    digits: the least [k] with a [k]-digit [s] such that
    [s * 10^(d-k)] rounds to [x], the [s] nearest to [x]. *)
Fixpoint shortest_from (fuel : nat) (k d x : Z) : Z * Z :=
  match fuel with
  | O => (x, d)
  | S f =>
      let p := 10 ^ (d - k) in
      let lo := x / p in
      let hi := lo + 1 in
      let ok_lo := rounds_to x (lo * p) in
      let ok_hi := (hi <? 10 ^ k) && rounds_to x (hi * p) in
      if ok_lo && ok_hi then
        let dlo := x - lo * p in
        let dhi := hi * p - x in
        if dlo <? dhi then (lo, k)
        else if dhi <? dlo then (hi, k)
        else if Z.even lo then (lo, k) else (hi, k)
      else if ok_lo then (lo, k)
      else if ok_hi then (hi, k)
      else shortest_from f (k + 1) d x
  end.

Definition decimal_length (x : Z) : Z := Z.of_nat (String.length (Str.to_radix 10 x)).

(** [String(n)] / [`${n}`].  Below [2^53] every integer is a double
    and its shortest round-tripping digits are its decimal expansion. *)
Definition number_to_string (n : JsNumber) : string :=
  match n with
  | PosInfinity => "Infinity"
  | Finite x =>
      if x <? two53 then Str.to_radix 10 x
      else
        let d := decimal_length x in
        let '(s, k, n) :=
          if rounds_to x (10 ^ d) then (1, 1, d + 1)
          else let '(s, k) := shortest_from (Z.to_nat d) 1 d x in (s, k, d) in
        let digits := Str.to_radix 10 s in
        if n <=? 21 then digits ++ Str.repeat "0"%char (Z.to_nat (n - k))
        else
          match digits with
          | String c EmptyString => String c ("e+" ++ Str.to_radix 10 (n - 1))
          | String c rest => String c ("." ++ rest ++ "e+" ++ Str.to_radix 10 (n - 1))
          | EmptyString => EmptyString
          end
  end.

End Js.

(* ================================================================== *)
(** * bumpVersion (part_001 lines 116-124, part_000 lines 162-170) *)
(* ================================================================== *)

(** [s.match(/^(\d+)(?:\.(\d+))?$/)]: the groups [m[1]] and [m[2]]. *)
Definition match_version (s : string) : option (string * option string) :=
  let major := Str.take_while Str.is_digit s in
  let rest := Str.drop_while Str.is_digit s in
  if Str.is_empty major then None
  else
    match rest with
    | EmptyString => Some (major, None)
    | String c minor =>
        if Ascii.eqb c "."%char && negb (Str.is_empty minor) && Str.all Str.is_digit minor
        then Some (major, Some minor)
        else None
    end.

Definition bumpVersion (v : JsVal) : Result string :=
  match v with
  | JUndefined | JNull => Ok "1.1"
  | _ =>
      Js.bind_result (Js.to_string v) (fun str =>
      let s := Str.trim str in
      match match_version s with
      | None => Ok "1.1"
      | Some (m1, m2) =>
          let major := Js.number_of_digits m1 in
          let minor := Js.number_of_digits (match m2 with Some d => d | None => "0" end) in
          Ok (Js.number_to_string major ++ "." ++ Js.number_to_string (Js.add_one minor))
      end)
  end.

(* ================================================================== *)
(** * Requests, responses and the effects of a handler *)
(* ================================================================== *)

Inductive Method : Type := GET | PUT | POST | PATCH.

(** The REST resources the handlers address, below
    [`${apiBase}/repos/${repo}`]:
    - [Contents p r]: [/contents/${p}], with [?ref=${r}] when given;
    - [GitRef b]: [/git/ref/heads/${b}] (read);
    - [GitRefs b]: [/git/refs/heads/${b}] (update);
    - [GitCommit s]: [/git/commits/${s}];
    - [GitBlobs], [GitTrees], [GitCommits]: [/git/blobs], [/git/trees],
      [/git/commits]. *)
Inductive Endpoint : Type :=
| Contents (path : string) (ref : option string)
| GitRef (branch : string)
| GitRefs (branch : string)
| GitCommit (sha : string)
| GitBlobs
| GitTrees
| GitCommits.

(** A [contentBase64] string: the base64 text of raw bytes
    ([base64FromBytes(buf)]) or of the UTF-8 bytes of
    [JSON.stringify(doc, null, 2)]. *)
Inductive Base64Text : Type :=
| B64Bytes (bytes : list Z)
| B64Json (doc : JsVal).

Record TreeEntry : Type := mkTreeEntry {
  te_path : string;
  te_mode : string;
  te_type : string;
  te_sha : JsVal
}.

(** Request bodies, one constructor per object literal passed to
    [JSON.stringify]. *)
Inductive Body : Type :=
| NoBody
| BlobBody (content : Base64Text) (encoding : string)
| TreeBody (base_tree : JsVal) (tree : list TreeEntry)
| CommitBody (message : string) (tree : JsVal) (parents : list JsVal)
| RefBody (sha : JsVal)
| ContentsBody (message : string) (content : Base64Text) (branch : string)
               (sha : option JsVal).

Record Request : Type := mkRequest {
  req_method : Method;
  req_api : string;
  req_repo : string;
  req_endpoint : Endpoint;
  req_authorization : string;
  req_body : Body
}.

(** A response: its status, its body text, and what [res.json()] (that
    is, [JSON.parse] of the text) gives, [None] when it throws. *)
Record Response : Type := mkResponse {
  res_status : Z;
  res_text : string;
  res_json : option JsVal
}.

Definition res_ok (r : Response) : bool :=
  (200 <=? res_status r) && (res_status r <=? 299).

Inductive FetchResult : Type :=
| Responded (r : Response)
| Rejected (e : JsError).

Inductive Event : Type :=
| EvFetch (req : Request) (res : FetchResult)
| EvDateNow (ms : Z)
| EvNowIso (iso : string)
| EvRandom (rendering : string)
| EvSleep (ms : Z)
| EvWarn (label : string) (detail : list JsVal).

Record HttpResponse : Type := mkHttp {
  http_status : Z;
  http_body : JsVal
}.

(** The outcome of decoding a fetched document. *)
Inductive DecodeOutcome : Type :=
| BadBase64
| BadJson
| Decoded (v : JsVal).

(** Programs over the handlers' effects. *)
Inductive Prog (A : Type) : Type :=
| Ret (a : A)
| Throw (e : JsError)
| Fetch (req : Request) (k : FetchResult -> Prog A)
| DateNow (k : Z -> Prog A)
| NowIso (k : string -> Prog A)
| Random36 (k : string -> Prog A)
| Sleep (ms : Z) (k : Prog A)
| Warn (label : string) (detail : list JsVal) (k : Prog A).
Arguments Ret {A} a.
Arguments Throw {A} e.
Arguments Fetch {A} req k.
Arguments DateNow {A} k.
Arguments NowIso {A} k.
Arguments Random36 {A} k.
Arguments Sleep {A} ms k.
Arguments Warn {A} label detail k.

Fixpoint bind {A B} (p : Prog A) (f : A -> Prog B) : Prog B :=
  match p with
  | Ret a => f a
  | Throw e => Throw e
  | Fetch req k => Fetch req (fun r => bind (k r) f)
  | DateNow k => DateNow (fun t => bind (k t) f)
  | NowIso k => NowIso (fun t => bind (k t) f)
  | Random36 k => Random36 (fun r => bind (k r) f)
  | Sleep ms k => Sleep ms (bind k f)
  | Warn l d k => Warn l d (bind k f)
  end.

(** [try { p } catch (err) { h err }] *)
Fixpoint try_catch {A} (p : Prog A) (h : JsError -> Prog A) : Prog A :=
  match p with
  | Ret a => Ret a
  | Throw e => h e
  | Fetch req k => Fetch req (fun r => try_catch (k r) h)
  | DateNow k => DateNow (fun t => try_catch (k t) h)
  | NowIso k => NowIso (fun t => try_catch (k t) h)
  | Random36 k => Random36 (fun r => try_catch (k r) h)
  | Sleep ms k => Sleep ms (try_catch k h)
  | Warn l d k => Warn l d (try_catch k h)
  end.

Declare Scope prog_scope.
Delimit Scope prog_scope with prog.
Notation "x <- p ;; q" := (bind p (fun x => q))
  (at level 61, p at next level, right associativity) : prog_scope.
Notation "' pat <- p ;; q" := (bind p (fun x => match x with pat => q end))
  (at level 61, pat pattern, p at next level, right associativity) : prog_scope.
Open Scope prog_scope.

(** [await fetch(...)]: a rejected promise is a thrown error. *)
Definition fetch (req : Request) : Prog Response :=
  Fetch req (fun r =>
    match r with
    | Responded resp => Ret resp
    | Rejected e => Throw e
    end).

Definition lift {A} (r : Result A) : Prog A :=
  match r with
  | Ok a => Ret a
  | Thrown e => Throw e
  end.

(** [await res.json()] *)
Definition json_of (r : Response) : Prog JsVal :=
  match res_json r with
  | Some v => Ret v
  | None => Throw (SyntaxError "Unexpected token in JSON")
  end.

(** [safeJSON(await res.text())] *)
Definition safeJSON (r : Response) : JsVal :=
  match res_json r with
  | Some v => v
  | None => JStr (res_text r)
  end.

(** The world a handler runs in answers each query from the events so
    far. *)
Record World : Type := mkWorld {
  answer_fetch : list Event -> Request -> FetchResult;
  answer_date_now : list Event -> Z;
  answer_now_iso : list Event -> string;
  answer_random : list Event -> string
}.

(** [run w p h]: the events after running [p] from history [h], and
    the outcome. *)
Fixpoint run {A} (w : World) (p : Prog A) (h : list Event) : list Event * Result A :=
  match p with
  | Ret a => (h, Ok a)
  | Throw e => (h, Thrown e)
  | Fetch req k =>
      let r := answer_fetch w h req in
      run w (k r) (h ++ [EvFetch req r])
  | DateNow k =>
      let t := answer_date_now w h in
      run w (k t) (h ++ [EvDateNow t])
  | NowIso k =>
      let t := answer_now_iso w h in
      run w (k t) (h ++ [EvNowIso t])
  | Random36 k =>
      let r := answer_random w h in
      run w (k r) (h ++ [EvRandom r])
  | Sleep ms k => run w k (h ++ [EvSleep ms])
  | Warn l d k => run w k (h ++ [EvWarn l d])
  end.

Definition now_iso : Prog string := NowIso (fun t => Ret t).
Definition date_now : Prog Z := DateNow (fun t => Ret t).
Definition random36 : Prog string := Random36 (fun r => Ret r).

(** An identifier that no declaration binds: evaluating it throws. *)
Definition unbound {A} (identifier : string) : Prog A :=
  Throw (ReferenceError identifier).

(* ================================================================== *)
(** * Helpers shared by the handlers *)
(* ================================================================== *)

Record Env : Type := mkEnv {
  GH_TOKEN : string;
  GH_REPO : string;
  GH_BRANCH : option string;
  ADMIN_TOKEN : string;
  ALLOWED_ORIGINS : option string
}.

Record UploadFile : Type := mkFile {
  file_name : string;
  file_type : string;
  file_bytes : list Z
}.

(** The request after [request.formData()]: the two headers read and
    the four form fields. *)
Record UploadRequest : Type := mkUpload {
  hdr_admin_token : option string;
  hdr_content_type : option string;
  form_file : option UploadFile;
  form_dir : option string;
  form_filename : option string;
  form_overwrite : option string
}.

Definition json (obj : JsVal) (status : Z) : HttpResponse := mkHttp status obj.

Definition or_else (o : option string) (d : string) : string :=
  match o with
  | Some s => if Str.is_empty s then d else s
  | None => d
  end.

Definition is_alnum (c : ascii) : bool :=
  Str.is_lower c || Str.is_upper c || Str.is_digit c.

Definition filename_char (c : ascii) : bool :=
  is_alnum c || Ascii.eqb c "."%char || Ascii.eqb c "_"%char || Ascii.eqb c "-"%char.

Definition dir_char (c : ascii) : bool :=
  is_alnum c || Ascii.eqb c "/"%char || Ascii.eqb c "_"%char || Ascii.eqb c "-"%char.

Definition replace_unless (keep : ascii -> bool) (s : string) : string :=
  Str.map (fun c => if keep c then c else "_"%char) s.

Definition is_char (c : ascii) : ascii -> bool := fun d => Ascii.eqb c d.

Definition sanitizeFilename (s : string) : string :=
  let r := Str.take 180 (Str.drop_while (is_char "_") (replace_unless filename_char s)) in
  if Str.is_empty r then "file.bin" else r.

Definition sanitizeDirAllowEmpty (s : string) : string :=
  Str.drop_while_end (is_char "/")
    (Str.drop_while (is_char "/") (replace_unless dir_char s)).

(** [n.toString(36)] for an integer [n]. *)
Definition to_string36 (n : Z) : string :=
  if n <? 0 then String "-"%char (Str.to_radix 36 (- n)) else Str.to_radix 36 n.

(** [uniquePrefix]: the clock in base 36, "-", and characters 2..5 of
    the base-36 rendering of [Math.random()]. *)
Definition uniquePrefix : Prog string :=
  now <- date_now ;;
  rnd <- random36 ;;
  let t := to_string36 now in
  let r := Str.take 4 (Str.drop 2 rnd) in
  Ret (t ++ "-" ++ r).

Definition join_path (dir name : string) : string :=
  if Str.is_empty dir then name else dir ++ "/" ++ name.

(** Lines 37-42 of part_001: the final file name. *)
Definition finalNameOf (orig customFilename : string) : string :=
  let safeOrig := sanitizeFilename (if Str.is_empty customFilename then orig else customFilename) in
  let hasExt := Str.contains_char "." safeOrig in
  let origExt := if Str.contains_char "." orig then Str.after_last "." orig else "" in
  if hasExt then safeOrig
  else if Str.is_empty origExt then safeOrig else safeOrig ++ "." ++ origExt.

Definition maxBytes : Z := 20 * 1024 * 1024.

Definition defaultManifest (generated_at : string) : JsVal :=
  JObj [("version", JNum "1"); ("generated_at", JStr generated_at); ("files", Js.arr [])].

Definition normDirOf (dir : string) : string :=
  if Str.is_empty dir then "/"
  else "/" ++ Str.drop_while_end (is_char "/") (Str.drop_while (is_char "/") dir).

Definition fileEntry (normDir targetName fileType uploaded_at : string) : JsVal :=
  JObj [("dir", JStr normDir);
        ("name", JStr targetName);
        ("path", JStr (if String.eqb normDir "/" then "/" ++ targetName
                       else normDir ++ "/" ++ targetName));
        ("type", if Str.is_empty fileType then JNull else JStr fileType);
        ("description", JStr "");
        ("uploaded_at", JStr uploaded_at)].

(** Lines 102-126 of part_001 (144-174 of part_000): build the entry,
    put it first in [files], bump [version], refresh [generated_at]. *)
Definition appendEntry (contentObj : JsVal) (dir targetName fileType : string) : Prog JsVal :=
  let normDir := normDirOf dir in
  uploaded_at <- now_iso ;;
  let entry := fileEntry normDir targetName fileType uploaded_at in
  files0 <- lift (Js.get contentObj "files") ;;
  c1 <- (if Js.is_array files0 then Ret contentObj
         else lift (Js.put contentObj "files" (Js.arr []))) ;;
  files1 <- lift (Js.get c1 "files") ;;
  files2 <- lift (Js.unshift entry files1) ;;
  c2 <- lift (Js.put c1 "files" files2) ;;
  prevVer <- lift (Js.get c2 "version") ;;
  v <- lift (bumpVersion prevVer) ;;
  c3 <- lift (Js.put c2 "version" (JStr v)) ;;
  generated_at <- now_iso ;;
  lift (Js.put c3 "generated_at" (JStr generated_at)).

Record FileSpec : Type := mkFileSpec {
  contentBase64 : Base64Text;
  mode : option string
}.

Definition status_text (r : Response) : string :=
  Str.of_Z (res_status r) ++ " " ++ res_text r.

(** Step 3 of the pipeline: one blob per key of [files].  [files]
    lists the properties of the object in the order of
    [Object.keys]; [blobMap] lists those of the object the loop fills,
    which is how the object is for keys other than [__proto__]
    (assigning that one reaches the setter of the prototype). *)
Fixpoint create_blobs (api repo auth : string) (files : list (string * FileSpec))
         (keys : list string) (blobMap : list (string * JsVal))
  : Prog (list (string * JsVal)) :=
  match keys with
  | [] => Ret blobMap
  | p :: rest =>
      match Js.lookup p files with
      | None => Throw (TypeError "Cannot read properties of undefined")
      | Some f =>
          bRes <- fetch (mkRequest POST api repo GitBlobs auth
                                   (BlobBody (contentBase64 f) "base64")) ;;
          if negb (res_ok bRes)
          then Throw (Error ("blob create failed for " ++ p ++ ": " ++ status_text bRes))
          else
            bj <- json_of bRes ;;
            sha <- lift (Js.get bj "sha") ;;
            create_blobs api repo auth files rest (Js.set p sha blobMap)
      end
  end.

(** Steps 1-3: read the ref, read the parent commit, create the blobs. *)
Definition read_head_and_blobs (api repo branch auth : string)
           (files : list (string * FileSpec))
  : Prog (JsVal * JsVal * list (string * JsVal)) :=
  refRes <- fetch (mkRequest GET api repo (GitRef branch) auth NoBody) ;;
  if negb (res_ok refRes)
  then Throw (Error ("ref fetch failed: " ++ status_text refRes))
  else
    refJson <- json_of refRes ;;
    obj <- lift (Js.get refJson "object") ;;
    parentSha <- lift (Js.get_opt obj "sha") ;;
    if negb (Js.truthy parentSha) then Throw (Error "no parent sha")
    else
      parentText <- lift (Js.to_string parentSha) ;;
      commitRes <- fetch (mkRequest GET api repo (GitCommit parentText) auth NoBody) ;;
      if negb (res_ok commitRes)
      then Throw (Error ("commit fetch failed: " ++ status_text commitRes))
      else
        commitJson <- json_of commitRes ;;
        tree <- lift (Js.get commitJson "tree") ;;
        baseTree <- lift (Js.get_opt tree "sha") ;;
        blobMap <- create_blobs api repo auth files (List.map fst files) [] ;;
        Ret (parentSha, baseTree, blobMap).

(** Steps 4-6 once the request body of step 4 is evaluated: create the
    tree, create the commit, move the ref. *)
Definition tree_commit_ref (api repo branch auth message : string)
           (parentSha : JsVal) (base_tree : JsVal) (treeEntries : list TreeEntry)
  : Prog JsVal :=
  treeRes <- fetch (mkRequest POST api repo GitTrees auth (TreeBody base_tree treeEntries)) ;;
  if negb (res_ok treeRes)
  then Throw (Error ("tree create failed: " ++ status_text treeRes))
  else
    treeJson <- json_of treeRes ;;
    newTreeSha <- lift (Js.get treeJson "sha") ;;
    newCommitRes <- fetch (mkRequest POST api repo GitCommits auth
                                     (CommitBody message newTreeSha [parentSha])) ;;
    if negb (res_ok newCommitRes)
    then Throw (Error ("commit create failed: " ++ status_text newCommitRes))
    else
      newCommitJson <- json_of newCommitRes ;;
      newCommitSha <- lift (Js.get newCommitJson "sha") ;;
      updateRes <- fetch (mkRequest PATCH api repo (GitRefs branch) auth (RefBody newCommitSha)) ;;
      if negb (res_ok updateRes)
      then Throw (Error ("ref update failed: " ++ status_text updateRes))
      else Ret newCommitSha.

Definition apiBase : string := "https://api.github.com".
Definition contentPath : string := "content.json".

Definition branchOf (env : Env) : string := or_else (GH_BRANCH env) "main".

Definition rawUrlOf (repo branch safePath : string) : string :=
  "https://raw.githubusercontent.com/" ++ repo ++ "/" ++ branch ++ "/" ++ safePath.

Definition num (n : Z) : JsVal := JNum (Str.of_Z n).

(** Lines 13-29 of part_001 (8-24 of part_000): the three early
    rejections. *)
Definition admission (request : UploadRequest) (env : Env) : HttpResponse + UploadFile :=
  let token := or_else (hdr_admin_token request) "" in
  if Str.is_empty token || negb (String.eqb token (ADMIN_TOKEN env))
  then inl (json (JObj [("error", JStr "Unauthorized")]) 401)
  else
    let contentType := or_else (hdr_content_type request) "" in
    if negb (Str.includes "multipart/form-data" contentType)
    then inl (json (JObj [("error", JStr "Use multipart/form-data")]) 400)
    else
      match form_file request with
      | None => inl (json (JObj [("error", JStr "Missing file")]) 400)
      | Some file => inr file
      end.

Definition tooLarge : HttpResponse :=
  json (JObj [("error", JStr ("File too large (> " ++ Str.of_Z maxBytes ++ " bytes)"))]) 413.

Definition overwriteOf (request : UploadRequest) : bool :=
  String.eqb (Str.to_lower (or_else (form_overwrite request) "")) "true".

Definition dirOf (request : UploadRequest) : string :=
  sanitizeDirAllowEmpty (match form_dir request with Some d => d | None => "" end).

Definition origOf (file : UploadFile) : string :=
  if Str.is_empty (file_name file) then "upload.bin" else file_name file.

(* ================================================================== *)
(** * part_001: artifact and manifest in one commit *)
(* ================================================================== *)

Module Part001.

Definition ghHeaders (token : string) : string := "Bearer " ++ token.

Section Handler.

(** [JSON.parse(new TextDecoder().decode(Uint8Array.from(atob(s), ...)))]
    as the platform computes it. *)
Variable decode_json : string -> DecodeOutcome.

(** Lines 62-77: the final name and path of the artifact. *)
Definition resolveTarget (env : Env) (dir finalName : string) (overwrite : bool)
  : Prog (HttpResponse + string * string) :=
  let targetName := finalName in
  let safePath := join_path dir targetName in
  if overwrite then Ret (inr (targetName, safePath))
  else
    checkRes <- fetch (mkRequest GET apiBase (GH_REPO env)
                                 (Contents safePath (Some (branchOf env)))
                                 (ghHeaders (GH_TOKEN env)) NoBody) ;;
    if res_ok checkRes then
      prefix <- uniquePrefix ;;
      let targetName := prefix ++ "-" ++ finalName in
      Ret (inr (targetName, join_path dir targetName))
    else if negb (res_status checkRes =? 404) then
      Ret (inl (json (JObj [("error", JStr "Failed to check existing file");
                            ("status", num (res_status checkRes));
                            ("detail", safeJSON checkRes)]) 502))
    else Ret (inr (targetName, safePath)).

(** Lines 79-100: the current manifest, or a fresh one. *)
Definition fetchManifest (env : Env) : Prog (HttpResponse + JsVal) :=
  getRes <- fetch (mkRequest GET apiBase (GH_REPO env)
                             (Contents contentPath (Some (branchOf env)))
                             (ghHeaders (GH_TOKEN env)) NoBody) ;;
  if res_ok getRes then
    meta <- json_of getRes ;;
    content <- lift (Js.get meta "content") ;;
    text <- lift (Js.to_string (if Js.truthy content then content else JStr "")) ;;
    let rawB64 := Str.remove_char "010" text in
    match decode_json rawB64 with
    | BadBase64 => Throw InvalidCharacterError
    | Decoded v => Ret (inr v)
    | BadJson => generated_at <- now_iso ;; Ret (inr (defaultManifest generated_at))
    end
  else if res_status getRes =? 404 then
    generated_at <- now_iso ;; Ret (inr (defaultManifest generated_at))
  else
    Ret (inl (json (JObj [("error", JStr "Failed to fetch content.json");
                          ("status", num (res_status getRes));
                          ("detail", JStr (res_text getRes))]) 502)).

(** Steps 4-6 as written in part_001: the request body of step 4 reads
    [base_tree] and [treeEntries]. *)
Definition create_tree_commit_ref (api repo branch auth message : string)
           (parentSha baseTree : JsVal) (blobMap : list (string * JsVal)) : Prog JsVal :=
  base_tree <- unbound "base_tree" ;;
  treeEntries <- unbound "treeEntries" ;;
  tree_commit_ref api repo branch auth message parentSha base_tree treeEntries.

(** The body of the [try] block: one run of the pipeline. *)
Definition pipeline (api repo branch : string) (files : list (string * FileSpec))
           (message auth : string) : Prog JsVal :=
  ' (parentSha, baseTree, blobMap) <- read_head_and_blobs api repo branch auth files ;;
  create_tree_commit_ref api repo branch auth message parentSha baseTree blobMap.

(** The [for] loop from [attempt] with [remaining] iterations left
    ([attempt <= 3] holds exactly when some are left). *)
Fixpoint attempts (remaining : nat) (attempt : Z) (body : Prog JsVal) : Prog JsVal :=
  match remaining with
  | O => Throw (Error "unreachable")
  | S n =>
      try_catch body
        (fun err =>
           if attempt <? 3
           then Sleep (200 * attempt) (attempts n (attempt + 1) body)
           else Throw err)
  end.

(** Lines 219-295. *)
Definition commitFilesAtomically (api repo branch : string)
           (files : list (string * FileSpec)) (message token : string) : Prog JsVal :=
  attempts 3 1 (pipeline api repo branch files message (ghHeaders token)).

Record Prepared : Type := mkPrepared {
  p_targetName : string;
  p_safePath : string;
  p_filesToCommit : list (string * FileSpec)
}.

(** Lines 13-136: everything up to the change-set. *)
Definition prepareUpload (request : UploadRequest) (env : Env)
  : Prog (HttpResponse + Prepared) :=
  match admission request env with
  | inl rejection => Ret (inl rejection)
  | inr file =>
      let dir := dirOf request in
      let customFilename := or_else (form_filename request) "" in
      let overwrite := overwriteOf request in
      let finalName := finalNameOf (origOf file) customFilename in
      if maxBytes <? Z.of_nat (List.length (file_bytes file))
      then Ret (inl tooLarge)
      else
        let b64 := B64Bytes (file_bytes file) in
        target <- resolveTarget env dir finalName overwrite ;;
        match target with
        | inl failure => Ret (inl failure)
        | inr (targetName, safePath) =>
            fetched <- fetchManifest env ;;
            match fetched with
            | inl failure => Ret (inl failure)
            | inr contentObj =>
                newObj <- appendEntry contentObj dir targetName (file_type file) ;;
                let contentB64 := B64Json newObj in
                let filesToCommit :=
                  Js.set contentPath (mkFileSpec contentB64 None)
                    (Js.set safePath (mkFileSpec b64 None) []) in
                Ret (inr (mkPrepared targetName safePath filesToCommit))
            end
        end
  end.

(** Lines 12-150. *)
Definition onRequestPost (request : UploadRequest) (env : Env) : Prog HttpResponse :=
  prepared <- prepareUpload request env ;;
  match prepared with
  | inl response => Ret response
  | inr p =>
      _ <- commitFilesAtomically apiBase (GH_REPO env) (branchOf env)
             (p_filesToCommit p)
             ("Upload " ++ p_targetName p ++ " and update content.json")
             (GH_TOKEN env) ;;
      Ret (json (JObj [("ok", JBool true);
                       ("path", JStr (p_safePath p));
                       ("filename", JStr (p_targetName p));
                       ("rawUrl", JStr (rawUrlOf (GH_REPO env) (branchOf env) (p_safePath p)))])
                200)
  end.

End Handler.
End Part001.

(* ================================================================== *)
(** * part_000: Contents-API upload, manifest updated afterwards *)
(* ================================================================== *)

Module Part000.

Definition ghHeaders (token : string) : string := "token " ++ token.

(** [err && err.message ? err.message : String(err)] *)
Definition error_text (e : JsError) : string :=
  match e with
  | Error m => if Str.is_empty m then "Error" else m
  | TypeError m => if Str.is_empty m then "TypeError" else m
  | ReferenceError x => x ++ " is not defined"
  | SyntaxError m => if Str.is_empty m then "SyntaxError" else m
  | InvalidCharacterError => "Invalid character"
  | NetworkError m => if Str.is_empty m then "TypeError" else m
  end.

Definition truthy_opt (v : JsVal) : option JsVal :=
  if Js.truthy v then Some v else None.

Section Handler.

Variable decode_json : string -> DecodeOutcome.

(** Lines 120-204: the body of the async function that is called and
    not awaited. *)
Definition updateContentJson (env : Env) (dir targetName fileType : string) : Prog unit :=
  try_catch
    (getRes <- fetch (mkRequest GET apiBase (GH_REPO env)
                                (Contents contentPath (Some (branchOf env)))
                                (ghHeaders (GH_TOKEN env)) NoBody) ;;
     fetched <-
       (if res_ok getRes then
          meta <- json_of getRes ;;
          contentSha <- lift (Js.get meta "sha") ;;
          content <- lift (Js.get meta "content") ;;
          text <- lift (Js.to_string (if Js.truthy content then content else JStr "")) ;;
          let rawB64 := Str.remove_char "010" text in
          match decode_json rawB64 with
          | BadBase64 => Throw InvalidCharacterError
          | Decoded v => Ret (Some (v, contentSha))
          | BadJson =>
              generated_at <- now_iso ;;
              Ret (Some (defaultManifest generated_at, contentSha))
          end
        else if res_status getRes =? 404 then
          generated_at <- now_iso ;;
          Ret (Some (defaultManifest generated_at, JUndefined))
        else Ret None) ;;
     match fetched with
     | None => Ret tt
     | Some (contentObj, contentSha) =>
         newObj <- appendEntry contentObj dir targetName fileType ;;
         let entryPath :=
           let normDir := normDirOf dir in
           if String.eqb normDir "/" then "/" ++ targetName
           else normDir ++ "/" ++ targetName in
         putRes <- fetch (mkRequest PUT apiBase (GH_REPO env)
                                    (Contents contentPath None)
                                    (ghHeaders (GH_TOKEN env))
                                    (ContentsBody ("Update content.json: add " ++ entryPath)
                                                  (B64Json newObj) (branchOf env)
                                                  (truthy_opt contentSha))) ;;
         if negb (res_ok putRes)
         then Warn "content.json update failed:" [num (res_status putRes); safeJSON putRes] (Ret tt)
         else Ret tt
     end)
    (fun err => Warn "content.json update error:" [JStr (error_text err)] (Ret tt)).

(** Lines 61-76: the blob identifier to replace, when overwriting. *)
Definition existingSha (env : Env) (safePath : string) (overwrite : bool)
  : Prog (HttpResponse + JsVal) :=
  if overwrite then
    getRes <- fetch (mkRequest GET apiBase (GH_REPO env)
                               (Contents safePath (Some (branchOf env)))
                               (ghHeaders (GH_TOKEN env)) NoBody) ;;
    if res_ok getRes then
      meta <- json_of getRes ;;
      if Js.is_array meta
      then Ret (inl (json (JObj [("error", JStr "Path points to a directory, not a file")]) 400))
      else sha <- lift (Js.get meta "sha") ;; Ret (inr sha)
    else Ret (inr JUndefined)
  else Ret (inr JUndefined).

(** Lines 78-114: write the artifact; on an "already exists" rejection
    without overwrite, once more under a unique name.  The outcome is
    the final response, name and path. *)
Definition putArtifact (env : Env) (dir finalName : string) (overwrite : bool)
           (b64 : Base64Text) (sha : JsVal)
  : Prog (Response * string * string) :=
  let targetName := finalName in
  let safePath := join_path dir targetName in
  putRes <- fetch (mkRequest PUT apiBase (GH_REPO env) (Contents safePath None)
                             (ghHeaders (GH_TOKEN env))
                             (ContentsBody ("Upload " ++ targetName ++ " via moenaigomi.com")
                                           b64 (branchOf env) (truthy_opt sha))) ;;
  if negb (res_ok putRes) && negb overwrite
     && ((res_status putRes =? 409) || (res_status putRes =? 422))
  then
    let body := safeJSON putRes in
    msg <- (match body with
            | JStr s => Ret (JStr s)
            | _ => m <- lift (Js.get_opt body "message") ;;
                   Ret (if Js.truthy m then m else JStr "")
            end) ;;
    msgText <- lift (Js.to_string msg) ;;
    if Str.includes "already exists" msgText then
      prefix <- uniquePrefix ;;
      let targetName := prefix ++ "-" ++ finalName in
      let safePath := join_path dir targetName in
      putRes <- fetch (mkRequest PUT apiBase (GH_REPO env) (Contents safePath None)
                                 (ghHeaders (GH_TOKEN env))
                                 (ContentsBody ("Upload " ++ targetName ++ " via moenaigomi.com (unique)")
                                               b64 (branchOf env) None)) ;;
      Ret (putRes, targetName, safePath)
    else
      (* the body of [putRes] was read above; line 111 reads it again *)
      Throw (TypeError "Body has already been used")
  else Ret (putRes, targetName, safePath).

(** Lines 7-208.  The response comes with the task started at line 120
    and left running when the handler returns. *)
Definition onRequestPost (request : UploadRequest) (env : Env)
  : Prog (HttpResponse * option (Prog unit)) :=
  match admission request env with
  | inl rejection => Ret (rejection, None)
  | inr file =>
      let dir := dirOf request in
      let customFilename := or_else (form_filename request) "" in
      let overwrite := overwriteOf request in
      let finalName := finalNameOf (origOf file) customFilename in
      if maxBytes <? Z.of_nat (List.length (file_bytes file))
      then Ret (tooLarge, None)
      else
        let b64 := B64Bytes (file_bytes file) in
        existing <- existingSha env (join_path dir finalName) overwrite ;;
        match existing with
        | inl failure => Ret (failure, None)
        | inr sha =>
            ' (putRes, targetName, safePath) <- putArtifact env dir finalName overwrite b64 sha ;;
            if negb (res_ok putRes) then
              Ret (json (JObj [("error", JStr "GitHub API error");
                               ("status", num (res_status putRes));
                               ("detail", safeJSON putRes)]) (res_status putRes), None)
            else
              let payload := safeJSON putRes in
              let rawUrl := rawUrlOf (GH_REPO env) (branchOf env) safePath in
              Ret (json (JObj [("ok", JBool true);
                               ("path", JStr safePath);
                               ("filename", JStr targetName);
                               ("rawUrl", JStr rawUrl);
                               ("github", payload)]) 200,
                   Some (updateContentJson env dir targetName (file_type file)))
        end
  end.

End Handler.

(** Lines 276-338: the pipeline, run once.  [files] and [blobMap] are
    read by their listed properties, as in [create_blobs]: this is
    [Object.keys(files).map(...)] for keys that are ordinary, that is,
    created in the order listed and none of them [__proto__]. *)
Definition treeEntriesOf (files : list (string * FileSpec)) (blobMap : list (string * JsVal))
  : list TreeEntry :=
  List.map
    (fun p =>
       mkTreeEntry
         (Str.drop_while (is_char "/") p)
         (match Js.lookup p files with
          | Some f => or_else (mode f) "100644"
          | None => "100644"
          end)
         "blob"
         (match Js.lookup p blobMap with Some sha => sha | None => JUndefined end))
    (List.map fst files).

Definition commitFilesAtomically (api repo branch : string)
           (files : list (string * FileSpec)) (message token : string) : Prog JsVal :=
  let headers := ghHeaders token in
  ' (parentSha, baseTree, blobMap) <- read_head_and_blobs api repo branch headers files ;;
  let treeEntries := treeEntriesOf files blobMap in
  tree_commit_ref api repo branch headers message parentSha baseTree treeEntries.

End Part000.

(* ================================================================== *)
(** * Worlds used in examples *)
(* ================================================================== *)

Fixpoint count_fetches (h : list Event) : nat :=
  match h with
  | [] => O
  | EvFetch _ _ :: r => S (count_fetches r)
  | _ :: r => count_fetches r
  end.

(** A world that gives the [n]-th fetch the [n]-th answer of a script
    (a network failure once the script is used up), with a fixed clock
    and a fixed [Math.random()] rendering. *)
Definition scripted (answers : list FetchResult) (ms : Z) (iso rnd : string) : World :=
  mkWorld
    (fun h _ => nth (count_fetches h) answers (Rejected (NetworkError "fetch failed")))
    (fun _ => ms)
    (fun _ => iso)
    (fun _ => rnd).

Definition respond (status : Z) (body : JsVal) : FetchResult :=
  Responded (mkResponse status "" (Some body)).

Definition not_found : FetchResult :=
  respond 404 (JObj [("message", JStr "Not Found")]).

(* ================================================================== *)
(** * Vocabulary of the statements and sample runs *)
(* ================================================================== *)

(** [only ok p]: whatever the answers, every event [p] produces
    satisfies [ok]. *)
Fixpoint only {A} (ok : Event -> Prop) (p : Prog A) : Prop :=
  match p with
  | Ret _ | Throw _ => True
  | Fetch req k => forall r, ok (EvFetch req r) /\ only ok (k r)
  | DateNow k => forall t, ok (EvDateNow t) /\ only ok (k t)
  | NowIso k => forall t, ok (EvNowIso t) /\ only ok (k t)
  | Random36 k => forall r, ok (EvRandom r) /\ only ok (k r)
  | Sleep ms k => ok (EvSleep ms) /\ only ok k
  | Warn l d k => ok (EvWarn l d) /\ only ok k
  end.


(** [always_throws p]: whatever the answers, [p] ends in an error. *)
Fixpoint always_throws {A} (p : Prog A) : Prop :=
  match p with
  | Ret _ => False
  | Throw _ => True
  | Fetch _ k => forall r, always_throws (k r)
  | DateNow k => forall t, always_throws (k t)
  | NowIso k => forall t, always_throws (k t)
  | Random36 k => forall r, always_throws (k r)
  | Sleep _ k => always_throws k
  | Warn _ _ k => always_throws k
  end.

(** The two shapes the version pattern accepts. *)
Definition digits (s : string) : Prop :=
  s <> EmptyString /\ Str.all Str.is_digit s = true.

Definition version_form (s : string) : Prop :=
  digits s \/ exists major minor, s = major ++ "." ++ minor /\ digits major /\ digits minor.

Definition is_ref_read (ev : Event) : bool :=
  match ev with
  | EvFetch (mkRequest GET _ _ (GitRef _) _ _) _ => true
  | _ => false
  end.

Definition sleep_of (ev : Event) : list Z :=
  match ev with
  | EvSleep ms => [ms]
  | _ => []
  end.

(** The waits among some events, in order. *)
Definition sleeps (evs : list Event) : list Z := flat_map sleep_of evs.

(** The number of times the branch ref was read. *)
Definition ref_reads (evs : list Event) : nat := List.length (filter is_ref_read evs).

(** Requests of steps 4-6: a tree, a commit, or a ref update. *)
Definition is_write_step (ev : Event) : bool :=
  match ev with
  | EvFetch req _ =>
      match req_endpoint req with
      | GitTrees | GitCommits | GitRefs _ => true
      | _ => false
      end
  | _ => false
  end.

(** Requests of steps 2 and 3: reading a commit, creating a blob. *)
Definition is_commit_read_or_blob (ev : Event) : bool :=
  match ev with
  | EvFetch (mkRequest GET _ _ (GitCommit _) _ _) _ => true
  | EvFetch (mkRequest POST _ _ GitBlobs _ _) _ => true
  | _ => false
  end.

Definition ref_request (api repo branch auth : string) : Request :=
  mkRequest GET api repo (GitRef branch) auth NoBody.

(** The shape of the events of one attempt: the ref read, then commit
    reads and blob creations only. *)
Definition attempt_shape (evs : list Event) : Prop :=
  exists ev rest,
    evs = ev :: rest /\ is_ref_read ev = true /\ is_write_step ev = false /\
    Forall (fun ev => is_commit_read_or_blob ev = true) rest.

(** An error that reports a failed ref update. *)
Definition is_ref_update_failure (e : JsError) : bool :=
  match e with
  | Error m => String.prefix "ref update failed" m
  | _ => false
  end.

(** A remote that answers the first ref read with status 500 and is
    unreachable afterwards. *)
Definition failing_remote : World :=
  scripted [respond 500 (JObj [("message", JStr "Server Error")])] 0 "" "".

(** [results P p]: whatever the answers, a value [p] returns
    satisfies [P]. *)
Fixpoint results {A} (P : A -> Prop) (p : Prog A) : Prop :=
  match p with
  | Ret a => P a
  | Throw _ => True
  | Fetch _ k => forall r, results P (k r)
  | DateNow k => forall t, results P (k t)
  | NowIso k => forall t, results P (k t)
  | Random36 k => forall r, results P (k r)
  | Sleep _ k => results P k
  | Warn _ _ k => results P k
  end.

(** The statuses of the responses that report a rejected or failed
    upload. *)
Definition failure_status (r : HttpResponse) : Prop :=
  In (http_status r) [401; 400; 413; 502].

Definition prepared_or_failure {P} (r : HttpResponse + P) : Prop :=
  match r with
  | inl response => failure_status response
  | inr _ => True
  end.

Definition pool_env : Env :=
  mkEnv "gh-token" "nagito-hiroshima/pool" None "admin-secret" None.

Definition photo_upload : UploadRequest :=
  mkUpload (Some "admin-secret") (Some "multipart/form-data; boundary=x")
           (Some (mkFile "photo.png" "image/png" [137; 80; 78; 71]))
           (Some "images") None None.

Definition one_attempt_answers : list FetchResult :=
  [ respond 200 (JObj [("object", JObj [("sha", JStr "p0")])]);
    respond 200 (JObj [("tree", JObj [("sha", JStr "t0")])]);
    respond 201 (JObj [("sha", JStr "b1")]);
    respond 201 (JObj [("sha", JStr "b2")]) ].

(** Nothing exists yet at the artifact path nor at the manifest path;
    every ref read, commit read and blob creation succeeds. *)
Definition healthy_remote : World :=
  scripted ([not_found; not_found]
              ++ one_attempt_answers ++ one_attempt_answers ++ one_attempt_answers)
           1735689600000 "2025-01-01T00:00:00.000Z" "0.4fzyo82mvyr".

Definition no_decode : string -> DecodeOutcome := fun _ => BadBase64.

Definition blob_creations (evs : list Event) : nat :=
  List.length
    (filter (fun ev =>
               match ev with
               | EvFetch (mkRequest POST _ _ GitBlobs _ _) _ => true
               | _ => false
               end) evs).

(** The object identifiers a request body states. *)
Definition stated_ids (b : Body) : list JsVal :=
  match b with
  | RefBody sha => [sha]
  | CommitBody _ tree parents => tree :: parents
  | TreeBody base_tree entries => base_tree :: List.map te_sha entries
  | ContentsBody _ _ _ (Some sha) => [sha]
  | _ => []
  end.

Definition is_ref_update (req : Request) : bool :=
  match req_endpoint req with
  | GitRefs _ => true
  | _ => false
  end.

(** The answer to a commit creation that gives the new commit the
    identifier [sha]. *)
Definition created (a : FetchResult) (sha : JsVal) : Prop :=
  exists r j, a = Responded r /\ res_ok r = true /\ res_json r = Some j /\ Js.get j "sha" = Ok sha.

(** What steps 4-6 send and return, by cases on the answers. *)
Inductive write_steps (api repo branch auth message : string)
          (parentSha base_tree : JsVal) (treeEntries : list TreeEntry)
  : list Event -> Result JsVal -> Prop :=
| ws_tree_failed a e :
    write_steps api repo branch auth message parentSha base_tree treeEntries
      [EvFetch (mkRequest POST api repo GitTrees auth (TreeBody base_tree treeEntries)) a]
      (Thrown e)
| ws_commit_failed a1 newTreeSha a2 e :
    write_steps api repo branch auth message parentSha base_tree treeEntries
      [EvFetch (mkRequest POST api repo GitTrees auth (TreeBody base_tree treeEntries)) a1;
       EvFetch (mkRequest POST api repo GitCommits auth
                          (CommitBody message newTreeSha [parentSha])) a2]
      (Thrown e)
| ws_update_rejected a1 newTreeSha a2 newCommitSha e :
    created a2 newCommitSha ->
    write_steps api repo branch auth message parentSha base_tree treeEntries
      [EvFetch (mkRequest POST api repo GitTrees auth (TreeBody base_tree treeEntries)) a1;
       EvFetch (mkRequest POST api repo GitCommits auth
                          (CommitBody message newTreeSha [parentSha])) a2;
       EvFetch (mkRequest PATCH api repo (GitRefs branch) auth (RefBody newCommitSha))
               (Rejected e)]
      (Thrown e)
| ws_update_refused a1 newTreeSha a2 newCommitSha r :
    created a2 newCommitSha ->
    res_ok r = false ->
    write_steps api repo branch auth message parentSha base_tree treeEntries
      [EvFetch (mkRequest POST api repo GitTrees auth (TreeBody base_tree treeEntries)) a1;
       EvFetch (mkRequest POST api repo GitCommits auth
                          (CommitBody message newTreeSha [parentSha])) a2;
       EvFetch (mkRequest PATCH api repo (GitRefs branch) auth (RefBody newCommitSha))
               (Responded r)]
      (Thrown (Error ("ref update failed: " ++ status_text r)))
| ws_updated a1 newTreeSha a2 newCommitSha r :
    created a2 newCommitSha ->
    res_ok r = true ->
    write_steps api repo branch auth message parentSha base_tree treeEntries
      [EvFetch (mkRequest POST api repo GitTrees auth (TreeBody base_tree treeEntries)) a1;
       EvFetch (mkRequest POST api repo GitCommits auth
                          (CommitBody message newTreeSha [parentSha])) a2;
       EvFetch (mkRequest PATCH api repo (GitRefs branch) auth (RefBody newCommitSha))
               (Responded r)]
      (Ok newCommitSha).

(** The answer to the ref read that gives [parentSha] as the head. *)
Definition observed_parent (a : FetchResult) (parentSha : JsVal) : Prop :=
  exists r j obj,
    a = Responded r /\ res_ok r = true /\ res_json r = Some j /\
    Js.get j "object" = Ok obj /\ Js.get_opt obj "sha" = Ok parentSha.

(** A remote that accepts every request of the pipeline. *)
Definition accepting_remote : World :=
  scripted [ respond 200 (JObj [("object", JObj [("sha", JStr "p0")])]);
             respond 200 (JObj [("tree", JObj [("sha", JStr "t0")])]);
             respond 201 (JObj [("sha", JStr "b1")]);
             respond 201 (JObj [("sha", JStr "t1")]);
             respond 201 (JObj [("sha", JStr "c1")]);
             respond 200 (JObj [("ref", JStr "refs/heads/main")]) ]
           0 "" "".

(** The entries of [files] before an upload: those of the array, none
    when [files] is missing or not an array. *)
Definition files_before (props : list (string * JsVal)) : JsVal :=
  match Js.lookup "files" props with
  | Some (JArr elems named) => JArr elems named
  | _ => Js.arr []
  end.

Definition version_before (props : list (string * JsVal)) : JsVal :=
  match Js.lookup "version" props with
  | Some v => v
  | None => JUndefined
  end.

Definition with_files_array (props : list (string * JsVal)) : list (string * JsVal) :=
  match Js.lookup "files" props with
  | Some (JArr _ _) => props
  | _ => Js.set "files" (Js.arr []) props
  end.

Definition manifest_request (env : Env) : Request :=
  mkRequest GET apiBase (GH_REPO env) (Contents contentPath (Some (branchOf env)))
            (Part001.ghHeaders (GH_TOKEN env)) NoBody.

(** The manifest is not there: the read is answered 404. *)
Definition manifest_absent (a : FetchResult) : Prop :=
  exists r, a = Responded r /\ res_status r = 404.

(** The manifest is there and its text is not JSON. *)
Definition manifest_unparsable (decode_json : string -> DecodeOutcome) (a : FetchResult) : Prop :=
  exists r meta content text,
    a = Responded r /\ res_ok r = true /\ res_json r = Some meta /\
    Js.get meta "content" = Ok content /\
    Js.to_string (if Js.truthy content then content else JStr "") = Ok text /\
    decode_json (Str.remove_char "010" text) = BadJson.

(** The platform's decoding of four base64 texts: [not json],
    [{"version":"7.3","files":"oops"}], [null], and a manifest at
    version "3" with one file. *)
Definition sample_decode (s : string) : DecodeOutcome :=
  if String.eqb s "bm90IGpzb24=" then BadJson
  else if String.eqb s "eyJ2ZXJzaW9uIjoiNy4zIiwiZmlsZXMiOiJvb3BzIn0="
  then Decoded (JObj [("version", JStr "7.3"); ("files", JStr "oops")])
  else if String.eqb s "bnVsbA==" then Decoded JNull
  else if String.eqb s "eyJ2ZXJzaW9uIjoiMyIsImdlbmVyYXRlZF9hdCI6IjIwMjQtMTItMzFUMDA6MDA6MDAuMDAwWiIsImZpbGVzIjpbeyJuYW1lIjoib2xkLnBuZyJ9XX0="
  then Decoded (JObj [("version", JStr "3");
                      ("generated_at", JStr "2024-12-31T00:00:00.000Z");
                      ("files", Js.arr [JObj [("name", JStr "old.png")]])])
  else BadBase64.

(** The Contents-API answer for a file with the given base64 text (a
    line feed after it, as the API sends it). *)
Definition contents_answer (b64 : string) : FetchResult :=
  respond 200 (JObj [("sha", JStr "m0");
                     ("encoding", JStr "base64");
                     ("content", JStr (b64 ++ String "010" ""))]).

Definition clock_ms : Z := 1735689600000.

Definition clock_iso : string := "2025-01-01T00:00:00.000Z".

(** The expected structure of a manifest: an object with a string
    [version], a string [generated_at] and an array [files]. *)
Definition is_manifest (v : JsVal) : bool :=
  match v with
  | JObj props =>
      match Js.lookup "version" props, Js.lookup "generated_at" props, Js.lookup "files" props with
      | Some (JStr _), Some (JStr _), Some (JArr _ _) => true
      | _, _, _ => false
      end
  | _ => false
  end.

Definition probe_request (env : Env) (path : string) : Request :=
  mkRequest GET apiBase (GH_REPO env) (Contents path (Some (branchOf env)))
            (Part001.ghHeaders (GH_TOKEN env)) NoBody.

Definition photo_upload_of (fileType : string) : UploadRequest :=
  mkUpload (Some "admin-secret") (Some "multipart/form-data; boundary=x")
           (Some (mkFile "photo.png" fileType [137; 80; 78; 71]))
           (Some "images") None (Some "false").

(** The digits of [n], given [f] positions. *)
Fixpoint digits_spec (f : nat) (b n : Z) : string :=
  match f with
  | O => ""
  | S f' =>
      if n / b =? 0 then String (Str.digit_char (n mod b)) ""
      else digits_spec f' b (n / b) ++ String (Str.digit_char (n mod b)) ""
  end.

(** The random part of a unique prefix: characters 2..5 of the base-36
    rendering of [Math.random()]. *)
Definition random_part (rnd : string) : string := Str.take 4 (Str.drop 2 rnd).

(** The name [uniquePrefix()-finalName] for given readings. *)
Definition uniqueName (now : Z) (rnd finalName : string) : string :=
  (to_string36 now ++ "-" ++ random_part rnd) ++ "-" ++ finalName.






Definition server_error : FetchResult :=
  respond 500 (JObj [("message", JStr "Server Error")]).



(* ================================================================== *)
(** * The remaining helpers: CORS, base64, directory fallback, image
      checks *)
(* ================================================================== *)

(** [s.split(c)] for a one-character separator. *)
Fixpoint split_on (c : ascii) (s : string) : list string :=
  match s with
  | EmptyString => [EmptyString]
  | String d r =>
      if Ascii.eqb c d then EmptyString :: split_on c r
      else match split_on c r with
           | x :: rest => String d x :: rest
           | [] => [String d EmptyString]
           end
  end.

(** A response with its headers; [Headers] keeps names in lower case
    and [set] replaces the value of a name. *)
Record FullResponse : Type := mkFull {
  full_status : Z;
  full_body : option JsVal;
  full_headers : list (string * string)
}.

Definition header_set (name value : string) (hs : list (string * string))
  : list (string * string) :=
  Js.set (Str.to_lower name) value hs.

Definition header_get (name : string) (hs : list (string * string)) : option string :=
  Js.lookup (Str.to_lower name) hs.

(** [json(obj, status)] with the header it sets (lines 161-162 of
    part_001). *)
Definition json_full (obj : JsVal) (status : Z) : FullResponse :=
  mkFull status (Some obj) [("content-type", "application/json; charset=utf-8")].

(** The origins [cors] accepts besides the wildcard. *)
Definition allow_list (env : Env) : list string :=
  match ALLOWED_ORIGINS env with
  | Some s => List.map Str.trim (split_on "," s)
  | None => []
  end.

Definition origin_allowed (env : Env) (origin : string) : bool :=
  match ALLOWED_ORIGINS env with
  | Some s => String.eqb s "*"
  | None => false
  end
  || existsb (String.eqb origin) (allow_list env).

(** [cors] (lines 202-212 of part_001, 259-269 of part_000);
    [origin_header] is [req.headers.get("Origin")]. *)
Definition cors (env : Env) (res : FullResponse) (origin_header : option string)
  : FullResponse :=
  let origin := or_else origin_header "" in
  let allowed := origin_allowed env origin in
  let headers := full_headers res in
  let headers := header_set "Access-Control-Allow-Methods" "POST, OPTIONS" headers in
  let headers := header_set "Access-Control-Allow-Headers" "Content-Type, X-Admin-Token" headers in
  let headers := header_set "Vary" "Origin" headers in
  let headers := if allowed then header_set "Access-Control-Allow-Origin" origin headers
                 else headers in
  mkFull (full_status res) (full_body res) headers.

(** [onRequestOptions] (lines 8-10 of part_001). *)
Definition onRequestOptions (env : Env) (origin_header : option string) : FullResponse :=
  cors env (mkFull 204 None []) origin_header.

(** [String.fromCharCode(...bytes)] on the elements of a [Uint8Array]. *)
Fixpoint from_char_codes (bytes : list Z) : string :=
  match bytes with
  | [] => EmptyString
  | b :: r => String (ascii_of_nat (Z.to_nat b)) (from_char_codes r)
  end.

(** [bytes.subarray(i, j)] / [bytes.slice(i, j)] *)
Definition subarray (bytes : list Z) (i j : nat) : list Z :=
  firstn (j - i) (skipn i bytes).

(** The loop of [base64FromBytes] from index [i], with [fuel]
    iterations at most; [chunk] is the step. *)
Fixpoint chunk_loop (fuel chunk : nat) (bytes : list Z) (i : nat) (binary : string) : string :=
  match fuel with
  | O => binary
  | S f =>
      if (i <? List.length bytes)%nat
      then chunk_loop f chunk bytes (i + chunk)
                      (binary ++ from_char_codes (subarray bytes i (i + chunk)))
      else binary
  end.

Definition chunk_size : nat := Z.to_nat 32768.

(** [base64FromBytes] (lines 190-199 of part_001); [btoa] is the
    platform's encoder.  The loop starts at 0 and advances by 0x8000,
    so it ends within [bytes.length] iterations. *)
Definition base64FromBytes (btoa : string -> string) (bytes : list Z) : string :=
  btoa (chunk_loop (List.length bytes) chunk_size bytes 0 "").

(** [sanitizeDir] of src/api/upload.ts (lines 107-108). *)
Definition sanitizeDir (s : string) : string :=
  let r := Str.drop_while_end (is_char "/")
             (Str.drop_while (is_char "/") (replace_unless dir_char s)) in
  if Str.is_empty r then "uploads" else r.

(** ** src/image-validator.ts *)

Definition allowedExtensions : list string :=
  ["jpg"; "jpeg"; "png"; "gif"; "webp"; "svg"; "bmp"; "heic"; "heif"; "tiff"].

Definition includes_string (x : string) (l : list string) : bool :=
  existsb (String.eqb x) l.

(** [isImageByExt] (lines 4-8); [None] is a missing name. *)
Definition isImageByExt (name : option string) : bool :=
  match name with
  | None => false
  | Some n =>
      if Str.is_empty n then false
      else includes_string (Str.to_lower (Str.after_last "." n)) allowedExtensions
  end.

(** [isImageByMime] (lines 10-13) *)
Definition isImageByMime (mime : option string) : bool :=
  match mime with
  | None => false
  | Some m =>
      if Str.is_empty m then false
      else String.eqb m "image/svg+xml" || String.prefix "image/" m
  end.

(** [bytes[i] === v], false beyond the end. *)
Definition byte_is (bytes : list Z) (i : nat) (v : Z) : bool :=
  match nth_error bytes i with
  | Some b => b =? v
  | None => false
  end.

(** [s(i, n)] of [isImageBuffer]: the characters of [n] bytes from [i]. *)
Definition chars_at (bytes : list Z) (i n : nat) : string :=
  from_char_codes (subarray bytes i (i + n)).

Definition heic_brands : list string :=
  ["heic"; "heix"; "hevc"; "hevx"; "mif1"; "msf1"; "heif"].

(** [isImageBuffer] (lines 16-40).  The SVG test decodes the bytes,
    lower-cases the text and looks for the ASCII word "<svg".
    Decoding leaves ASCII bytes in place and turns the others into
    characters that are not ASCII, and lower-casing gives none of "<",
    "s", "v", "g" from such a character, so the search is made on the
    bytes taken as characters, lower-cased. *)
Definition isImageBuffer (bytes : list Z) : bool :=
  if (List.length bytes <? 4)%nat then false
  else if byte_is bytes 0 255 && byte_is bytes 1 216 && byte_is bytes 2 255 then true
  else if byte_is bytes 0 137 && String.eqb (chars_at bytes 1 3) "PNG" then true
  else if String.eqb (chars_at bytes 0 6) "GIF87a" || String.eqb (chars_at bytes 0 6) "GIF89a"
  then true
  else if byte_is bytes 0 66 && byte_is bytes 1 77 then true
  else if String.eqb (chars_at bytes 0 4) "RIFF" && String.eqb (chars_at bytes 8 4) "WEBP"
  then true
  else if byte_is bytes 0 60
          && Str.includes "<svg" (Str.to_lower (from_char_codes bytes))
  then true
  else if (12 <=? List.length bytes)%nat && String.eqb (chars_at bytes 4 4) "ftyp"
          && includes_string (chars_at bytes 8 4) heic_brands
  then true
  else false.

(** [validateFileIsImage] (lines 43-53): the declared type, then the
    name, then the first [min(4096, size || 4096)] bytes. *)
Definition validateFileIsImage (file : UploadFile) : bool :=
  if isImageByMime (Some (file_type file)) then true
  else if isImageByExt (Some (file_name file)) then true
  else
    let size := List.length (file_bytes file) in
    let probeSize := Nat.min 4096 (if (size =? 0)%nat then 4096 else size) in
    isImageBuffer (subarray (file_bytes file) 0 probeSize).

(** ** The second handler of part_000 (lines 361-474)

    It writes the artifact as the first one does and leaves the
    manifest alone; the name it retries under is made from the
    sanitized name. *)

Module Part000b.

Definition safeOrigOf (request : UploadRequest) (file : UploadFile) : string :=
  let customFilename := or_else (form_filename request) "" in
  sanitizeFilename (if Str.is_empty customFilename then origOf file else customFilename).

(** Lines 432-463: the write, and the write under a unique name. *)
Definition putArtifact (env : Env) (dir safeOrig finalName : string) (overwrite : bool)
           (b64 : Base64Text) (sha : JsVal)
  : Prog (Response * string * string) :=
  let targetName := finalName in
  let safePath := join_path dir targetName in
  putRes <- fetch (mkRequest PUT apiBase (GH_REPO env) (Contents safePath None)
                             (Part000.ghHeaders (GH_TOKEN env))
                             (ContentsBody ("Upload " ++ targetName ++ " via CF Pages")
                                           b64 (branchOf env) (Part000.truthy_opt sha))) ;;
  if negb (res_ok putRes) && negb overwrite
     && ((res_status putRes =? 409) || (res_status putRes =? 422))
  then
    let body := safeJSON putRes in
    msg <- (match body with
            | JStr s => Ret (JStr s)
            | _ => m <- lift (Js.get_opt body "message") ;;
                   Ret (if Js.truthy m then m else JStr "")
            end) ;;
    msgText <- lift (Js.to_string msg) ;;
    if Str.includes "already exists" msgText then
      prefix <- uniquePrefix ;;
      let targetName := prefix ++ "-" ++ safeOrig in
      let safePath := join_path dir targetName in
      putRes <- fetch (mkRequest PUT apiBase (GH_REPO env) (Contents safePath None)
                                 (Part000.ghHeaders (GH_TOKEN env))
                                 (ContentsBody ("Upload " ++ targetName ++ " via CF Pages (unique)")
                                               b64 (branchOf env) None)) ;;
      Ret (putRes, targetName, safePath)
    else
      (* the body of [putRes] was read above; line 465 reads it again *)
      Throw (TypeError "Body has already been used")
  else Ret (putRes, targetName, safePath).

(** Lines 361-474. *)
Definition onRequestPost (request : UploadRequest) (env : Env) : Prog HttpResponse :=
  match admission request env with
  | inl rejection => Ret rejection
  | inr file =>
      let dir := dirOf request in
      let customFilename := or_else (form_filename request) "" in
      let overwrite := overwriteOf request in
      let safeOrig := safeOrigOf request file in
      let finalName := finalNameOf (origOf file) customFilename in
      if maxBytes <? Z.of_nat (List.length (file_bytes file))
      then Ret tooLarge
      else
        let b64 := B64Bytes (file_bytes file) in
        existing <- Part000.existingSha env (join_path dir finalName) overwrite ;;
        match existing with
        | inl failure => Ret failure
        | inr sha =>
            ' (putRes, targetName, safePath) <-
              putArtifact env dir safeOrig finalName overwrite b64 sha ;;
            if negb (res_ok putRes) then
              Ret (json (JObj [("error", JStr "GitHub API error");
                               ("status", num (res_status putRes));
                               ("detail", safeJSON putRes)]) (res_status putRes))
            else
              let payload := safeJSON putRes in
              let rawUrl := rawUrlOf (GH_REPO env) (branchOf env) safePath in
              Ret (json (JObj [("ok", JBool true);
                               ("path", JStr safePath);
                               ("filename", JStr targetName);
                               ("rawUrl", JStr rawUrl);
                               ("github", payload)]) 200)
        end
  end.

End Part000b.

(** ** src/api/upload.ts: a dated path, written through the Contents API *)

Module UploadTs.

(** [s.replaceAll("-", "/")] and the like. *)
Definition replace_char (from to : ascii) (s : string) : string :=
  Str.map (fun c => if Ascii.eqb c from then to else c) s.

(** [s.replaceAll("//", "/")]: the pairs are found left to right and
    what replaces a pair is not looked at again. *)
Fixpoint collapse_slashes (s : string) : string :=
  match s with
  | EmptyString => EmptyString
  | String c r =>
      match r with
      | String d r' =>
          if Ascii.eqb c "/" && Ascii.eqb d "/"
          then String "/" (collapse_slashes r')
          else String c (collapse_slashes r)
      | EmptyString => String c EmptyString
      end
  end.

(** The characters [encodeURIComponent] leaves as they are. *)
Definition unreserved (c : ascii) : bool :=
  is_alnum c || Str.contains_char c "-_.!~*'()".

Definition hex_digit (n : Z) : ascii :=
  if n <? 10 then ascii_of_nat (Z.to_nat (48 + n)) else ascii_of_nat (Z.to_nat (55 + n)).

(** [%XX] for one byte. *)
Definition percent (b : Z) : string :=
  String "%" (String (hex_digit (b / 16)) (String (hex_digit (b mod 16)) EmptyString)).

(** A code unit below 256 as [encodeURIComponent] writes it: the
    bytes of its UTF-8 form, one for ASCII and two above. *)
Definition encode_char (c : ascii) : string :=
  if unreserved c then String c EmptyString
  else
    let n := Str.code c in
    if n <? 128 then percent n
    else percent (192 + n / 64) ++ percent (128 + n mod 64).

Fixpoint encodeURIComponent (s : string) : string :=
  match s with
  | EmptyString => EmptyString
  | String c r => encode_char c ++ encodeURIComponent r
  end.

(** Line 32: [YYYY/MM/DD/] from the first ten characters of the
    clock's ISO rendering. *)
Definition datedPrefix (iso : string) : string :=
  replace_char "-" "/" (Str.take 10 iso) ++ "/".

(** Line 33 *)
Definition pathOf (dir iso prefix safeOrig : string) : string :=
  collapse_slashes (dir ++ "/" ++ datedPrefix iso ++ prefix ++ "-" ++ safeOrig).

(** Line 25: the directory, "images" when the form gives none. *)
Definition dirOf (request : UploadRequest) : string :=
  let raw := or_else (form_dir request) "" in
  sanitizeDir (if Str.is_empty raw then "images" else raw).

(** Lines 5-84. *)
Definition onRequestPost (request : UploadRequest) (env : Env) : Prog HttpResponse :=
  match admission request env with
  | inl rejection => Ret rejection
  | inr file =>
      let dir := dirOf request in
      let customFilename := or_else (form_filename request) "" in
      let overwrite := overwriteOf request in
      let safeOrig :=
        sanitizeFilename (if Str.is_empty customFilename then origOf file else customFilename) in
      iso <- now_iso ;;
      prefix <- uniquePrefix ;;
      let path := pathOf dir iso prefix safeOrig in
      if maxBytes <? Z.of_nat (List.length (file_bytes file))
      then Ret tooLarge
      else
        let b64 := B64Bytes (file_bytes file) in
        sha <- (if overwrite then
                  getRes <- fetch (mkRequest GET apiBase (GH_REPO env)
                                             (Contents (encodeURIComponent path)
                                                       (Some (branchOf env)))
                                             (Part000.ghHeaders (GH_TOKEN env)) NoBody) ;;
                  if res_ok getRes then
                    meta <- json_of getRes ;;
                    lift (Js.get meta "sha")
                  else Ret JUndefined
                else Ret JUndefined) ;;
        putRes <- fetch (mkRequest PUT apiBase (GH_REPO env)
                                   (Contents (encodeURIComponent path) None)
                                   (Part000.ghHeaders (GH_TOKEN env))
                                   (ContentsBody ("Upload " ++ safeOrig ++ " via CF Pages")
                                                 b64 (branchOf env) (Part000.truthy_opt sha))) ;;
        if negb (res_ok putRes) then
          Ret (json (JObj [("error", JStr "GitHub API error");
                           ("status", num (res_status putRes));
                           ("detail", safeJSON putRes)]) (res_status putRes))
        else
          let payload := safeJSON putRes in
          let rawUrl := rawUrlOf (GH_REPO env) (branchOf env) path in
          Ret (json (JObj [("ok", JBool true);
                           ("path", JStr path);
                           ("rawUrl", JStr rawUrl);
                           ("github", payload)]) 200)
  end.

End UploadTs.

(* ================================================================== *)
(** * Vocabulary of the further statements *)
(* ================================================================== *)

(** The first character of a string, if any, fails [p]. *)
Definition head_fails (p : ascii -> bool) (s : string) : Prop :=
  match s with
  | EmptyString => True
  | String c _ => p c = false
  end.

(** The last character of a string, if any, fails [p]. *)
Definition last_fails (p : ascii -> bool) (s : string) : Prop :=
  head_fails p (Str.rev s).

(** The request carries no admin token, an empty one, or a wrong one. *)
Definition unauthorized (request : UploadRequest) (env : Env) : Prop :=
  match hdr_admin_token request with
  | None => True
  | Some t => t = "" \/ t <> ADMIN_TOKEN env
  end.

(** An event that changes nothing on the branch: a [GET], the creation
    of a blob, a clock or random reading, a wait, a log line. *)
Definition reads_or_blobs (ev : Event) : Prop :=
  match ev with
  | EvFetch req _ =>
      req_method req = GET \/ (req_method req = POST /\ req_endpoint req = GitBlobs)
  | _ => True
  end.


(** The text [<major>.<minor>] with both numbers in decimal, no leading
    zeros: the form [bumpVersion] writes. *)
Definition version_text (major minor : Z) : string :=
  Str.to_radix 10 major ++ "." ++ Str.to_radix 10 minor.

(** The request that creates the blob of one file. *)
Definition blob_request (api repo auth : string) (f : FileSpec) : Request :=
  mkRequest POST api repo GitBlobs auth (BlobBody (contentBase64 f) "base64").

(** The blob creations for [files], in their order, with the answers
    they got. *)
Definition blob_events (api repo auth : string) (files : list (string * FileSpec))
           (answers : list FetchResult) : list Event :=
  List.map (fun fa => EvFetch (blob_request api repo auth (snd (fst fa))) (snd fa))
           (combine files answers).

(** The tree entries that give each file of [files] the blob of the
    same position in [shas]. *)
Definition entries_for (files : list (string * FileSpec)) (shas : list JsVal)
  : list TreeEntry :=
  List.map (fun fs => mkTreeEntry (Str.drop_while (is_char "/") (fst (fst fs)))
                                  (or_else (mode (snd (fst fs))) "100644")
                                  "blob" (snd fs))
           (combine files shas).

(** The blob map after recording [shas] under [keys]. *)
Definition record_blobs (keys : list string) (shas : list JsVal)
           (blobMap : list (string * JsVal)) : list (string * JsVal) :=
  fold_left (fun m ks => Js.set (fst ks) (snd ks) m) (combine keys shas) blobMap.

(** The answer to the commit read that gives [baseTree] as the tree of
    the parent. *)
Definition observed_tree (a : FetchResult) (baseTree : JsVal) : Prop :=
  exists r j tree,
    a = Responded r /\ res_ok r = true /\ res_json r = Some j /\
    Js.get j "tree" = Ok tree /\ Js.get_opt tree "sha" = Ok baseTree.

(** [requests_at_most n p]: whatever the answers, [p] sends at most
    [n] requests. *)
Fixpoint requests_at_most {A} (n : nat) (p : Prog A) : Prop :=
  match p with
  | Ret _ | Throw _ => True
  | Fetch _ k =>
      match n with
      | O => False
      | S m => forall r, requests_at_most m (k r)
      end
  | DateNow k => forall t, requests_at_most n (k t)
  | NowIso k => forall t, requests_at_most n (k t)
  | Random36 k => forall r, requests_at_most n (k r)
  | Sleep _ k => requests_at_most n k
  | Warn _ _ k => requests_at_most n k
  end.

(** Two files to commit, the second with a mode of its own, and a
    remote that accepts every request of the pipeline for them. *)
Definition two_files : list (string * FileSpec) :=
  [("/a.txt", mkFileSpec (B64Bytes [104; 105]) None);
   ("bin/run.sh", mkFileSpec (B64Bytes [35; 33]) (Some "100755"))].

Definition two_file_remote : World :=
  scripted [ respond 200 (JObj [("object", JObj [("sha", JStr "p0")])]);
             respond 200 (JObj [("tree", JObj [("sha", JStr "t0")])]);
             respond 201 (JObj [("sha", JStr "b1")]);
             respond 201 (JObj [("sha", JStr "b2")]);
             respond 201 (JObj [("sha", JStr "t1")]);
             respond 201 (JObj [("sha", JStr "c1")]);
             respond 200 (JObj [("ref", JStr "refs/heads/main")]) ]
           0 "" "".

(** The final name the handlers give the uploaded file of a request. *)
Definition finalNameFor (request : UploadRequest) : string :=
  match form_file request with
  | Some file => finalNameOf (origOf file) (or_else (form_filename request) "")
  | None => ""
  end.


(** A remote that answers every request with [r]. *)
Definition answering (r : Response) : World :=
  mkWorld (fun _ _ => Responded r) (fun _ => clock_ms) (fun _ => clock_iso)
          (fun _ => "0.4fzyo82mvyr").

(** The answer of the Contents API to a write it refuses for a reason
    other than an existing file. *)
Definition invalid_request : Response :=
  mkResponse 422 "" (Some (JObj [("message", JStr "Invalid request")])).

(** A request addressed to the Contents API with a path of one
    segment, no "/" in it. *)
Definition single_segment (ev : Event) : Prop :=
  match ev with
  | EvFetch req _ =>
      exists p ref, req_endpoint req = Contents p ref /\ Str.contains_char "/" p = false
  | _ => True
  end.

(* ================================================================== *)
(** * What the JSON text of a value holds *)
(* ================================================================== *)

(** [JSON.parse(JSON.stringify(v, null, 2))] for a value built from
    parsed JSON by assignments: the text of an array holds its
    elements and none of its other properties, writing [null] for an
    [undefined] element; the text of an object leaves out the
    properties whose value is [undefined]; [NaN] and the infinities
    are written [null], and [-0] is written [0].  ([undefined] itself
    has no JSON text.) *)
Fixpoint json_view (v : JsVal) : JsVal :=
  match v with
  | JNum r =>
      if String.eqb r "NaN" || String.eqb r "Infinity" || String.eqb r "-Infinity"
      then JNull
      else if String.eqb r "-0" then JNum "0" else JNum r
  | JArr elems _ =>
      JArr (List.map (fun e => match e with
                               | JUndefined => JNull
                               | _ => json_view e
                               end) elems) []
  | JObj props =>
      JObj ((fix view_of (l : list (string * JsVal)) : list (string * JsVal) :=
               match l with
               | [] => []
               | (k, x) :: r =>
                   match x with
                   | JUndefined => view_of r
                   | _ => (k, json_view x) :: view_of r
                   end
               end) props)
  | _ => v
  end.

(** The properties the JSON text of an object holds. *)
Fixpoint view_props (l : list (string * JsVal)) : list (string * JsVal) :=
  match l with
  | [] => []
  | (k, x) :: r =>
      match x with
      | JUndefined => view_props r
      | _ => (k, json_view x) :: view_props r
      end
  end.

(** An element of an array as its JSON text holds it. *)
Definition elem_view (e : JsVal) : JsVal :=
  match e with
  | JUndefined => JNull
  | _ => json_view e
  end.

(* ================================================================== *)
(** * Words for what an upload hands over *)
(* ================================================================== *)

(** The manifest read is answered with a file whose text is the JSON
    of [v]. *)
Definition manifest_holds (decode_json : string -> DecodeOutcome) (a : FetchResult)
           (v : JsVal) : Prop :=
  exists r meta content text,
    a = Responded r /\ res_ok r = true /\ res_json r = Some meta /\
    Js.get meta "content" = Ok content /\
    Js.to_string (if Js.truthy content then content else JStr "") = Ok text /\
    decode_json (Str.remove_char "010" text) = Decoded v.


(** The platform's decoding of the base64 text of
    [[{"name":"old.png"}]]. *)
Definition array_decode (s : string) : DecodeOutcome :=
  if String.eqb s "W3sibmFtZSI6Im9sZC5wbmcifV0="
  then Decoded (Js.arr [JObj [("name", JStr "old.png")]])
  else BadBase64.

(** A key that an object keeps like any other: not [__proto__], which
    an assignment hands to the prototype's setter, and not a run of
    digits, which [Object.keys] may list before the keys created
    earlier. *)
Definition ordinary_key (k : string) : Prop :=
  k <> "__proto__" /\ ~ digits k.

(* ================================================================== *)

(** * Running programs: general facts *)

(* ================================================================== *)

Section RunFacts.

Variable w : World.

Lemma run_bind {A B} (p : Prog A) (f : A -> Prog B) (h : list Event) :
  run w (bind p f) h =
  match run w p h with
  | (h', Ok a) => run w (f a) h'
  | (h', Thrown e) => (h', Thrown e)
  end.
Proof.
  revert h. induction p; intros h; simpl; auto.
Qed.

Lemma run_try_catch {A} (p : Prog A) (handler : JsError -> Prog A) (h : list Event) :
  run w (try_catch p handler) h =
  match run w p h with
  | (h', Ok a) => (h', Ok a)
  | (h', Thrown e) => run w (handler e) h'
  end.
Proof.
  revert h. induction p; intros h; simpl; auto.
Qed.

Lemma run_lift {A} (r : Result A) (h : list Event) :
  run w (lift r) h = (h, r).
Proof. destruct r; reflexivity. Qed.

Lemma run_fetch (req : Request) (h : list Event) :
  run w (fetch req) h =
  ((h ++ [EvFetch req (answer_fetch w h req)])%list,
   match answer_fetch w h req with
   | Responded r => Ok r
   | Rejected e => Thrown e
   end).
Proof. unfold fetch; simpl. destruct (answer_fetch w h req); reflexivity. Qed.

Lemma run_now_iso (h : list Event) :
  run w now_iso h = ((h ++ [EvNowIso (answer_now_iso w h)])%list, Ok (answer_now_iso w h)).
Proof. reflexivity. Qed.

End RunFacts.

(** ** Programs whose events all satisfy a property *)

Lemma only_bind {A B} (ok : Event -> Prop) (p : Prog A) (f : A -> Prog B) :
  only ok p -> (forall a, only ok (f a)) -> only ok (bind p f).
Proof.
  induction p; simpl; intros Hp Hf; auto;
    try (intros x; destruct (Hp x); split; auto);
    try (destruct Hp; split; auto).
Qed.

Lemma only_try_catch {A} (ok : Event -> Prop) (p : Prog A) (handler : JsError -> Prog A) :
  only ok p -> (forall e, only ok (handler e)) -> only ok (try_catch p handler).
Proof.
  induction p; simpl; intros Hp Hf; auto;
    try (intros x; destruct (Hp x); split; auto);
    try (destruct Hp; split; auto).
Qed.

Lemma only_lift {A} (ok : Event -> Prop) (r : Result A) : only ok (lift r).
Proof. destruct r; exact I. Qed.

Lemma only_json_of (ok : Event -> Prop) (r : Response) : only ok (json_of r).
Proof. unfold json_of; destruct (res_json r); exact I. Qed.

Lemma only_fetch (ok : Event -> Prop) (req : Request) :
  (forall r, ok (EvFetch req r)) -> only ok (fetch req).
Proof. intros H r; split; auto. destruct r; exact I. Qed.

Lemma only_run {A} (ok : Event -> Prop) (w : World) (p : Prog A) (h : list Event) :
  only ok p ->
  exists evs, fst (run w p h) = (h ++ evs)%list /\ Forall ok evs.
Proof.
  revert h. induction p; intros h Hp; simpl in *;
    try (exists []; rewrite app_nil_r; split; [reflexivity | constructor]).
  - destruct (Hp (answer_fetch w h req)) as [Hev Hk].
    destruct (H _ (h ++ [EvFetch req (answer_fetch w h req)])%list Hk) as [evs [E F]].
    exists (EvFetch req (answer_fetch w h req) :: evs).
    rewrite E, <- app_assoc. split; [reflexivity | constructor; auto].
  - destruct (Hp (answer_date_now w h)) as [Hev Hk].
    destruct (H _ (h ++ [EvDateNow (answer_date_now w h)])%list Hk) as [evs [E F]].
    exists (EvDateNow (answer_date_now w h) :: evs).
    rewrite E, <- app_assoc. split; [reflexivity | constructor; auto].
  - destruct (Hp (answer_now_iso w h)) as [Hev Hk].
    destruct (H _ (h ++ [EvNowIso (answer_now_iso w h)])%list Hk) as [evs [E F]].
    exists (EvNowIso (answer_now_iso w h) :: evs).
    rewrite E, <- app_assoc. split; [reflexivity | constructor; auto].
  - destruct (Hp (answer_random w h)) as [Hev Hk].
    destruct (H _ (h ++ [EvRandom (answer_random w h)])%list Hk) as [evs [E F]].
    exists (EvRandom (answer_random w h) :: evs).
    rewrite E, <- app_assoc. split; [reflexivity | constructor; auto].
  - destruct Hp as [Hev Hk].
    destruct (IHp (h ++ [EvSleep ms])%list Hk) as [evs [E F]].
    exists (EvSleep ms :: evs).
    rewrite E, <- app_assoc. split; [reflexivity | constructor; auto].
  - destruct Hp as [Hev Hk].
    destruct (IHp (h ++ [EvWarn label detail])%list Hk) as [evs [E F]].
    exists (EvWarn label detail :: evs).
    rewrite E, <- app_assoc. split; [reflexivity | constructor; auto].
Qed.


Lemma always_throws_run {A} (w : World) (p : Prog A) (h : list Event) :
  always_throws p -> exists e, snd (run w p h) = Thrown e.
Proof.
  revert h. induction p; intros h Hp; simpl in *; eauto; contradiction.
Qed.

Lemma always_throws_bind {A B} (p : Prog A) (f : A -> Prog B) :
  (forall a, always_throws (f a)) -> always_throws (bind p f).
Proof.
  intros Hf. induction p; simpl; auto.
Qed.

(* ================================================================== *)

(** * bumpVersion *)

(* ================================================================== *)

Lemma take_while_digits_app (a rest : string) :
  Str.all Str.is_digit a = true ->
  Str.take_while Str.is_digit (a ++ rest) = a ++ Str.take_while Str.is_digit rest.
Proof.
  induction a as [|c a IH]; simpl; intros H; [reflexivity|].
  apply andb_true_iff in H as [Hc Ha]. rewrite Hc, IH; auto.
Qed.

Lemma drop_while_digits_app (a rest : string) :
  Str.all Str.is_digit a = true ->
  Str.drop_while Str.is_digit (a ++ rest) = Str.drop_while Str.is_digit rest.
Proof.
  induction a as [|c a IH]; simpl; intros H; [reflexivity|].
  apply andb_true_iff in H as [Hc Ha]. rewrite Hc, IH; auto.
Qed.

Lemma append_empty_r (s : string) : s ++ "" = s.
Proof. induction s; simpl; congruence. Qed.

Lemma take_while_all_id (p : ascii -> bool) (s : string) :
  Str.all p s = true -> Str.take_while p s = s /\ Str.drop_while p s = "".
Proof.
  induction s as [|c s IH]; simpl; intros H; [auto|].
  apply andb_true_iff in H as [Hc Hs]. rewrite Hc.
  destruct (IH Hs) as [E1 E2]. rewrite E1, E2. auto.
Qed.

Lemma match_version_major (major : string) :
  digits major -> match_version major = Some (major, None).
Proof.
  intros [Hne Hd]. unfold match_version.
  destruct (take_while_all_id _ _ Hd) as [E1 E2]. rewrite E1, E2.
  destruct major; [congruence | reflexivity].
Qed.

Lemma match_version_major_minor (major minor : string) :
  digits major -> digits minor ->
  match_version (major ++ "." ++ minor) = Some (major, Some minor).
Proof.
  intros [Hne Hd] [Hne' Hd']. unfold match_version.
  rewrite take_while_digits_app, drop_while_digits_app by assumption.
  simpl. rewrite append_empty_r.
  destruct major; [congruence|]. simpl.
  destruct minor; [congruence|]. simpl in *. rewrite Hd'. reflexivity.
Qed.

Lemma take_drop_while (p : ascii -> bool) (s : string) :
  Str.take_while p s ++ Str.drop_while p s = s.
Proof.
  induction s as [|c s IH]; simpl; [reflexivity|].
  destruct (p c); simpl; congruence.
Qed.

Lemma take_while_all (p : ascii -> bool) (s : string) :
  Str.all p (Str.take_while p s) = true.
Proof.
  induction s as [|c s IH]; simpl; [reflexivity|].
  destruct (p c) eqn:E; simpl; [rewrite E; auto | reflexivity].
Qed.

Lemma match_version_sound (s major : string) (minor : option string) :
  match_version s = Some (major, minor) ->
  digits major /\
  match minor with
  | None => s = major
  | Some m => digits m /\ s = major ++ "." ++ m
  end.
Proof.
  unfold match_version. intros H.
  pose proof (take_drop_while Str.is_digit s) as E.
  pose proof (take_while_all Str.is_digit s) as A.
  destruct (Str.take_while Str.is_digit s) as [|c t] eqn:T; simpl in H; [discriminate|].
  destruct (Str.drop_while Str.is_digit s) as [|d r] eqn:D.
  - injection H as H1 H2. rewrite <- H1, <- H2.
    split; [split; [discriminate | exact A]|].
    rewrite append_empty_r in E. symmetry; exact E.
  - destruct (Ascii.eqb d "." && negb (Str.is_empty r) && Str.all Str.is_digit r)%bool eqn:C;
      [|discriminate].
    injection H as H1 H2. rewrite <- H1, <- H2.
    apply andb_true_iff in C as [C C3]. apply andb_true_iff in C as [C1 C2].
    apply Ascii.eqb_eq in C1. rewrite C1 in E.
    split; [split; [discriminate | exact A]|].
    split; [split; [destruct r; [discriminate | discriminate] | exact C3]|].
    symmetry; exact E.
Qed.

Lemma match_version_none (s : string) :
  ~ version_form s -> match_version s = None.
Proof.
  intros H. destruct (match_version s) as [[major minor]|] eqn:E; [|reflexivity].
  exfalso. apply H. apply match_version_sound in E as [Hm E].
  destruct minor as [m|].
  - destruct E as [Hd E]. right. exists major, m. auto.
  - left. subst. exact Hm.
Qed.

(** Within the integers a double holds exactly, [Number], [+ 1] and
    the rendering are those of the integers. *)
Lemma number_of_digits_exact (s : string) :
  Str.digits_value s <= Js.two53 ->
  Js.number_of_digits s = Js.Finite (Str.digits_value s).
Proof.
  intros H. unfold Js.number_of_digits, Js.round_to_double.
  apply Z.leb_le in H. rewrite H. reflexivity.
Qed.

Lemma number_to_string_exact (x : Z) :
  x < Js.two53 -> Js.number_to_string (Js.Finite x) = Str.to_radix 10 x.
Proof.
  intros H. unfold Js.number_to_string. apply Z.ltb_lt in H. rewrite H. reflexivity.
Qed.

Lemma add_one_exact (x : Z) :
  x + 1 <= Js.two53 -> Js.add_one (Js.Finite x) = Js.Finite (x + 1).
Proof.
  intros H. unfold Js.add_one, Js.round_to_double.
  apply Z.leb_le in H. rewrite H. reflexivity.
Qed.

Lemma bumpVersion_matched (v : JsVal) (str major : string) (minor : option string) :
  v <> JUndefined -> v <> JNull ->
  Js.to_string v = Ok str ->
  match_version (Str.trim str) = Some (major, minor) ->
  bumpVersion v =
  Ok (Js.number_to_string (Js.number_of_digits major) ++ "." ++
      Js.number_to_string
        (Js.add_one (Js.number_of_digits (match minor with Some d => d | None => "0" end)))).
Proof.
  intros Hu Hn Hs Hm.
  destruct v; try congruence; unfold bumpVersion; rewrite Hs; simpl; rewrite Hm; reflexivity.
Qed.

Lemma bumpVersion_unmatched (v : JsVal) (str : string) :
  Js.to_string v = Ok str ->
  match_version (Str.trim str) = None ->
  bumpVersion v = Ok "1.1".
Proof.
  intros Hs Hm.
  destruct v; try reflexivity; unfold bumpVersion; rewrite Hs; simpl; rewrite Hm; reflexivity.
Qed.

Lemma version_form_matches (s : string) :
  version_form s -> match_version s <> None.
Proof.
  intros [H | (major & minor & E & Hma & Hmi)].
  - rewrite match_version_major by assumption. discriminate.
  - subst. rewrite match_version_major_minor by assumption. discriminate.
Qed.

(** C6, as amended.  [bumpVersion] answers "1.1" for [undefined] and
    [null]; for any other value it looks at the string form with the
    surrounding white space trimmed: if that is [<major>] or
    [<major>.<minor>] in decimal digits, the answer is the number
    [major], a dot and the number [minor + 1] (a missing minor counts as
    0), both written in decimal without leading zeros as long as they
    stay below [2^53], where JavaScript numbers are exact; if the
    trimmed form has neither shape, the answer is "1.1".  The five
    sample values of the specification come out as stated. *)
Theorem bumpVersion_spec :
  bumpVersion JUndefined = Ok "1.1" /\
  bumpVersion JNull = Ok "1.1" /\
  (forall v str major,
      v <> JUndefined -> v <> JNull -> Js.to_string v = Ok str ->
      Str.trim str = major -> digits major ->
      Str.digits_value major < Js.two53 ->
      bumpVersion v = Ok (Str.to_radix 10 (Str.digits_value major) ++ ".1")) /\
  (forall v str major minor,
      v <> JUndefined -> v <> JNull -> Js.to_string v = Ok str ->
      Str.trim str = major ++ "." ++ minor -> digits major -> digits minor ->
      Str.digits_value major < Js.two53 ->
      Str.digits_value minor + 1 < Js.two53 ->
      bumpVersion v =
      Ok (Str.to_radix 10 (Str.digits_value major) ++ "." ++
          Str.to_radix 10 (Str.digits_value minor + 1))) /\
  (forall v str,
      Js.to_string v = Ok str -> ~ version_form (Str.trim str) ->
      bumpVersion v = Ok "1.1") /\
  (bumpVersion (JStr "1") = Ok "1.1" /\
   bumpVersion (JStr "1.0") = Ok "1.1" /\
   bumpVersion (JStr "2.1") = Ok "2.2" /\
   bumpVersion (JStr "not-a-number") = Ok "1.1" /\
   bumpVersion JUndefined = Ok "1.1").
Proof.
  split; [reflexivity|]. split; [reflexivity|].
  split; [|split; [|split]].
  - intros v str major Hu Hn Hs Ht Hd Hr.
    rewrite (bumpVersion_matched v str major None Hu Hn Hs)
      by (rewrite Ht; apply match_version_major; exact Hd).
    rewrite number_of_digits_exact by lia.
    rewrite number_to_string_exact by exact Hr.
    reflexivity.
  - intros v str major minor Hu Hn Hs Ht Hma Hmi Hr Hr'.
    rewrite (bumpVersion_matched v str major (Some minor) Hu Hn Hs)
      by (rewrite Ht; apply match_version_major_minor; assumption).
    rewrite !number_of_digits_exact by lia.
    rewrite add_one_exact by lia.
    rewrite !number_to_string_exact by assumption.
    reflexivity.
  - intros v str Hs Hf.
    apply (bumpVersion_unmatched v str Hs). apply match_version_none; exact Hf.
  - vm_compute. repeat split.
Qed.

(** The amended statement at [" 2.1 "], a string the pattern accepts
    only once trimmed. *)
Lemma bumpVersion_spec_witness :
  bumpVersion (JStr " 2.1 ") =
  Ok (Str.to_radix 10 (Str.digits_value "2") ++ "." ++
      Str.to_radix 10 (Str.digits_value "1" + 1)).
Proof.
  apply (proj1 (proj2 (proj2 (proj2 bumpVersion_spec))) (JStr " 2.1 ") " 2.1 " "2" "1").
  - discriminate.
  - discriminate.
  - reflexivity.
  - reflexivity.
  - split; [discriminate | reflexivity].
  - split; [discriminate | reflexivity].
  - vm_compute; reflexivity.
  - vm_compute; reflexivity.
Defined.

(** C6 as stated fails: " 2.1 " is a string of neither shape, and it
    is mapped to "2.2", not to "1.1". *)
Lemma bumpVersion_untrimmed_counterexample :
  ~ version_form " 2.1 " /\
  bumpVersion (JStr " 2.1 ") = Ok "2.2" /\
  bumpVersion (JStr " 2.1 ") <> Ok "1.1".
Proof.
  split; [|split].
  - intros F. apply version_form_matches in F. apply F. reflexivity.
  - vm_compute. reflexivity.
  - vm_compute. discriminate.
Qed.

(* ================================================================== *)

(** * The commit pipeline of part_001 *)

(* ================================================================== *)

Ltac only_steps :=
  repeat first
    [ exact I
    | apply only_lift
    | apply only_json_of
    | apply only_fetch; intros; reflexivity
    | apply only_bind; [| intros ]
    | match goal with
      | |- only _ (if ?b then _ else _) => destruct b
      | |- only _ (match ?x with _ => _ end) => destruct x
      end ].

Lemma only_create_blobs (api repo auth : string) (files : list (string * FileSpec))
      (keys : list string) (blobMap : list (string * JsVal)) :
  only (fun ev => is_commit_read_or_blob ev = true)
       (create_blobs api repo auth files keys blobMap).
Proof.
  revert blobMap. induction keys as [|p rest IH]; intros blobMap; cbn [create_blobs]; [exact I|].
  destruct (Js.lookup p files); [|exact I].
  only_steps. apply IH.
Qed.

(** One run of steps 1-3 reads the ref, once and first; the rest only
    reads a commit and creates blobs. *)
Lemma read_head_and_blobs_events (w : World) (api repo branch auth : string)
      (files : list (string * FileSpec)) (h : list Event) :
  exists rest,
    fst (run w (read_head_and_blobs api repo branch auth files) h) =
    (h ++ EvFetch (ref_request api repo branch auth)
                  (answer_fetch w h (ref_request api repo branch auth)) :: rest)%list /\
    Forall (fun ev => is_commit_read_or_blob ev = true) rest.
Proof.
  unfold read_head_and_blobs. fold (ref_request api repo branch auth).
  rewrite run_bind, run_fetch.
  set (a := answer_fetch w h (ref_request api repo branch auth)).
  set (h1 := (h ++ [EvFetch (ref_request api repo branch auth) a])%list).
  destruct a as [refRes | e].
  - match goal with
    | |- exists rest, fst (run w ?p h1) = _ /\ _ =>
        destruct (only_run (fun ev => is_commit_read_or_blob ev = true) w p h1) as [evs [E F]]
    end.
    { only_steps. apply only_create_blobs. }
    exists evs. split; [|exact F].
    rewrite E. unfold h1. rewrite <- app_assoc. reflexivity.
  - exists []. split; [reflexivity | constructor].
Qed.

Lemma ref_reads_app (a b : list Event) :
  ref_reads (a ++ b) = (ref_reads a + ref_reads b)%nat.
Proof. unfold ref_reads. rewrite filter_app, length_app. reflexivity. Qed.

Lemma sleeps_app (a b : list Event) : sleeps (a ++ b) = (sleeps a ++ sleeps b)%list.
Proof. unfold sleeps. apply flat_map_app. Qed.

Lemma commit_read_or_blob_quiet (ev : Event) :
  is_commit_read_or_blob ev = true ->
  is_ref_read ev = false /\ sleep_of ev = [] /\ is_write_step ev = false.
Proof.
  destruct ev as [[m a r e au b] res| | | | |]; simpl; try discriminate.
  destruct m, e; simpl; try discriminate; auto.
Qed.

Lemma quiet_events (evs : list Event) :
  Forall (fun ev => is_commit_read_or_blob ev = true) evs ->
  ref_reads evs = O /\ sleeps evs = [] /\ existsb is_write_step evs = false.
Proof.
  induction 1 as [|ev evs Hev _ IH]; [repeat split|].
  destruct (commit_read_or_blob_quiet ev Hev) as (R & S & W).
  destruct IH as (IR & IS & IW).
  unfold ref_reads, sleeps in *. simpl. rewrite R, S, W, IS, IW. simpl. auto.
Qed.

Lemma attempt_shape_counts (evs : list Event) :
  attempt_shape evs ->
  ref_reads evs = 1%nat /\ sleeps evs = [] /\ existsb is_write_step evs = false.
Proof.
  intros (ev & rest & E & R & W & F). subst.
  destruct (quiet_events rest F) as (R' & S' & W').
  unfold ref_reads, sleeps in *. simpl. rewrite R, W, W'. simpl. rewrite R', S'.
  destruct ev; simpl in *; try discriminate. auto.
Qed.

Section RetryLoop.

Variable w : World.

Variable body : Prog JsVal.

Lemma attempts_run (n : nat) (attempt : Z) (h : list Event) :
  run w (Part001.attempts (S n) attempt body) h =
  match run w body h with
  | (h1, Ok sha) => (h1, Ok sha)
  | (h1, Thrown err) =>
      if attempt <? 3
      then run w (Part001.attempts n (attempt + 1) body) (h1 ++ [EvSleep (200 * attempt)])
      else (h1, Thrown err)
  end.
Proof.
  cbn [Part001.attempts]. rewrite run_try_catch.
  destruct (run w body h) as [h1 [sha | err]]; [reflexivity|].
  destruct (attempt <? 3); reflexivity.
Qed.

(** The loop unfolded: at most three runs of the body, 200 ms after
    the first failure, 400 ms after the second, the outcome of the
    third run returned as it is. *)
Lemma attempts_unfold (h : list Event) :
  run w (Part001.attempts 3 1 body) h =
  let '(h1, r1) := run w body h in
  match r1 with
  | Ok sha => (h1, Ok sha)
  | Thrown _ =>
      let '(h2, r2) := run w body (h1 ++ [EvSleep 200]) in
      match r2 with
      | Ok sha => (h2, Ok sha)
      | Thrown _ => run w body (h2 ++ [EvSleep 400])
      end
  end.
Proof.
  rewrite attempts_run.
  destruct (run w body h) as [h1 [sha | e1]]; [reflexivity|].
  change (1 <? 3) with true. cbv iota.
  change (200 * 1) with 200. change (1 + 1) with 2.
  rewrite attempts_run.
  destruct (run w body (h1 ++ [EvSleep 200])) as [h2 [sha | e2]]; [reflexivity|].
  change (2 <? 3) with true. cbv iota.
  change (200 * 2) with 400. change (2 + 1) with 3.
  rewrite attempts_run.
  destruct (run w body (h2 ++ [EvSleep 400])) as [h3 [sha | e3]]; reflexivity.
Qed.

Hypothesis body_shape :
  forall h, exists evs, fst (run w body h) = (h ++ evs)%list /\ attempt_shape evs.

Lemma attempts_counts (h : list Event) :
  exists evs n,
    fst (run w (Part001.attempts 3 1 body) h) = (h ++ evs)%list /\
    (1 <= n <= 3)%nat /\
    ref_reads evs = n /\
    sleeps evs = firstn (n - 1) [200; 400] /\
    existsb is_write_step evs = false.
Proof.
  rewrite attempts_unfold.
  destruct (body_shape h) as (e1 & E1 & S1).
  destruct (attempt_shape_counts e1 S1) as (R1 & Z1 & W1).
  destruct (run w body h) as [h1 r1] eqn:Run1. simpl in E1. subst h1.
  destruct r1 as [sha | err1].
  { exists e1, 1%nat. simpl. repeat split; auto. }
  destruct (body_shape ((h ++ e1) ++ [EvSleep 200])%list) as (e2 & E2 & S2).
  destruct (attempt_shape_counts e2 S2) as (R2 & Z2 & W2).
  destruct (run w body ((h ++ e1) ++ [EvSleep 200])) as [h2 r2] eqn:Run2.
  simpl in E2. subst h2.
  destruct r2 as [sha | err2].
  { exists (e1 ++ [EvSleep 200] ++ e2)%list, 2%nat. simpl fst.
    rewrite !ref_reads_app, !sleeps_app, !existsb_app, R1, R2, Z1, Z2, W1, W2.
    rewrite <- !app_assoc. simpl. repeat split; auto. }
  destruct (body_shape ((((h ++ e1) ++ [EvSleep 200]) ++ e2) ++ [EvSleep 400])%list)
    as (e3 & E3 & S3).
  destruct (attempt_shape_counts e3 S3) as (R3 & Z3 & W3).
  rewrite E3.
  exists (e1 ++ [EvSleep 200] ++ e2 ++ [EvSleep 400] ++ e3)%list, 3%nat.
  rewrite !ref_reads_app, !sleeps_app, !existsb_app, R1, R2, R3, Z1, Z2, Z3, W1, W2, W3.
  rewrite <- !app_assoc. simpl. repeat split; auto.
Qed.

End RetryLoop.

Lemma always_throws_try_catch {A} (p : Prog A) (handler : JsError -> Prog A) :
  always_throws p -> (forall e, always_throws (handler e)) ->
  always_throws (try_catch p handler).
Proof.
  intros Hp Hh. induction p; simpl in *; auto; contradiction.
Qed.

Lemma attempts_always_throw (body : Prog JsVal) (n : nat) (attempt : Z) :
  always_throws body -> always_throws (Part001.attempts n attempt body).
Proof.
  intros Hb. revert attempt. induction n as [|n IH]; intros attempt; [exact I|].
  cbn [Part001.attempts]. apply always_throws_try_catch; [exact Hb|].
  intros e. destruct (attempt <? 3); simpl; auto.
Qed.

Section Pipeline001.

Variable w : World.

Variables api repo branch message token : string.

Variable files : list (string * FileSpec).

Let auth := Part001.ghHeaders token.

Let body := Part001.pipeline api repo branch files message auth.

Let cfa := Part001.commitFilesAtomically api repo branch files message token.

(** Step 4 as written stops at the first unbound identifier, before
    any request is made. *)
Lemma create_tree_commit_ref_run (parentSha baseTree : JsVal)
      (blobMap : list (string * JsVal)) (h : list Event) :
  run w (Part001.create_tree_commit_ref api repo branch auth message
                                        parentSha baseTree blobMap) h =
  (h, Thrown (ReferenceError "base_tree")).
Proof. reflexivity. Qed.

Lemma pipeline_run (h : list Event) :
  run w body h =
  match run w (read_head_and_blobs api repo branch auth files) h with
  | (h1, Ok _) => (h1, Thrown (ReferenceError "base_tree"))
  | (h1, Thrown e) => (h1, Thrown e)
  end.
Proof.
  unfold body, Part001.pipeline. rewrite run_bind.
  destruct (run w (read_head_and_blobs api repo branch auth files) h)
    as [h1 [[[parentSha baseTree] blobMap] | e]]; reflexivity.
Qed.

Lemma pipeline_always_throws : always_throws body.
Proof.
  unfold body, Part001.pipeline. apply always_throws_bind.
  intros [[parentSha baseTree] blobMap]. exact I.
Qed.

Lemma pipeline_shape (h : list Event) :
  exists evs, fst (run w body h) = (h ++ evs)%list /\ attempt_shape evs.
Proof.
  destruct (read_head_and_blobs_events w api repo branch auth files h) as (rest & E & F).
  exists (EvFetch (ref_request api repo branch auth)
                  (answer_fetch w h (ref_request api repo branch auth)) :: rest).
  split.
  - rewrite pipeline_run.
    destruct (run w (read_head_and_blobs api repo branch auth files) h) as [h1 [x | e]];
      simpl in *; exact E.
  - exists (EvFetch (ref_request api repo branch auth)
                    (answer_fetch w h (ref_request api repo branch auth))), rest.
    repeat split; auto.
Qed.

End Pipeline001.

(** C5.  [commitFilesAtomically] of part_001 runs the pipeline at most
    three times: it waits 200 ms after a failed first run and 400 ms
    after a failed second run (200 ms times the number of the failed
    attempt), and whatever the third run gives, an error included, is
    the outcome of the call.  Counted on the events of any call, the
    branch ref is read [n] times with [n] between 1 and 3 and the waits
    are the first [n - 1] of 200 and 400; the call always ends. *)
Theorem commit_attempts_bounded (w : World) (api repo branch message token : string)
        (files : list (string * FileSpec)) (h : list Event) :
  let body := Part001.pipeline api repo branch files message (Part001.ghHeaders token) in
  let cfa := Part001.commitFilesAtomically api repo branch files message token in
  run w cfa h =
    (let '(h1, r1) := run w body h in
     match r1 with
     | Ok sha => (h1, Ok sha)
     | Thrown _ =>
         let '(h2, r2) := run w body (h1 ++ [EvSleep (1 * 200)]) in
         match r2 with
         | Ok sha => (h2, Ok sha)
         | Thrown _ => run w body (h2 ++ [EvSleep (2 * 200)])
         end
     end) /\
  exists evs n,
    fst (run w cfa h) = (h ++ evs)%list /\
    (1 <= n <= 3)%nat /\
    ref_reads evs = n /\
    sleeps evs = firstn (n - 1) [1 * 200; 2 * 200].
Proof.
  intros body cfa. split.
  - apply attempts_unfold.
  - destruct (attempts_counts w body (pipeline_shape w api repo branch message token files) h)
      as (evs & n & E & Hn & R & S & _).
    exists evs, n. auto.
Qed.

(** C2.  In part_001 the request body of the tree-creation step reads
    [base_tree] and [treeEntries], which nothing defines: the step
    throws before any request, so every run of the pipeline ends in an
    error (a [ReferenceError] as soon as steps 1-3 succeed),
    [commitFilesAtomically] never returns a commit identifier, and no
    tree, commit or ref-update request is ever sent. *)
Theorem commit_never_returns (w : World) (api repo branch message token : string)
        (files : list (string * FileSpec)) (h : list Event) :
  let auth := Part001.ghHeaders token in
  let body := Part001.pipeline api repo branch files message auth in
  let cfa := Part001.commitFilesAtomically api repo branch files message token in
  (forall parentSha baseTree blobMap h',
      run w (Part001.create_tree_commit_ref api repo branch auth message
                                            parentSha baseTree blobMap) h' =
      (h', Thrown (ReferenceError "base_tree"))) /\
  (forall h' h1 x,
      run w (read_head_and_blobs api repo branch auth files) h' = (h1, Ok x) ->
      run w body h' = (h1, Thrown (ReferenceError "base_tree"))) /\
  (forall h', exists e, snd (run w body h') = Thrown e) /\
  (exists e, snd (run w cfa h) = Thrown e) /\
  (exists evs, fst (run w cfa h) = (h ++ evs)%list /\ existsb is_write_step evs = false).
Proof.
  intros auth body cfa. subst auth body cfa. repeat split.
  - intros h' h1 x Hx. rewrite pipeline_run, Hx. reflexivity.
  - intros h'. apply always_throws_run. apply pipeline_always_throws.
  - apply always_throws_run. apply attempts_always_throw. apply pipeline_always_throws.
  - destruct (attempts_counts w _ (pipeline_shape w api repo branch message token files) h)
      as (evs & n & E & _ & _ & _ & W).
    exists evs. auto.
Qed.

(** C4, as amended.  In [commitFilesAtomically] of part_001 a failed
    first or second run of the pipeline, whatever the error and
    whatever the step, is followed by a wait (200 ms, then 400 ms) and
    a new run of the whole pipeline; only the outcome of the third run
    reaches the caller. *)
Theorem retry_on_any_failure (w : World) (api repo branch message token : string)
        (files : list (string * FileSpec))
        (h h1 h2 h3 : list Event) (e1 e2 : JsError) (r3 : Result JsVal) :
  let body := Part001.pipeline api repo branch files message (Part001.ghHeaders token) in
  run w body h = (h1, Thrown e1) ->
  run w body (h1 ++ [EvSleep 200]) = (h2, Thrown e2) ->
  run w body (h2 ++ [EvSleep 400]) = (h3, r3) ->
  run w (Part001.commitFilesAtomically api repo branch files message token) h = (h3, r3).
Proof.
  intros body H1 H2 H3.
  unfold Part001.commitFilesAtomically. fold body.
  rewrite attempts_unfold, H1, H2, H3. reflexivity.
Qed.

Lemma retry_on_any_failure_witness :
  snd (run failing_remote
           (Part001.commitFilesAtomically apiBase "owner/pool" "main" [] "msg" "t") []) =
  Thrown (NetworkError "fetch failed").
Proof.
  erewrite (retry_on_any_failure failing_remote apiBase "owner/pool" "main" "msg" "t" [] []).
  - reflexivity.
  - vm_compute. reflexivity.
  - vm_compute. reflexivity.
  - vm_compute. reflexivity.
Defined.

(** C4 as stated fails: a status 500 on the first ref read is not a
    ref-update conflict, yet the call does not end with that error: it
    waits and runs the pipeline again, three runs in all. *)
Lemma retry_not_only_on_conflict_counterexample :
  let body := Part001.pipeline apiBase "owner/pool" "main" [] "msg" (Part001.ghHeaders "t") in
  let cfa := Part001.commitFilesAtomically apiBase "owner/pool" "main" [] "msg" "t" in
  exists h1 e,
    run failing_remote body [] = (h1, Thrown e) /\
    e = Error "ref fetch failed: 500 " /\
    is_ref_update_failure e = false /\
    run failing_remote cfa [] <> (h1, Thrown e) /\
    ref_reads (fst (run failing_remote cfa [])) = 3%nat /\
    sleeps (fst (run failing_remote cfa [])) = [200; 400].
Proof.
  eexists. eexists. split; [vm_compute; reflexivity|].
  split; [reflexivity|]. split; [reflexivity|].
  split; [vm_compute; discriminate|].
  split; vm_compute; reflexivity.
Qed.

(* ================================================================== *)

(** * The upload handler of part_001 *)

(* ================================================================== *)

Lemma results_run {A} (P : A -> Prop) (w : World) (p : Prog A) (h : list Event) (a : A) :
  results P p -> snd (run w p h) = Ok a -> P a.
Proof.
  revert h. induction p; intros h Hp Hr; simpl in *; eauto; congruence.
Qed.

Lemma results_bind {A B} (Q : A -> Prop) (P : B -> Prop) (p : Prog A) (f : A -> Prog B) :
  results Q p -> (forall a, Q a -> results P (f a)) -> results P (bind p f).
Proof.
  intros Hp Hf. induction p; simpl in *; auto.
Qed.

Lemma results_any {A} (p : Prog A) : results (fun _ => True) p.
Proof. induction p; simpl; auto. Qed.

Lemma always_throws_bind_l {A B} (p : Prog A) (f : A -> Prog B) :
  always_throws p -> always_throws (bind p f).
Proof.
  intros Hp. induction p; simpl in *; auto; contradiction.
Qed.

Lemma results_always_throws {A} (P : A -> Prop) (p : Prog A) :
  always_throws p -> results P p.
Proof. induction p; simpl; auto; contradiction. Qed.

Section Upload001.

Variable decode_json : string -> DecodeOutcome.

Lemma admission_failure (request : UploadRequest) (env : Env) (r : HttpResponse) :
  admission request env = inl r -> failure_status r.
Proof.
  unfold admission, failure_status.
  destruct (_ || _)%bool; [intros E; inversion E; simpl; auto|].
  destruct (negb _); [intros E; inversion E; simpl; auto|].
  destruct (form_file request); intros E; inversion E; simpl; auto.
Qed.

Lemma resolveTarget_results (env : Env) (dir finalName : string) (overwrite : bool) :
  results prepared_or_failure (Part001.resolveTarget env dir finalName overwrite).
Proof.
  unfold Part001.resolveTarget. destruct overwrite; [exact I|].
  intros [r | e]; [|exact I]. cbn [bind].
  destruct (res_ok r).
  - cbn. intros; exact I.
  - destruct (negb (res_status r =? 404)); cbn; unfold failure_status; simpl; auto.
Qed.

Lemma fetchManifest_results (env : Env) :
  results prepared_or_failure (Part001.fetchManifest decode_json env).
Proof.
  unfold Part001.fetchManifest.
  intros [r | e]; [|exact I]. cbn [bind].
  destruct (res_ok r).
  - eapply results_bind; [apply results_any|]. intros meta _.
    eapply results_bind; [apply results_any|]. intros content _.
    eapply results_bind; [apply results_any|]. intros text _.
    destruct (decode_json _); cbn; auto.
  - destruct (res_status r =? 404); cbn; unfold failure_status; simpl; auto.
Qed.

Lemma prepareUpload_results (request : UploadRequest) (env : Env) :
  results prepared_or_failure (Part001.prepareUpload decode_json request env).
Proof.
  unfold Part001.prepareUpload.
  destruct (admission request env) as [r | file] eqn:A.
  { simpl. eapply admission_failure; eauto. }
  destruct (maxBytes <? _).
  { simpl. unfold failure_status; simpl; auto. }
  eapply results_bind; [apply resolveTarget_results|].
  intros [r | [targetName safePath]] Hr; [exact Hr|].
  eapply results_bind; [apply fetchManifest_results|].
  intros [r | contentObj] Hm; [exact Hm|].
  eapply results_bind; [apply results_any|]. intros newObj _. exact I.
Qed.

(** The handler of part_001 never answers 200: whatever the remote
    does, an upload ends in an error or in one of the failure
    responses. *)
Lemma onRequestPost_never_ok (w : World) (request : UploadRequest) (env : Env)
      (h : list Event) (response : HttpResponse) :
  snd (run w (Part001.onRequestPost decode_json request env) h) = Ok response ->
  failure_status response.
Proof.
  apply results_run. unfold Part001.onRequestPost.
  eapply results_bind; [apply prepareUpload_results|].
  intros [r | p] Hp; [exact Hp|].
  apply results_always_throws. apply always_throws_bind_l.
  apply attempts_always_throw. apply pipeline_always_throws.
Qed.

End Upload001.

(** ** A sample upload against a remote that accepts every request *)

(** A well-formed upload against a remote that accepts everything.
    The change-set is prepared with the artifact and the
    manifest, but the call that should commit it ends in a
    [ReferenceError] after three runs of steps 1-3: six blobs are
    created, no tree, no commit, no ref update.  And this holds of
    every upload: the handler never answers 200. *)
Lemma upload_stops_before_commit :
  let prepared := run healthy_remote (Part001.prepareUpload no_decode photo_upload pool_env) [] in
  let out := run healthy_remote (Part001.onRequestPost no_decode photo_upload pool_env) [] in
  (exists p,
      snd prepared = Ok (inr p) /\
      List.map fst (Part001.p_filesToCommit p) = ["images/photo.png"; "content.json"] /\
      Js.lookup "images/photo.png" (Part001.p_filesToCommit p)
      = Some (mkFileSpec (B64Bytes [137; 80; 78; 71]) None)) /\
  snd out = Thrown (ReferenceError "base_tree") /\
  ref_reads (fst out) = 3%nat /\
  blob_creations (fst out) = 6%nat /\
  existsb is_write_step (fst out) = false /\
  (forall decode_json w request env h response,
      snd (run w (Part001.onRequestPost decode_json request env) h) = Ok response ->
      failure_status response).
Proof.
  intros prepared out. split; [|split; [|split; [|split; [|split]]]].
  - eexists. split; [vm_compute; reflexivity|]. split; reflexivity.
  - vm_compute. reflexivity.
  - vm_compute. reflexivity.
  - vm_compute. reflexivity.
  - vm_compute. reflexivity.
  - apply onRequestPost_never_ok.
Qed.

(** An upload named like the manifest, at the root: the two computed
    keys of the change-set coincide and only the manifest is left. *)
Lemma upload_named_like_manifest :
  let request :=
    mkUpload (Some "admin-secret") (Some "multipart/form-data")
             (Some (mkFile "content.json" "application/json" [123; 125]))
             None None (Some "true") in
  exists p doc,
    snd (run healthy_remote (Part001.prepareUpload no_decode request pool_env) [])
    = Ok (inr p) /\
    Part001.p_safePath p = "content.json" /\
    Part001.p_filesToCommit p = [("content.json", mkFileSpec (B64Json doc) None)].
Proof.
  eexists. eexists. split; [vm_compute; reflexivity|]. split; reflexivity.
Qed.

(* ================================================================== *)

(** * The ref update *)

(* ================================================================== *)

Lemma tree_commit_ref_steps (w : World) (api repo branch auth message : string)
      (parentSha base_tree : JsVal) (treeEntries : list TreeEntry) (h : list Event) :
  exists evs out,
    run w (tree_commit_ref api repo branch auth message parentSha base_tree treeEntries) h
    = ((h ++ evs)%list, out) /\
    write_steps api repo branch auth message parentSha base_tree treeEntries evs out.
Proof.
  unfold tree_commit_ref.
  rewrite run_bind, run_fetch.
  set (q1 := mkRequest POST api repo GitTrees auth (TreeBody base_tree treeEntries)).
  set (a1 := answer_fetch w h q1).
  destruct a1 as [r1 | e1] eqn:A1.
  2:{ eexists; eexists; split; [reflexivity | apply ws_tree_failed]. }
  destruct (res_ok r1) eqn:O1; cbn [negb].
  2:{ eexists; eexists; split; [reflexivity | apply ws_tree_failed]. }
  rewrite run_bind. unfold json_of at 1.
  destruct (res_json r1) as [j1|] eqn:J1.
  2:{ eexists; eexists; split; [reflexivity | apply ws_tree_failed]. }
  cbn [run]. rewrite run_bind, run_lift.
  destruct (Js.get j1 "sha") as [newTreeSha | e] eqn:G1.
  2:{ eexists; eexists; split; [reflexivity | apply ws_tree_failed]. }
  rewrite run_bind, run_fetch.
  set (q2 := mkRequest POST api repo GitCommits auth (CommitBody message newTreeSha [parentSha])).
  set (h1 := (h ++ [EvFetch q1 (Responded r1)])%list).
  set (a2 := answer_fetch w h1 q2).
  assert (E2 : forall x, ((h1 ++ [EvFetch q2 x]) = h ++ [EvFetch q1 (Responded r1); EvFetch q2 x])%list).
  { intros x. unfold h1. rewrite <- app_assoc. reflexivity. }
  destruct a2 as [r2 | e2] eqn:A2.
  2:{ rewrite E2. eexists; eexists; split; [reflexivity | apply ws_commit_failed]. }
  destruct (res_ok r2) eqn:O2; cbn [negb].
  2:{ rewrite E2. eexists; eexists; split; [reflexivity | apply ws_commit_failed]. }
  rewrite run_bind. unfold json_of at 1.
  destruct (res_json r2) as [j2|] eqn:J2.
  2:{ cbn [run]. rewrite E2. eexists; eexists; split; [reflexivity | apply ws_commit_failed]. }
  cbn [run]. rewrite run_bind, run_lift.
  destruct (Js.get j2 "sha") as [newCommitSha | e] eqn:G2.
  2:{ rewrite E2. eexists; eexists; split; [reflexivity | apply ws_commit_failed]. }
  assert (C : created (Responded r2) newCommitSha) by (exists r2, j2; auto).
  rewrite run_bind, run_fetch.
  set (q3 := mkRequest PATCH api repo (GitRefs branch) auth (RefBody newCommitSha)).
  set (h2 := (h1 ++ [EvFetch q2 (Responded r2)])%list).
  set (a3 := answer_fetch w h2 q3).
  assert (E3 : forall x, ((h2 ++ [EvFetch q3 x])
                          = h ++ [EvFetch q1 (Responded r1); EvFetch q2 (Responded r2);
                                  EvFetch q3 x])%list).
  { intros x. unfold h2, h1. rewrite <- !app_assoc. reflexivity. }
  destruct a3 as [r3 | e3] eqn:A3.
  2:{ rewrite E3. eexists; eexists; split; [reflexivity | apply ws_update_rejected; exact C]. }
  destruct (res_ok r3) eqn:O3; cbn [negb run]; rewrite E3.
  - eexists; eexists; split; [reflexivity | apply ws_updated; assumption].
  - eexists; eexists; split; [reflexivity | apply ws_update_refused; assumption].
Qed.

Lemma read_head_parent (w : World) (api repo branch auth : string)
      (files : list (string * FileSpec)) (h h1 : list Event)
      (parentSha baseTree : JsVal) (blobMap : list (string * JsVal)) :
  run w (read_head_and_blobs api repo branch auth files) h
  = (h1, Ok (parentSha, baseTree, blobMap)) ->
  observed_parent (answer_fetch w h (ref_request api repo branch auth)) parentSha.
Proof.
  unfold read_head_and_blobs. fold (ref_request api repo branch auth).
  rewrite run_bind, run_fetch.
  destruct (answer_fetch w h (ref_request api repo branch auth)) as [r | e]; [|discriminate].
  destruct (res_ok r) eqn:O; cbn [negb]; [|discriminate].
  rewrite run_bind. unfold json_of at 1.
  destruct (res_json r) as [j|] eqn:J; [|discriminate].
  cbn [run]. rewrite run_bind, run_lift.
  destruct (Js.get j "object") as [obj | e] eqn:G; [|discriminate].
  rewrite run_bind, run_lift.
  destruct (Js.get_opt obj "sha") as [p | e] eqn:G'; [|discriminate].
  destruct (Js.truthy p); cbn [negb]; [|discriminate].
  intros R.
  assert (P : fst (fst (parentSha, baseTree, blobMap)) = p).
  { eapply (results_run (fun x => fst (fst x) = p)); [| rewrite R; reflexivity].
    eapply results_bind; [apply results_any|]. intros parentText _.
    eapply results_bind; [apply results_any|]. intros commitRes _.
    destruct (negb (res_ok commitRes)); [exact I|].
    eapply results_bind; [apply results_any|]. intros commitJson _.
    eapply results_bind; [apply results_any|]. intros tree _.
    eapply results_bind; [apply results_any|]. intros base _.
    eapply results_bind; [apply results_any|]. intros m _.
    reflexivity. }
  simpl in P. subst p. exists r, j, obj. auto.
Qed.

Lemma write_steps_update (api repo branch auth message : string)
      (parentSha base_tree : JsVal) (treeEntries : list TreeEntry)
      (evs : list Event) (out : Result JsVal) :
  write_steps api repo branch auth message parentSha base_tree treeEntries evs out ->
  forall before req a after,
    evs = (before ++ EvFetch req a :: after)%list ->
    is_ref_update req = true ->
    after = [] /\
    exists newTreeSha newCommitSha a2,
      In (EvFetch (mkRequest POST api repo GitCommits auth
                             (CommitBody message newTreeSha [parentSha])) a2) before /\
      created a2 newCommitSha /\
      req = mkRequest PATCH api repo (GitRefs branch) auth (RefBody newCommitSha) /\
      out = match a with
            | Responded r =>
                if res_ok r then Ok newCommitSha
                else Thrown (Error ("ref update failed: " ++ status_text r))
            | Rejected e => Thrown e
            end.
Proof.
  intros W; destruct W; intros before req ans after E U;
    repeat (destruct before as [|? before]; simpl in E;
            [ injection E; intros; subst; try (simpl in U; discriminate)
            | injection E; clear E; intros E ?; subst ]);
    try (destruct before; discriminate).
  all: split; [reflexivity|].
  all: match goal with
       | C : created ?a2 ?c |- _ => exists newTreeSha, c, a2
       end.
  all: repeat split; simpl; auto.
  all: match goal with H : res_ok _ = _ |- _ => rewrite H; reflexivity end.
Qed.

Lemma split_after_prefix {A} (l1 l2 before after : list A) (x : A) :
  (l1 ++ l2 = before ++ x :: after)%list -> ~ In x l1 ->
  exists b2, before = (l1 ++ b2)%list /\ l2 = (b2 ++ x :: after)%list.
Proof.
  revert before. induction l1 as [|y l1 IH]; intros before E N; simpl in *.
  - exists before. auto.
  - destruct before as [|b before]; simpl in E; injection E as -> E.
    + exfalso. apply N. auto.
    + destruct (IH before E) as (b2 & -> & ->); [intros I; apply N; auto|].
      exists b2. auto.
Qed.

Lemma commit_read_or_blob_not_update (req : Request) (a : FetchResult) :
  is_commit_read_or_blob (EvFetch req a) = true -> is_ref_update req = false.
Proof.
  destruct req as [m ap r e au b].
  destruct m, e; cbn; intros H; try discriminate H; reflexivity.
Qed.

Lemma read_steps_no_update (w : World) (api repo branch auth : string)
      (files : list (string * FileSpec)) (h : list Event) :
  exists evs0,
    fst (run w (read_head_and_blobs api repo branch auth files) h) = (h ++ evs0)%list /\
    forall req a, is_ref_update req = true -> ~ In (EvFetch req a) evs0.
Proof.
  destruct (read_head_and_blobs_events w api repo branch auth files h) as (rest & E & F).
  eexists. split; [exact E|].
  intros req a U [I | I].
  - injection I as <- _. discriminate U.
  - rewrite Forall_forall in F. apply F in I.
    apply commit_read_or_blob_not_update in I. congruence.
Qed.

(** C3, as amended.  In the pipeline of part_000 the ref update is the
    last request of a run and is sent once; its body states one
    identifier only, that of the commit just created, whose single
    parent is the head read at step 1; it states no expected parent.
    The call returns that identifier exactly when the remote answers
    the update with a 2xx status, and throws "ref update failed" on any
    other status: the comparison with the current head is left to the
    remote.  In part_001 the pipeline never sends a ref update. *)
Theorem ref_update_states_new_commit_only (w : World)
        (api repo branch message token : string) (files : list (string * FileSpec))
        (h : list Event) :
  let auth := Part000.ghHeaders token in
  let ref_answer := answer_fetch w h (ref_request api repo branch auth) in
  (exists evs out,
      run w (Part000.commitFilesAtomically api repo branch files message token) h
      = ((h ++ evs)%list, out) /\
      forall before req a after,
        evs = (before ++ EvFetch req a :: after)%list ->
        is_ref_update req = true ->
        after = [] /\
        exists parentSha newTreeSha newCommitSha a2,
          observed_parent ref_answer parentSha /\
          In (EvFetch (mkRequest POST api repo GitCommits auth
                                 (CommitBody message newTreeSha [parentSha])) a2) before /\
          created a2 newCommitSha /\
          req = mkRequest PATCH api repo (GitRefs branch) auth (RefBody newCommitSha) /\
          stated_ids (req_body req) = [newCommitSha] /\
          out = match a with
                | Responded r =>
                    if res_ok r then Ok newCommitSha
                    else Thrown (Error ("ref update failed: " ++ status_text r))
                | Rejected e => Thrown e
                end) /\
  (exists evs,
      fst (run w (Part001.commitFilesAtomically api repo branch files message token) h)
      = (h ++ evs)%list /\
      forall req a, In (EvFetch req a) evs -> is_ref_update req = false).
Proof.
  intros auth ref_answer. split.
  - unfold Part000.commitFilesAtomically. fold auth. rewrite run_bind.
    destruct (read_steps_no_update w api repo branch auth files h) as (evs0 & E0 & N0).
    destruct (run w (read_head_and_blobs api repo branch auth files) h)
      as [h1 [[[parentSha baseTree] blobMap] | e]] eqn:R; simpl in E0; subst h1.
    + destruct (tree_commit_ref_steps w api repo branch auth message parentSha baseTree
                  (Part000.treeEntriesOf files blobMap) (h ++ evs0)%list)
        as (evs2 & out & E2 & W).
      exists (evs0 ++ evs2)%list, out. split; [rewrite E2, app_assoc; reflexivity|].
      intros before req a after E U.
      destruct (split_after_prefix _ _ _ _ _ E (N0 req a U)) as (b2 & -> & E').
      destruct (write_steps_update _ _ _ _ _ _ _ _ _ _ W _ _ _ _ E' U)
        as (-> & newTreeSha & newCommitSha & a2 & I & C & Q & O).
      split; [reflexivity|].
      exists parentSha, newTreeSha, newCommitSha, a2.
      repeat split; auto.
      * eapply read_head_parent; exact R.
      * apply in_or_app; auto.
      * rewrite Q; reflexivity.
    + exists evs0, (Thrown e). split; [reflexivity|].
      intros before req a after E U. exfalso.
      apply (N0 req a U). rewrite E. apply in_or_app. right. left. reflexivity.
  - destruct (attempts_counts w _ (pipeline_shape w api repo branch message token files) h)
      as (evs & n & E & _ & _ & _ & W).
    exists evs. split; [exact E|].
    intros req a I.
    destruct (is_ref_update req) eqn:U; [|reflexivity].
    assert (X : existsb is_write_step evs = true).
    { apply existsb_exists. exists (EvFetch req a). split; [exact I|].
      unfold is_ref_update in U. simpl. destruct (req_endpoint req); auto; discriminate. }
    congruence.
Qed.

(** C3 as stated fails: in a run where the head read at step 1 is
    "p0", the update request that succeeds states the new commit "c1"
    and nothing else; the observed parent is not in it. *)
Lemma ref_update_omits_parent_counterexample :
  let files := [("a.txt", mkFileSpec (B64Bytes [104; 105]) None)] in
  let out := run accepting_remote
                 (Part000.commitFilesAtomically apiBase "owner/pool" "main" files "msg" "t") [] in
  exists before update r,
    fst out = (before ++ [EvFetch update (Responded r)])%list /\
    observed_parent (answer_fetch accepting_remote []
                       (ref_request apiBase "owner/pool" "main" (Part000.ghHeaders "t")))
                    (JStr "p0") /\
    req_method update = PATCH /\
    req_endpoint update = GitRefs "main" /\
    req_body update = RefBody (JStr "c1") /\
    res_ok r = true /\
    snd out = Ok (JStr "c1") /\
    ~ In (JStr "p0") (stated_ids (req_body update)).
Proof.
  intros files out.
  exists (removelast (fst out)),
         (mkRequest PATCH apiBase "owner/pool" (GitRefs "main") (Part000.ghHeaders "t")
                    (RefBody (JStr "c1"))),
         (mkResponse 200 "" (Some (JObj [("ref", JStr "refs/heads/main")]))).
  split; [vm_compute; reflexivity|].
  split; [eexists; eexists; eexists; repeat split; reflexivity|].
  repeat split; try reflexivity.
  simpl. intros [E | []]. discriminate E.
Qed.

(* ================================================================== *)

(** * The manifest update *)

(* ================================================================== *)

Lemma lookup_set_same {A} (k : string) (v : A) (l : list (string * A)) :
  Js.lookup k (Js.set k v l) = Some v.
Proof.
  induction l as [|[k' v'] l IH]; simpl.
  - rewrite String.eqb_refl. reflexivity.
  - destruct (String.eqb k k') eqn:E; simpl.
    + rewrite String.eqb_refl. reflexivity.
    + rewrite E. exact IH.
Qed.

Lemma lookup_set_other {A} (k k' : string) (v : A) (l : list (string * A)) :
  String.eqb k k' = false ->
  Js.lookup k (Js.set k' v l) = Js.lookup k l.
Proof.
  intros N. induction l as [|[k0 v0] l IH]; simpl.
  - rewrite N. reflexivity.
  - destruct (String.eqb k' k0) eqn:E; simpl.
    + apply String.eqb_eq in E. subst k0. rewrite N. reflexivity.
    + destruct (String.eqb k k0); auto.
Qed.

Lemma appendEntry_object (w : World) (props : list (string * JsVal))
      (dir targetName fileType : string) (h : list Event) :
  let t1 := answer_now_iso w h in
  let t2 := answer_now_iso w (h ++ [EvNowIso t1]) in
  let entry := fileEntry (normDirOf dir) targetName fileType t1 in
  run w (appendEntry (JObj props) dir targetName fileType) h =
  match Js.unshift entry (files_before props), bumpVersion (version_before props) with
  | Ok files, Ok v =>
      ((h ++ [EvNowIso t1; EvNowIso t2])%list,
       Ok (JObj (Js.set "generated_at" (JStr t2)
                (Js.set "version" (JStr v)
                   (Js.set "files" files (with_files_array props))))))
  | Ok files, Thrown e => ((h ++ [EvNowIso t1])%list, Thrown e)
  | Thrown e, _ => ((h ++ [EvNowIso t1])%list, Thrown e)
  end.
Proof.
  intros t1 t2 entry. unfold appendEntry.
  rewrite run_bind, run_now_iso. fold t1. fold entry.
  rewrite run_bind, run_lift. cbn [Js.get].
  assert (F : exists elems named, files_before props = JArr elems named).
  { unfold files_before. destruct (Js.lookup "files" props) as [[]|]; unfold Js.arr; eauto. }
  destruct F as (elems & named & F). rewrite F. cbn [Js.unshift].
  assert (G : Js.lookup "files" (with_files_array props) = Some (JArr elems named)).
  { unfold with_files_array, files_before in *.
    destruct (Js.lookup "files" props) as [[]|] eqn:L;
      try (rewrite lookup_set_same; exact (f_equal Some F)).
    rewrite L. exact (f_equal Some F). }
  assert (C1 : forall (B : Type) (k : JsVal -> Prog B),
             run w (bind (if Js.is_array
                               match Js.lookup "files" props with
                               | Some x => x
                               | None => JUndefined
                               end
                          then Ret (JObj props)
                          else lift (Js.put (JObj props) "files" (Js.arr []))) k)
                 (h ++ [EvNowIso t1])
             = run w (k (JObj (with_files_array props))) (h ++ [EvNowIso t1])).
  { intros B k. unfold with_files_array.
    destruct (Js.lookup "files" props) as [[]|]; reflexivity. }
  rewrite C1.
  rewrite run_bind, run_lift. cbn [Js.get]. rewrite G.
  rewrite run_bind, run_lift. cbn [Js.unshift].
  rewrite run_bind, run_lift. cbn [Js.put].
  rewrite run_bind, run_lift. cbn [Js.get].
  rewrite lookup_set_other by reflexivity.
  assert (V : match Js.lookup "version" (with_files_array props) with
              | Some x => x
              | None => JUndefined
              end = version_before props).
  { unfold version_before, with_files_array.
    destruct (Js.lookup "files" props) as [[]|];
      try rewrite lookup_set_other by reflexivity; reflexivity. }
  rewrite V.
  rewrite run_bind, run_lift.
  destruct (bumpVersion (version_before props)) as [v | e]; [|reflexivity].
  rewrite run_bind, run_lift. cbn [Js.put].
  rewrite run_bind, run_now_iso. fold t2.
  rewrite run_lift. cbn [Js.put].
  rewrite <- app_assoc. reflexivity.
Qed.

Lemma not_found_not_ok (r : Response) : res_status r = 404 -> res_ok r = false.
Proof. intros E. unfold res_ok. rewrite E. reflexivity. Qed.

Lemma appendEntry_default (w : World) (t0 dir targetName fileType : string) (h : list Event) :
  let t1 := answer_now_iso w h in
  let t2 := answer_now_iso w (h ++ [EvNowIso t1]) in
  run w (appendEntry (defaultManifest t0) dir targetName fileType) h =
  ((h ++ [EvNowIso t1; EvNowIso t2])%list,
   Ok (JObj [("version", JStr "1.1");
             ("generated_at", JStr t2);
             ("files", Js.arr [fileEntry (normDirOf dir) targetName fileType t1])])).
Proof.
  intros t1 t2. unfold defaultManifest. rewrite appendEntry_object. reflexivity.
Qed.

Lemma fetchManifest_default (decode_json : string -> DecodeOutcome) (w : World) (env : Env)
      (h : list Event) :
  let a := answer_fetch w h (manifest_request env) in
  manifest_absent a \/ manifest_unparsable decode_json a ->
  let h1 := (h ++ [EvFetch (manifest_request env) a])%list in
  let t0 := answer_now_iso w h1 in
  run w (Part001.fetchManifest decode_json env) h
  = ((h1 ++ [EvNowIso t0])%list, Ok (inr (defaultManifest t0))).
Proof.
  intros a H h1 t0.
  unfold Part001.fetchManifest. fold (manifest_request env).
  rewrite run_bind, run_fetch. fold a. fold h1.
  destruct H as [(r & E & S) | (r & meta & content & text & E & O & J & G & T & D)];
    rewrite E.
  - rewrite (not_found_not_ok r S), S. reflexivity.
  - rewrite O. rewrite run_bind. unfold json_of. rewrite J. cbn [run].
    rewrite run_bind, run_lift, G.
    rewrite run_bind, run_lift, T.
    rewrite D. reflexivity.
Qed.

(** C7, as amended.  When the manifest read is answered 404, or is
    answered with a document whose text [JSON.parse] rejects, the
    handler of part_001 goes on with the fresh document
    [{version: 1, generated_at: now, files: []}] and returns no error;
    appending the entry and bumping the version on that document give
    version "1.1", the new entry as the only file, and a new
    [generated_at]. *)
Theorem manifest_fallback (decode_json : string -> DecodeOutcome) (w : World) (env : Env)
        (dir targetName fileType : string) (h : list Event) :
  let a := answer_fetch w h (manifest_request env) in
  manifest_absent a \/ manifest_unparsable decode_json a ->
  let h1 := (h ++ [EvFetch (manifest_request env) a])%list in
  let t0 := answer_now_iso w h1 in
  run w (Part001.fetchManifest decode_json env) h
  = ((h1 ++ [EvNowIso t0])%list, Ok (inr (defaultManifest t0))) /\
  forall h2,
    let t1 := answer_now_iso w h2 in
    let t2 := answer_now_iso w (h2 ++ [EvNowIso t1]) in
    run w (appendEntry (defaultManifest t0) dir targetName fileType) h2 =
    ((h2 ++ [EvNowIso t1; EvNowIso t2])%list,
     Ok (JObj [("version", JStr "1.1");
               ("generated_at", JStr t2);
               ("files", Js.arr [fileEntry (normDirOf dir) targetName fileType t1])])).
Proof.
  intros a H h1 t0. split; [|intros h2; apply appendEntry_default].
  apply fetchManifest_default. exact H.
Qed.

Lemma manifest_fallback_witness :
  let w := scripted [contents_answer "bm90IGpzb24="] clock_ms clock_iso "0.4fzyo82mvyr" in
  run w (Part001.fetchManifest sample_decode pool_env) []
  = ([EvFetch (manifest_request pool_env) (contents_answer "bm90IGpzb24=");
      EvNowIso clock_iso],
     Ok (inr (defaultManifest clock_iso))).
Proof.
  intros w.
  apply (proj1 (manifest_fallback sample_decode w pool_env "images" "photo.png" "image/png" []
    (or_intror
       (ex_intro _ _ (ex_intro _ _ (ex_intro _ _ (ex_intro _ _
          (conj eq_refl (conj eq_refl (conj eq_refl (conj eq_refl (conj eq_refl eq_refl)))))))))))).
Defined.

(** C7 as stated fails: the manifest [{"version":"7.3","files":"oops"}]
    does not have the expected structure, yet the handler goes on with
    it, not with the fresh document: the version becomes "7.4", where
    the fresh document would give "1.1". *)
Lemma manifest_wrong_shape_counterexample :
  let text := "eyJ2ZXJzaW9uIjoiNy4zIiwiZmlsZXMiOiJvb3BzIn0=" in
  let w := scripted [contents_answer text] clock_ms clock_iso "0.4fzyo82mvyr" in
  exists v doc,
    sample_decode text = Decoded v /\
    is_manifest v = false /\
    snd (run w (Part001.fetchManifest sample_decode pool_env) []) = Ok (inr v) /\
    v <> defaultManifest clock_iso /\
    snd (run w (appendEntry v "images" "photo.png" "image/png") []) = Ok doc /\
    Js.get doc "version" = Ok (JStr "7.4") /\
    Js.get doc "version" <> Ok (JStr "1.1").
Proof.
  intros text w. eexists. eexists.
  split; [reflexivity|]. split; [reflexivity|].
  split; [vm_compute; reflexivity|].
  split; [discriminate|].
  split; [vm_compute; reflexivity|].
  split; [reflexivity | discriminate].
Qed.

(** A manifest whose text is [null] parses, and reading [files] of it
    throws: the upload ends in a [TypeError]. *)
Lemma manifest_null_throws :
  let w := scripted [not_found; contents_answer "bnVsbA=="] clock_ms clock_iso "0.4fzyo82mvyr" in
  exists e,
    snd (run w (Part001.prepareUpload sample_decode photo_upload pool_env) [])
    = Thrown (TypeError e).
Proof.
  intros w. eexists. vm_compute. reflexivity.
Qed.

Lemma prepare_photo_on_empty (decode_json : string -> DecodeOutcome) (w : World)
      (fileType : string) (h : list Event) (r1 r2 : Response) :
  let probe := probe_request pool_env "images/photo.png" in
  let h1 := (h ++ [EvFetch probe (Responded r1)])%list in
  let h2 := (h1 ++ [EvFetch (manifest_request pool_env) (Responded r2)])%list in
  let t0 := answer_now_iso w h2 in
  let t1 := answer_now_iso w (h2 ++ [EvNowIso t0]) in
  let t2 := answer_now_iso w (h2 ++ [EvNowIso t0; EvNowIso t1]) in
  answer_fetch w h probe = Responded r1 -> res_status r1 = 404 ->
  answer_fetch w h1 (manifest_request pool_env) = Responded r2 -> res_status r2 = 404 ->
  run w (Part001.prepareUpload decode_json (photo_upload_of fileType) pool_env) h =
  ((h2 ++ [EvNowIso t0; EvNowIso t1; EvNowIso t2])%list,
   Ok (inr (Part001.mkPrepared
              "photo.png" "images/photo.png"
              [("images/photo.png", mkFileSpec (B64Bytes [137; 80; 78; 71]) None);
               ("content.json",
                mkFileSpec
                  (B64Json
                     (JObj [("version", JStr "1.1");
                            ("generated_at", JStr t2);
                            ("files",
                             Js.arr [JObj [("dir", JStr "/images");
                                           ("name", JStr "photo.png");
                                           ("path", JStr "/images/photo.png");
                                           ("type", if Str.is_empty fileType
                                                    then JNull else JStr fileType);
                                           ("description", JStr "");
                                           ("uploaded_at", JStr t1)]])]))
                  None)]))).
Proof.
  intros probe h1 h2 t0 t1 t2 A1 S1 A2 S2.
  unfold Part001.prepareUpload.
  change (admission (photo_upload_of fileType) pool_env)
    with (@inr HttpResponse _ (mkFile "photo.png" fileType [137; 80; 78; 71])).
  cbv iota beta.
  change (maxBytes <? _) with false. cbv iota.
  change (dirOf (photo_upload_of fileType)) with "images".
  change (overwriteOf (photo_upload_of fileType)) with false.
  change (finalNameOf _ _) with "photo.png".
  rewrite run_bind.
  unfold Part001.resolveTarget.
  change (join_path "images" "photo.png") with "images/photo.png".
  fold (probe_request pool_env "images/photo.png"). fold probe.
  rewrite run_bind, run_fetch, A1. fold h1.
  rewrite (not_found_not_ok r1 S1), S1. cbn [negb Z.eqb run Pos.eqb].
  rewrite run_bind.
  assert (F := fetchManifest_default decode_json w pool_env h1).
  cbv zeta in F. rewrite A2 in F.
  specialize (F (or_introl (ex_intro _ r2 (conj eq_refl S2)))). fold h2 in F. fold t0 in F. rewrite F.
  rewrite run_bind, appendEntry_default.
  rewrite <- !app_assoc. reflexivity.
Qed.

(* ================================================================== *)

(** * The unique prefix and the path resolver *)

(* ================================================================== *)

Lemma append_assoc (a b c : string) : (a ++ b) ++ c = a ++ (b ++ c).
Proof. induction a; simpl; congruence. Qed.

Lemma length_append (a b : string) :
  String.length (a ++ b) = (String.length a + String.length b)%nat.
Proof. induction a; simpl; congruence. Qed.

Lemma append_cancel_l (a b c : string) : a ++ b = a ++ c -> b = c.
Proof. induction a; simpl; intros E; [exact E | injection E; auto]. Qed.

Lemma append_cancel_r (a b c : string) : a ++ c = b ++ c -> a = b.
Proof.
  revert b. induction a as [|x a IH]; intros [|y b] E; simpl in E.
  - reflexivity.
  - apply (f_equal String.length) in E. simpl in E. rewrite length_append in E. lia.
  - apply (f_equal String.length) in E. simpl in E. rewrite length_append in E. lia.
  - injection E as -> E. f_equal. apply IH. exact E.
Qed.

Lemma append_last_inj (a b : string) (x y : ascii) :
  a ++ String x "" = b ++ String y "" -> a = b /\ x = y.
Proof.
  revert b. induction a as [|c a IH]; intros [|d b] E; simpl in E.
  - injection E as ->. auto.
  - injection E as -> E. destruct b; discriminate.
  - injection E as -> E. destruct a; discriminate.
  - injection E as -> E. destruct (IH b E) as [-> ->]. auto.
Qed.

Lemma contains_char_append (c : ascii) (a b : string) :
  Str.contains_char c (a ++ b) = (Str.contains_char c a || Str.contains_char c b)%bool.
Proof.
  induction a as [|d a IH]; simpl; [reflexivity|].
  rewrite IH. apply orb_assoc.
Qed.

(** The first occurrence of a character that neither prefix contains
    splits two equal strings alike. *)
Lemma split_at_first (c : ascii) (t1 t2 x y : string) :
  Str.contains_char c t1 = false -> Str.contains_char c t2 = false ->
  t1 ++ String c x = t2 ++ String c y -> t1 = t2 /\ x = y.
Proof.
  revert t2. induction t1 as [|a t1 IH]; intros [|b t2] N1 N2 E; simpl in *.
  - injection E as ->. auto.
  - injection E as -> _. rewrite Ascii.eqb_refl in N2. discriminate.
  - injection E as -> _. rewrite Ascii.eqb_refl in N1. discriminate.
  - injection E as -> E.
    apply orb_false_iff in N1 as [_ N1]. apply orb_false_iff in N2 as [_ N2].
    destruct (IH t2 N1 N2 E) as [-> ->]. auto.
Qed.

(** ** Digits in a radix *)

Lemma radix_digits_spec (f : nat) (b n : Z) (acc : string) :
  Str.radix_digits f b n acc = digits_spec f b n ++ acc.
Proof.
  revert n acc. induction f as [|f IH]; intros n acc; simpl; [reflexivity|].
  destruct (n / b =? 0); [reflexivity|].
  rewrite IH, append_assoc. reflexivity.
Qed.

Lemma to_radix_spec (b n : Z) :
  Str.to_radix b n = digits_spec (S (Z.to_nat (Z.log2 n))) b n.
Proof.
  unfold Str.to_radix. rewrite radix_digits_spec. apply append_empty_r.
Qed.

Lemma digit_char_code (d : Z) :
  0 <= d < 36 ->
  nat_of_ascii (Str.digit_char d) = Z.to_nat (if d <? 10 then 48 + d else 87 + d).
Proof.
  intros H. unfold Str.digit_char.
  destruct (d <? 10) eqn:E; apply nat_ascii_embedding; lia.
Qed.

Lemma digit_char_inj (d1 d2 : Z) :
  0 <= d1 < 36 -> 0 <= d2 < 36 ->
  Str.digit_char d1 = Str.digit_char d2 -> d1 = d2.
Proof.
  intros H1 H2 E. apply (f_equal nat_of_ascii) in E.
  rewrite !digit_char_code in E by assumption.
  destruct (d1 <? 10) eqn:E1, (d2 <? 10) eqn:E2; lia.
Qed.

Lemma digit_char_not_dash (d : Z) :
  0 <= d < 36 -> Ascii.eqb "-" (Str.digit_char d) = false.
Proof.
  intros H. apply Ascii.eqb_neq. intros E.
  apply (f_equal nat_of_ascii) in E. rewrite digit_char_code in E by assumption.
  change (nat_of_ascii "-") with 45%nat in E.
  destruct (d <? 10) eqn:E1; lia.
Qed.

Lemma digits_spec_no_dash (f : nat) (n : Z) :
  0 <= n -> Str.contains_char "-" (digits_spec f 36 n) = false.
Proof.
  revert n. induction f as [|f IH]; intros n H; cbn [digits_spec]; [reflexivity|].
  assert (M : 0 <= n mod 36 < 36) by (apply Z.mod_pos_bound; lia).
  destruct (n / 36 =? 0).
  - cbn [Str.contains_char]. rewrite digit_char_not_dash by exact M. reflexivity.
  - rewrite contains_char_append, IH by (apply Z.div_pos; lia).
    cbn [Str.contains_char]. rewrite digit_char_not_dash by exact M. reflexivity.
Qed.

Lemma digits_spec_nonempty (f : nat) (b n : Z) :
  digits_spec (S f) b n <> "".
Proof.
  simpl. destruct (n / b =? 0); [discriminate|].
  destruct (digits_spec f b (n / b)); discriminate.
Qed.

Lemma digits_spec_inj (f1 f2 : nat) (n1 n2 : Z) :
  0 <= n1 < 2 ^ Z.of_nat f1 -> 0 <= n2 < 2 ^ Z.of_nat f2 ->
  (1 <= f1)%nat -> (1 <= f2)%nat ->
  digits_spec f1 36 n1 = digits_spec f2 36 n2 -> n1 = n2.
Proof.
  revert f2 n1 n2. induction f1 as [|f1 IH]; intros f2 n1 n2 B1 B2 P1 P2 E; [lia|].
  destruct f2 as [|f2]; [lia|].
  assert (M1 : 0 <= n1 mod 36 < 36) by (apply Z.mod_pos_bound; lia).
  assert (M2 : 0 <= n2 mod 36 < 36) by (apply Z.mod_pos_bound; lia).
  assert (D1 : n1 = 36 * (n1 / 36) + n1 mod 36) by (apply Z.div_mod; lia).
  assert (D2 : n2 = 36 * (n2 / 36) + n2 mod 36) by (apply Z.div_mod; lia).
  assert (Q1 : 0 <= n1 / 36 < 2 ^ Z.of_nat f1).
  { split; [apply Z.div_pos; lia|].
    rewrite Nat2Z.inj_succ, Z.pow_succ_r in B1 by lia.
    apply Z.div_lt_upper_bound; lia. }
  assert (Q2 : 0 <= n2 / 36 < 2 ^ Z.of_nat f2).
  { split; [apply Z.div_pos; lia|].
    rewrite Nat2Z.inj_succ, Z.pow_succ_r in B2 by lia.
    apply Z.div_lt_upper_bound; lia. }
  simpl in E.
  destruct (n1 / 36 =? 0) eqn:Z1, (n2 / 36 =? 0) eqn:Z2.
  - injection E as E. apply digit_char_inj in E; try assumption.
    apply Z.eqb_eq in Z1, Z2. lia.
  - exfalso. apply Z.eqb_neq in Z2.
    destruct f2 as [|f2]; [simpl in Q2; lia|].
    pose proof (digits_spec_nonempty f2 36 (n2 / 36)) as N.
    remember (digits_spec (S f2) 36 (n2 / 36)) as X eqn:HX. clear HX.
    apply (f_equal String.length) in E. rewrite length_append in E.
    destruct X; [congruence | simpl in E; lia].
  - exfalso. apply Z.eqb_neq in Z1.
    destruct f1 as [|f1]; [simpl in Q1; lia|].
    pose proof (digits_spec_nonempty f1 36 (n1 / 36)) as N.
    remember (digits_spec (S f1) 36 (n1 / 36)) as X eqn:HX. clear HX.
    apply (f_equal String.length) in E. rewrite length_append in E.
    destruct X; [congruence | simpl in E; lia].
  - apply append_last_inj in E as [E Ed].
    apply digit_char_inj in Ed; try assumption.
    apply Z.eqb_neq in Z1, Z2.
    assert (F1 : (1 <= f1)%nat) by (destruct f1; [simpl in Q1; lia | lia]).
    assert (F2 : (1 <= f2)%nat) by (destruct f2; [simpl in Q2; lia | lia]).
    pose proof (IH f2 (n1 / 36) (n2 / 36) Q1 Q2 F1 F2 E). lia.
Qed.

Lemma log2_fuel (n : Z) : 0 <= n -> 0 <= n < 2 ^ Z.of_nat (S (Z.to_nat (Z.log2 n))).
Proof.
  intros H. split; [exact H|].
  rewrite Nat2Z.inj_succ, Z2Nat.id by apply Z.log2_nonneg.
  destruct (Z.eq_dec n 0) as [-> | N]; [reflexivity|].
  apply Z.log2_spec. lia.
Qed.

(** Distinct clock readings have distinct base-36 renderings. *)
Lemma to_string36_inj (n1 n2 : Z) :
  0 <= n1 -> 0 <= n2 -> to_string36 n1 = to_string36 n2 -> n1 = n2.
Proof.
  intros H1 H2. unfold to_string36.
  destruct (n1 <? 0) eqn:L1; [apply Z.ltb_lt in L1; lia|].
  destruct (n2 <? 0) eqn:L2; [apply Z.ltb_lt in L2; lia|].
  rewrite !to_radix_spec.
  apply digits_spec_inj; try apply log2_fuel; try assumption; lia.
Qed.

Lemma to_string36_no_dash (n : Z) :
  0 <= n -> Str.contains_char "-" (to_string36 n) = false.
Proof.
  intros H. unfold to_string36.
  destruct (n <? 0) eqn:L; [apply Z.ltb_lt in L; lia|].
  rewrite to_radix_spec. apply digits_spec_no_dash. exact H.
Qed.

Lemma take_length (n : nat) (s : string) : (String.length (Str.take n s) <= n)%nat.
Proof.
  revert s. induction n as [|n IH]; intros s; simpl; [lia|].
  destruct s; simpl; [lia|]. specialize (IH s). lia.
Qed.

Lemma join_path_inj (dir a b : string) : join_path dir a = join_path dir b -> a = b.
Proof.
  unfold join_path. destruct (Str.is_empty dir); [auto|].
  intros E. apply append_cancel_l in E. apply (append_cancel_l "/") in E. exact E.
Qed.

Lemma uniqueName_differs (now : Z) (rnd finalName : string) :
  uniqueName now rnd finalName <> finalName.
Proof.
  intros E. apply (f_equal String.length) in E.
  unfold uniqueName in E. rewrite !length_append in E. simpl in E. lia.
Qed.

Lemma uniqueName_inj (now1 now2 : Z) (rnd1 rnd2 finalName : string) :
  0 <= now1 -> 0 <= now2 ->
  uniqueName now1 rnd1 finalName = uniqueName now2 rnd2 finalName ->
  now1 = now2 /\ random_part rnd1 = random_part rnd2.
Proof.
  intros H1 H2 E. unfold uniqueName in E.
  apply append_cancel_r in E.
  apply split_at_first in E; try (apply to_string36_no_dash; assumption).
  destruct E as [E1 E2]. split; [apply to_string36_inj; assumption | exact E2].
Qed.

Lemma run_uniquePrefix (w : World) (h : list Event) :
  let now := answer_date_now w h in
  let rnd := answer_random w (h ++ [EvDateNow now]) in
  run w uniquePrefix h =
  ((h ++ [EvDateNow now; EvRandom rnd])%list,
   Ok (to_string36 now ++ "-" ++ random_part rnd)).
Proof.
  intros now rnd. unfold uniquePrefix. simpl. rewrite <- app_assoc. reflexivity.
Qed.

(** C9, as amended.  Without overwrite the resolver of part_001 probes
    [dir/filename]: on 404 it keeps that path; when the object exists
    it yields [dir/<prefix>-<filename>], a different path, where the
    prefix is the clock in base 36, "-", and at most four characters
    of a random number's base-36 rendering.  Two such paths for one
    file name differ whenever the clock readings or the random
    characters differ. *)
Theorem resolve_target_spec (w : World) (env : Env) (dir finalName : string)
        (h : list Event) :
  let probe := probe_request env (join_path dir finalName) in
  let a := answer_fetch w h probe in
  let h1 := (h ++ [EvFetch probe a])%list in
  let now := answer_date_now w h1 in
  let rnd := answer_random w (h1 ++ [EvDateNow now]) in
  (forall r, a = Responded r -> res_ok r = true ->
     run w (Part001.resolveTarget env dir finalName false) h
     = ((h1 ++ [EvDateNow now; EvRandom rnd])%list,
        Ok (inr (uniqueName now rnd finalName,
                 join_path dir (uniqueName now rnd finalName)))) /\
     join_path dir (uniqueName now rnd finalName) <> join_path dir finalName /\
     (String.length (random_part rnd) <= 4)%nat) /\
  (forall r, a = Responded r -> res_status r = 404 ->
     run w (Part001.resolveTarget env dir finalName false) h
     = (h1, Ok (inr (finalName, join_path dir finalName)))) /\
  (forall now1 now2 rnd1 rnd2,
     0 <= now1 -> 0 <= now2 ->
     now1 <> now2 \/ random_part rnd1 <> random_part rnd2 ->
     join_path dir (uniqueName now1 rnd1 finalName)
     <> join_path dir (uniqueName now2 rnd2 finalName)).
Proof.
  intros probe a h1 now rnd. split; [|split].
  - intros r E O. split; [|split].
    + unfold Part001.resolveTarget. fold (probe_request env (join_path dir finalName)).
      fold probe. rewrite run_bind, run_fetch. fold a. fold h1. rewrite E, O.
      rewrite run_bind, run_uniquePrefix. reflexivity.
    + intros J. apply join_path_inj in J. exact (uniqueName_differs _ _ _ J).
    + apply take_length.
  - intros r E S.
    unfold Part001.resolveTarget. fold (probe_request env (join_path dir finalName)).
    fold probe. rewrite run_bind, run_fetch. fold a. fold h1. rewrite E.
    rewrite (not_found_not_ok r S), S. reflexivity.
  - intros now1 now2 rnd1 rnd2 H1 H2 D J.
    apply join_path_inj in J. apply uniqueName_inj in J; try assumption.
    destruct J as [J1 J2]. destruct D; contradiction.
Qed.

(** The amended statement on an existing "images/photo.png": two
    requests a millisecond apart get two different paths. *)
Lemma resolve_target_spec_witness :
  join_path "images" (uniqueName clock_ms "0.4fzyo82mvyr" "photo.png")
  <> join_path "images" (uniqueName (clock_ms + 1) "0.4fzyo82mvyr" "photo.png") /\
  run (scripted [respond 200 (JObj [("sha", JStr "a0")])] clock_ms clock_iso "0.4fzyo82mvyr")
      (Part001.resolveTarget pool_env "images" "photo.png" false) []
  = ([EvFetch (probe_request pool_env "images/photo.png")
              (respond 200 (JObj [("sha", JStr "a0")]));
      EvDateNow clock_ms; EvRandom "0.4fzyo82mvyr"],
     Ok (inr (uniqueName clock_ms "0.4fzyo82mvyr" "photo.png",
              join_path "images" (uniqueName clock_ms "0.4fzyo82mvyr" "photo.png")))).
Proof.
  pose (w := scripted [respond 200 (JObj [("sha", JStr "a0")])] clock_ms clock_iso "0.4fzyo82mvyr").
  pose proof (resolve_target_spec w pool_env "images" "photo.png" []) as T.
  cbv zeta in T. destruct T as (T1 & _ & T3).
  split.
  - apply T3; [vm_compute; discriminate | vm_compute; discriminate | left; vm_compute; discriminate].
  - destruct (T1 _ eq_refl eq_refl) as (R & _ & _). exact R.
Defined.

(** C9 as stated fails: with the object present, two requests that
    read the same clock value and draw the random number 0.5 (written
    "0.i" in base 36) are given the same path, and the random part of
    the prefix has one character, not four. *)
Lemma unique_path_collision_counterexample :
  let exists_answer := respond 200 (JObj [("sha", JStr "a0")]) in
  let w := scripted [exists_answer; exists_answer] clock_ms clock_iso "0.i" in
  let first := run w (Part001.resolveTarget pool_env "images" "photo.png" false) [] in
  let second := run w (Part001.resolveTarget pool_env "images" "photo.png" false) (fst first) in
  snd first = Ok (inr ("m5d4ruo0-i-photo.png", "images/m5d4ruo0-i-photo.png")) /\
  snd second = snd first /\
  random_part "0.i" = "i" /\
  String.length (random_part "0.i") <> 4%nat.
Proof.
  repeat split; try (vm_compute; reflexivity).
  vm_compute. discriminate.
Qed.

(* ================================================================== *)

(** * part_000: the manifest update left running *)

(* ================================================================== *)



Lemma only_now_iso (ok : Event -> Prop) : (forall t, ok (EvNowIso t)) -> only ok now_iso.
Proof. intros H t. split; [apply H | exact I]. Qed.

Lemma only_appendEntry (ok : Event -> Prop) (contentObj : JsVal)
      (dir targetName fileType : string) :
  (forall t, ok (EvNowIso t)) -> only ok (appendEntry contentObj dir targetName fileType).
Proof.
  intros H. unfold appendEntry.
  repeat first
    [ apply only_lift
    | apply only_now_iso; exact H
    | apply only_bind; [| intros ]
    | match goal with |- only _ (if ?b then _ else _) => destruct b end
    | exact I ].
Qed.

Section Task000.

Variable decode_json : string -> DecodeOutcome.



End Task000.

Lemma forall_false_nil {A} (l : list A) : Forall (fun _ => False) l -> l = [].
Proof. destruct 1; [reflexivity | contradiction]. Qed.

(** A program that performs no effect leaves the history as it is. *)
Lemma silent_run {A} (w : World) (p : Prog A) (h : list Event) :
  only (fun _ => False) p -> fst (run w p h) = h.
Proof.
  intros H. destruct (only_run _ w p h H) as (evs & E & F).
  apply forall_false_nil in F. subst evs. rewrite app_nil_r in E. exact E.
Qed.

Section Handler000.

Variable decode_json : string -> DecodeOutcome.

Variable w : World.

Variable env : Env.




End Handler000.


Section TaskWrites.

Variable decode_json : string -> DecodeOutcome.

Variable w : World.

Variable env : Env.


End TaskWrites.



(* ================================================================== *)

(** * Further runs of the statements above *)

(* ================================================================== *)

(** C2 on the remote that accepts everything: steps 1-3 succeed, and
    the run ends at step 4. *)
Lemma commit_never_returns_witness :
  let files := [("a.txt", mkFileSpec (B64Bytes [104; 105]) None)] in
  run accepting_remote
      (Part001.pipeline apiBase "owner/pool" "main" files "msg" (Part001.ghHeaders "t")) []
  = (fst (run accepting_remote
              (read_head_and_blobs apiBase "owner/pool" "main" (Part001.ghHeaders "t") files) []),
     Thrown (ReferenceError "base_tree")).
Proof.
  intros files.
  apply (proj1 (proj2 (commit_never_returns accepting_remote apiBase "owner/pool" "main"
                                            "msg" "t" files []))
               [] _ (JStr "p0", JStr "t0", [("a.txt", JStr "b1")])).
  vm_compute. reflexivity.
Defined.

(** C3, as amended, on the same remote: the one
    update sent states "c1", child of the observed head "p0", and its
    2xx answer makes "c1" the result. *)
Lemma ref_update_states_new_commit_only_witness :
  let files := [("a.txt", mkFileSpec (B64Bytes [104; 105]) None)] in
  let auth := Part000.ghHeaders "t" in
  exists parentSha newTreeSha newCommitSha a2 before,
    observed_parent (answer_fetch accepting_remote [] (ref_request apiBase "owner/pool" "main" auth))
                    parentSha /\
    In (EvFetch (mkRequest POST apiBase "owner/pool" GitCommits auth
                           (CommitBody "msg" newTreeSha [parentSha])) a2) before /\
    created a2 newCommitSha /\
    newCommitSha = JStr "c1" /\
    snd (run accepting_remote
             (Part000.commitFilesAtomically apiBase "owner/pool" "main" files "msg" "t") [])
    = Ok newCommitSha.
Proof.
  intros files auth.
  destruct (proj1 (ref_update_states_new_commit_only accepting_remote apiBase "owner/pool"
                     "main" "msg" "t" files []))
    as (evs & out & R & H).
  pose (all := fst (run accepting_remote
                        (Part000.commitFilesAtomically apiBase "owner/pool" "main" files "msg" "t")
                        [])).
  assert (E : evs = all) by (unfold all; rewrite R; reflexivity).
  assert (O : out = Ok (JStr "c1")).
  { apply (f_equal snd) in R. simpl in R. rewrite <- R. vm_compute. reflexivity. }
  assert (S : evs = (removelast all
                     ++ EvFetch (mkRequest PATCH apiBase "owner/pool" (GitRefs "main") auth
                                           (RefBody (JStr "c1")))
                                (respond 200 (JObj [("ref", JStr "refs/heads/main")])) :: [])%list).
  { rewrite E. vm_compute. reflexivity. }
  destruct (H _ _ _ _ S eq_refl)
    as (_ & parentSha & newTreeSha & newCommitSha & a2 & P & I & C & Q & _ & O').
  exists parentSha, newTreeSha, newCommitSha, a2, (removelast all).
  injection Q as Q. subst newCommitSha.
  repeat split; auto.
Defined.

(** Values outside the integers a double holds exactly, and values
    that are not strings. *)
Example bumpVersion_samples :
  bumpVersion (JNum "1") = Ok "1.1" /\
  bumpVersion (JStr "007.09") = Ok "7.10" /\
  bumpVersion (JStr "9007199254740993") = Ok "9007199254740992.1" /\
  bumpVersion (JStr "18446744073709551616") = Ok "18446744073709552000.1" /\
  bumpVersion (JStr "1000000000000000000000") = Ok "1e+21.1" /\
  bumpVersion (JStr "123456789012345678901234567890.9007199254740992")
  = Ok "1.2345678901234568e+29.9007199254740992" /\
  bumpVersion (JStr "99999999999999991611392") = Ok "1e+23.1" /\
  bumpVersion (JArr [JArr [JStr "2.1"] []] []) = Ok "2.2" /\
  bumpVersion (JBool true) = Ok "1.1" /\
  bumpVersion (JObj [("toString", JNum "1")])
  = Thrown (TypeError "Cannot convert object to primitive value").
Proof. vm_compute. repeat split. Qed.

(* ================================================================== *)
(** * Sanitized names and directories *)
(* ================================================================== *)

Lemma all_map (p : ascii -> bool) (f : ascii -> ascii) (s : string) :
  (forall c, p (f c) = true) -> Str.all p (Str.map f s) = true.
Proof. intros H. induction s; simpl; [reflexivity | rewrite H, IHs; reflexivity]. Qed.

Lemma all_drop_while (p q : ascii -> bool) (s : string) :
  Str.all p s = true -> Str.all p (Str.drop_while q s) = true.
Proof.
  induction s as [|c s IH]; simpl; intros H; [reflexivity|].
  apply andb_true_iff in H as [Hc Hs].
  destruct (q c); [auto | simpl; rewrite Hc, Hs; reflexivity].
Qed.

Lemma all_take (p : ascii -> bool) (n : nat) (s : string) :
  Str.all p s = true -> Str.all p (Str.take n s) = true.
Proof.
  revert s. induction n as [|n IH]; intros [|c s] H; simpl; try reflexivity.
  simpl in H. apply andb_true_iff in H as [Hc Hs]. rewrite Hc, IH; auto.
Qed.

Lemma all_append (p : ascii -> bool) (a b : string) :
  Str.all p (a ++ b) = (Str.all p a && Str.all p b)%bool.
Proof. induction a; simpl; [reflexivity | rewrite IHa, andb_assoc; reflexivity]. Qed.

Lemma all_not_contains (p : ascii -> bool) (c : ascii) (s : string) :
  Str.all p s = true -> p c = false -> Str.contains_char c s = false.
Proof.
  intros H N. induction s as [|d s IH]; simpl; [reflexivity|].
  simpl in H. apply andb_true_iff in H as [Hd Hs]. rewrite (IH Hs).
  destruct (Ascii.eqb c d) eqn:E; [|reflexivity].
  apply Ascii.eqb_eq in E. subst d. congruence.
Qed.

Lemma map_id_on (keep : ascii -> bool) (s : string) :
  Str.all keep s = true -> replace_unless keep s = s.
Proof.
  unfold replace_unless. induction s as [|c s IH]; simpl; intros H; [reflexivity|].
  apply andb_true_iff in H as [Hc Hs]. rewrite Hc, IH; auto.
Qed.

Lemma take_all (n : nat) (s : string) :
  (String.length s <= n)%nat -> Str.take n s = s.
Proof.
  revert s. induction n as [|n IH]; intros [|c s] H; simpl in *; try reflexivity; [lia|].
  rewrite IH; [reflexivity | lia].
Qed.

Lemma drop_while_head (p : ascii -> bool) (s : string) :
  head_fails p (Str.drop_while p s).
Proof.
  induction s as [|c s IH]; simpl; [exact I|].
  destruct (p c) eqn:E; [exact IH | exact E].
Qed.

Lemma drop_while_id (p : ascii -> bool) (s : string) :
  head_fails p s -> Str.drop_while p s = s.
Proof. destruct s as [|c s]; simpl; [reflexivity | intros ->; reflexivity]. Qed.

Lemma rev_onto_app (s acc : string) : Str.rev_onto s acc = Str.rev s ++ acc.
Proof.
  unfold Str.rev. revert acc. induction s as [|c s IH]; intros acc; simpl; [reflexivity|].
  rewrite IH, (IH (String c "")), append_assoc. reflexivity.
Qed.

Lemma rev_cons (c : ascii) (s : string) : Str.rev (String c s) = Str.rev s ++ String c "".
Proof. unfold Str.rev at 1. simpl. apply rev_onto_app. Qed.

Lemma rev_app (a b : string) : Str.rev (a ++ b) = Str.rev b ++ Str.rev a.
Proof.
  induction a as [|c a IH]; simpl.
  - rewrite append_empty_r. reflexivity.
  - rewrite !rev_cons, IH, append_assoc. reflexivity.
Qed.

Lemma rev_involutive (s : string) : Str.rev (Str.rev s) = s.
Proof.
  induction s as [|c s IH]; [reflexivity|].
  rewrite rev_cons, rev_app, IH. reflexivity.
Qed.

Lemma all_rev (p : ascii -> bool) (s : string) : Str.all p (Str.rev s) = Str.all p s.
Proof.
  induction s as [|c s IH]; [reflexivity|].
  rewrite rev_cons, all_append, IH. simpl. rewrite andb_true_r, andb_comm. reflexivity.
Qed.

Lemma drop_while_end_last (p : ascii -> bool) (s : string) :
  last_fails p (Str.drop_while_end p s).
Proof.
  unfold last_fails, Str.drop_while_end. rewrite rev_involutive. apply drop_while_head.
Qed.

Lemma drop_while_end_id (p : ascii -> bool) (s : string) :
  last_fails p s -> Str.drop_while_end p s = s.
Proof.
  unfold last_fails, Str.drop_while_end. intros H.
  rewrite drop_while_id by exact H. apply rev_involutive.
Qed.

Lemma all_drop_while_end (p q : ascii -> bool) (s : string) :
  Str.all p s = true -> Str.all p (Str.drop_while_end q s) = true.
Proof.
  intros H. unfold Str.drop_while_end.
  rewrite all_rev. apply all_drop_while. rewrite all_rev. exact H.
Qed.

(** Removing what fails at the end keeps a head that fails. *)
Lemma drop_while_end_head (p : ascii -> bool) (s : string) :
  head_fails p s -> head_fails p (Str.drop_while_end p s).
Proof.
  destruct s as [|c s]; [intros _; exact I|]. simpl. intros Hc.
  unfold Str.drop_while_end. rewrite rev_cons.
  assert (G : forall t, exists u, Str.drop_while p (t ++ String c "") = u ++ String c "").
  { induction t as [|d t IH]; simpl.
    - rewrite Hc. exists "". reflexivity.
    - destruct (p d); [exact IH|]. exists (String d t). reflexivity. }
  destruct (G (Str.rev s)) as [u ->].
  rewrite rev_app. simpl. exact Hc.
Qed.

Lemma last_fails_nonempty_app (p : ascii -> bool) (s : string) (c : ascii) :
  last_fails p (s ++ String c "") -> p c = false.
Proof. unfold last_fails. rewrite rev_app. simpl. auto. Qed.

Lemma filename_char_underscore : filename_char "_" = true.
Proof. reflexivity. Qed.

Lemma dir_char_underscore : dir_char "_" = true.
Proof. reflexivity. Qed.

Lemma replace_unless_all (keep : ascii -> bool) (s : string) :
  keep "_"%char = true -> Str.all keep (replace_unless keep s) = true.
Proof.
  intros K. unfold replace_unless. apply all_map.
  intros c. destruct (keep c) eqn:E; [exact E | exact K].
Qed.

Lemma sanitizeFilename_facts (s : string) :
  sanitizeFilename s <> "" /\
  (String.length (sanitizeFilename s) <= 180)%nat /\
  Str.all filename_char (sanitizeFilename s) = true /\
  head_fails (is_char "_") (sanitizeFilename s).
Proof.
  unfold sanitizeFilename.
  set (t := Str.take 180 (Str.drop_while (is_char "_") (replace_unless filename_char s))).
  assert (A : Str.all filename_char t = true).
  { apply all_take, all_drop_while, replace_unless_all. reflexivity. }
  assert (L : (String.length t <= 180)%nat) by apply take_length.
  assert (H : head_fails (is_char "_") t).
  { unfold t. pose proof (drop_while_head (is_char "_") (replace_unless filename_char s)) as D.
    destruct (Str.drop_while (is_char "_") (replace_unless filename_char s)); simpl; auto. }
  destruct t as [|c t'] eqn:T; cbn [Str.is_empty].
  - repeat split; try reflexivity; [discriminate | simpl; lia].
  - repeat split; try assumption. discriminate.
Qed.

Lemma sanitizeDirAllowEmpty_facts (s : string) :
  Str.all dir_char (sanitizeDirAllowEmpty s) = true /\
  head_fails (is_char "/") (sanitizeDirAllowEmpty s) /\
  last_fails (is_char "/") (sanitizeDirAllowEmpty s).
Proof.
  unfold sanitizeDirAllowEmpty.
  set (t := Str.drop_while (is_char "/") (replace_unless dir_char s)).
  split; [|split].
  - apply all_drop_while_end, all_drop_while, replace_unless_all. reflexivity.
  - apply drop_while_end_head. apply drop_while_head.
  - apply drop_while_end_last.
Qed.

Lemma sanitizeDir_facts (s : string) :
  sanitizeDir s <> "" /\
  Str.all dir_char (sanitizeDir s) = true /\
  head_fails (is_char "/") (sanitizeDir s) /\
  last_fails (is_char "/") (sanitizeDir s).
Proof.
  unfold sanitizeDir. fold (sanitizeDirAllowEmpty s).
  destruct (sanitizeDirAllowEmpty_facts s) as (A & H & L).
  destruct (sanitizeDirAllowEmpty s) eqn:E; cbn [Str.is_empty].
  - repeat split; try reflexivity. discriminate.
  - repeat split; try assumption. discriminate.
Qed.

(** X1.  [sanitizeFilename] always gives a usable name: not empty, at
    most 180 characters, made of letters, digits, ".", "_" and "-"
    only (so without "/"), and not starting with "_". *)
Theorem sanitizeFilename_safe (s : string) :
  let r := sanitizeFilename s in
  r <> "" /\
  (String.length r <= 180)%nat /\
  Str.all filename_char r = true /\
  Str.contains_char "/" r = false /\
  head_fails (is_char "_") r.
Proof.
  intros r. subst r. destruct (sanitizeFilename_facts s) as (N & L & A & H).
  repeat split; try assumption.
  apply (all_not_contains filename_char); [exact A | reflexivity].
Qed.

(** X2.  Sanitizing a sanitized name changes nothing. *)
Theorem sanitizeFilename_idempotent (s : string) :
  sanitizeFilename (sanitizeFilename s) = sanitizeFilename s.
Proof.
  destruct (sanitizeFilename_facts s) as (N & L & A & H).
  set (r := sanitizeFilename s) in *.
  unfold sanitizeFilename at 1.
  rewrite (map_id_on _ _ A), (drop_while_id _ _ H), (take_all _ _ L).
  destruct r; [congruence | reflexivity].
Qed.

(** X3.  [sanitizeDirAllowEmpty] gives a relative directory: letters,
    digits, "/", "_" and "-" only (so no "." and no ".." segment), no
    "/" at either end; the empty directory is allowed; and sanitizing
    again changes nothing. *)
Theorem sanitizeDirAllowEmpty_safe (s : string) :
  let r := sanitizeDirAllowEmpty s in
  Str.all dir_char r = true /\
  Str.contains_char "." r = false /\
  head_fails (is_char "/") r /\
  last_fails (is_char "/") r /\
  sanitizeDirAllowEmpty "" = "" /\
  sanitizeDirAllowEmpty r = r.
Proof.
  intros r. subst r. destruct (sanitizeDirAllowEmpty_facts s) as (A & H & L).
  repeat split; try assumption.
  - apply (all_not_contains dir_char); [exact A | reflexivity].
  - unfold sanitizeDirAllowEmpty at 1.
    rewrite (map_id_on _ _ A), (drop_while_id _ _ H), (drop_while_end_id _ _ L). reflexivity.
Qed.

(** X4.  [sanitizeDir] of src/api/upload.ts is [sanitizeDirAllowEmpty]
    with "uploads" in place of the empty directory: its result is never
    empty, has the same character set, and no "/" at either end. *)
Theorem sanitizeDir_safe (s : string) :
  let r := sanitizeDir s in
  r = (if Str.is_empty (sanitizeDirAllowEmpty s) then "uploads" else sanitizeDirAllowEmpty s) /\
  r <> "" /\
  Str.all dir_char r = true /\
  head_fails (is_char "/") r /\
  last_fails (is_char "/") r.
Proof.
  intros r. subst r. split; [reflexivity|]. apply sanitizeDir_facts.
Qed.

(* ================================================================== *)
(** * The final name and the path *)
(* ================================================================== *)

Lemma append_nonempty_l (a b : string) : a <> "" -> a ++ b <> "".
Proof. destruct a; [congruence | discriminate]. Qed.

(** X5.  The final name is never empty.  It is made of the allowed
    characters exactly when the sanitized name has a dot or the
    extension of the uploaded file's own name is made of them: without
    a dot in the sanitized name, that extension is appended as it
    is, and a "/" in it reaches the final name. *)
Theorem finalName_charset (orig customFilename : string) :
  let safe := sanitizeFilename (if Str.is_empty customFilename then orig else customFilename) in
  let ext := if Str.contains_char "." orig then Str.after_last "." orig else "" in
  finalNameOf orig customFilename <> "" /\
  (Str.all filename_char (finalNameOf orig customFilename) = true <->
   Str.contains_char "." safe = true \/ Str.all filename_char ext = true) /\
  (Str.contains_char "." safe = false -> Str.contains_char "/" ext = true ->
   Str.contains_char "/" (finalNameOf orig customFilename) = true).
Proof.
  intros safe ext.
  destruct (sanitizeFilename_facts (if Str.is_empty customFilename then orig else customFilename))
    as (N & _ & A & _). fold safe in N, A.
  unfold finalNameOf. fold safe. fold ext.
  destruct (Str.contains_char "." safe) eqn:D.
  - split; [exact N|]. split; [|discriminate].
    split; [auto | intros _; exact A].
  - destruct (Str.is_empty ext) eqn:E.
    + destruct ext; [|discriminate]. split; [exact N|]. split; [|discriminate].
      split; [auto | intros _; exact A].
    + split; [apply append_nonempty_l; exact N|]. split.
      * rewrite !all_append, A. simpl.
        split; [intros H; right; exact H | intros [H | H]; [discriminate | exact H]].
      * intros _ S. rewrite !contains_char_append, S. simpl. apply orb_true_r.
Qed.

(** The appended extension escapes the sanitizer: file "x.a/b" sent
    under the name "photo". *)
Lemma finalName_charset_witness :
  Str.contains_char "/" (finalNameOf "x.a/b" "photo") = true /\
  finalNameOf "x.a/b" "photo" = "photo.a/b".
Proof.
  split; [|reflexivity].
  apply (proj2 (proj2 (finalName_charset "x.a/b" "photo"))); reflexivity.
Defined.

Lemma filename_char_not_slash (s : string) :
  Str.all filename_char s = true -> head_fails (is_char "/") s.
Proof.
  destruct s as [|c s]; cbn [head_fails Str.all]; [auto|]. intros H.
  apply andb_true_iff in H as [Hc _]. unfold is_char.
  destruct (Ascii.eqb "/" c) eqn:E; [|reflexivity].
  apply Ascii.eqb_eq in E. subst c. discriminate Hc.
Qed.

Lemma head_fails_app (p : ascii -> bool) (a b : string) :
  a <> "" -> head_fails p a -> head_fails p (a ++ b).
Proof. destruct a; [congruence | simpl; auto]. Qed.

Lemma rev_nonempty (s : string) : s <> "" -> Str.rev s <> "".
Proof.
  destruct s as [|c s]; [congruence|]. intros _. rewrite rev_cons.
  destruct (Str.rev s); discriminate.
Qed.

(** X6.  With a sanitized directory and a non-empty name made of the
    allowed characters, the path sent to the remote is not empty and
    has no "/" at either end. *)
Theorem safePath_no_edge_slash (dirRaw name : string) :
  Str.all filename_char name = true -> name <> "" ->
  let safePath := join_path (sanitizeDirAllowEmpty dirRaw) name in
  safePath <> "" /\
  head_fails (is_char "/") safePath /\
  last_fails (is_char "/") safePath.
Proof.
  intros A N safePath. subst safePath.
  destruct (sanitizeDirAllowEmpty_facts dirRaw) as (_ & H & _).
  assert (Hn : head_fails (is_char "/") name) by (apply filename_char_not_slash; exact A).
  assert (Ln : last_fails (is_char "/") name).
  { unfold last_fails. apply filename_char_not_slash. rewrite all_rev. exact A. }
  unfold join_path.
  destruct (sanitizeDirAllowEmpty dirRaw) as [|c d] eqn:E; cbn [Str.is_empty].
  - auto.
  - split; [discriminate|]. split; [exact H|].
    unfold last_fails. rewrite !rev_app.
    apply head_fails_app; [apply append_nonempty_l, rev_nonempty; exact N|].
    apply head_fails_app; [apply rev_nonempty; exact N | exact Ln].
Qed.

Lemma safePath_no_edge_slash_witness :
  let safePath := join_path (sanitizeDirAllowEmpty "/images//2025/") "photo.png" in
  safePath = "images//2025/photo.png" /\
  head_fails (is_char "/") safePath /\
  last_fails (is_char "/") safePath.
Proof.
  intros safePath. split; [reflexivity|].
  apply (safePath_no_edge_slash "/images//2025/" "photo.png"); [reflexivity | discriminate].
Defined.

(* ================================================================== *)
(** * Rejections, and what part_001 sends *)
(* ================================================================== *)

Lemma unauthorized_admission (request : UploadRequest) (env : Env) :
  unauthorized request env ->
  admission request env = inl (json (JObj [("error", JStr "Unauthorized")]) 401).
Proof.
  unfold unauthorized, admission.
  destruct (hdr_admin_token request) as [[|c t]|]; cbn [or_else Str.is_empty orb].
  - reflexivity.
  - intros [E | N]; [discriminate E|].
    destruct (String.eqb (String c t) (ADMIN_TOKEN env)) eqn:E; [|reflexivity].
    apply String.eqb_eq in E. contradiction.
  - reflexivity.
Qed.

(** X8.  A request without the admin token, with an empty one or with
    a wrong one is answered 401 by every handler before anything is
    sent to the remote or read from the clock, and the first handler
    of part_000 starts no task. *)
Theorem unauthorized_no_effect (decode_json : string -> DecodeOutcome) (w : World)
        (request : UploadRequest) (env : Env) (h : list Event) :
  unauthorized request env ->
  let response := json (JObj [("error", JStr "Unauthorized")]) 401 in
  run w (Part001.onRequestPost decode_json request env) h = (h, Ok response) /\
  run w (Part000.onRequestPost decode_json request env) h = (h, Ok (response, None)) /\
  run w (Part000b.onRequestPost request env) h = (h, Ok response) /\
  run w (UploadTs.onRequestPost request env) h = (h, Ok response).
Proof.
  intros U response. apply unauthorized_admission in U.
  unfold Part001.onRequestPost, Part001.prepareUpload, Part000.onRequestPost,
    Part000b.onRequestPost, UploadTs.onRequestPost.
  rewrite U. repeat split.
Qed.

(** An empty token against an empty [ADMIN_TOKEN]: still 401. *)
Lemma unauthorized_no_effect_witness :
  let env := mkEnv "gh-token" "nagito-hiroshima/pool" None "" None in
  let request := mkUpload (Some "") (Some "multipart/form-data") None None None None in
  run healthy_remote (Part001.onRequestPost no_decode request env) []
  = ([], Ok (json (JObj [("error", JStr "Unauthorized")]) 401)).
Proof.
  intros env request.
  destruct (unauthorized_no_effect no_decode healthy_remote request env []) as (R & _).
  - left. reflexivity.
  - exact R.
Defined.

(** X9.  A file of more than 20 MiB is answered 413 by every handler
    before anything is sent to the remote; the handler of
    src/api/upload.ts has read the clock and a random number by
    then. *)
Theorem oversize_no_effect (decode_json : string -> DecodeOutcome) (w : World)
        (request : UploadRequest) (env : Env) (file : UploadFile) (h : list Event) :
  admission request env = inr file ->
  20 * 1024 * 1024 < Z.of_nat (List.length (file_bytes file)) ->
  run w (Part001.onRequestPost decode_json request env) h = (h, Ok tooLarge) /\
  run w (Part000.onRequestPost decode_json request env) h = (h, Ok (tooLarge, None)) /\
  run w (Part000b.onRequestPost request env) h = (h, Ok tooLarge) /\
  (exists t now rnd,
      run w (UploadTs.onRequestPost request env) h
      = ((h ++ [EvNowIso t; EvDateNow now; EvRandom rnd])%list, Ok tooLarge)) /\
  http_status tooLarge = 413.
Proof.
  intros A S.
  unfold Part001.onRequestPost, Part001.prepareUpload, Part000.onRequestPost,
    Part000b.onRequestPost, UploadTs.onRequestPost.
  rewrite A. cbv iota beta.
  assert (L : (maxBytes <? Z.of_nat (List.length (file_bytes file))) = true).
  { apply Z.ltb_lt. exact S. }
  rewrite L. split; [reflexivity|]. split; [reflexivity|]. split; [reflexivity|].
  split; [|reflexivity].
  rewrite run_bind, run_now_iso, run_bind, run_uniquePrefix. cbv zeta. cbn [run].
  eexists. eexists. eexists. rewrite <- app_assoc. reflexivity.
Qed.

Lemma oversize_no_effect_witness :
  let file := mkFile "big.bin" "" (List.repeat 0 (Z.to_nat 20971521)) in
  let request := mkUpload (Some "admin-secret") (Some "multipart/form-data")
                          (Some file) None None None in
  run healthy_remote (Part001.onRequestPost no_decode request pool_env) [] = ([], Ok tooLarge).
Proof.
  intros file request.
  destruct (oversize_no_effect no_decode healthy_remote request pool_env file []) as (R & _).
  - reflexivity.
  - unfold file. cbn [file_bytes]. rewrite repeat_length, Z2Nat.id; lia.
  - exact R.
Defined.

Ltac harmless_steps :=
  repeat first
    [ exact I
    | apply only_lift
    | apply only_json_of
    | apply only_now_iso; intros; exact I
    | apply only_appendEntry; intros; exact I
    | apply only_fetch; intros; simpl; auto
    | apply only_bind; [| intros ]
    | match goal with
      | |- only _ (if ?b then _ else _) => destruct b
      | |- only _ (match ?x with _ => _ end) => destruct x
      end ].

Lemma harmless_create_blobs (api repo auth : string) (files : list (string * FileSpec))
      (keys : list string) (blobMap : list (string * JsVal)) :
  only reads_or_blobs (create_blobs api repo auth files keys blobMap).
Proof.
  revert blobMap. induction keys as [|p rest IH]; intros blobMap; cbn [create_blobs]; [exact I|].
  destruct (Js.lookup p files); [|exact I].
  harmless_steps. apply IH.
Qed.

Lemma harmless_attempts (body : Prog JsVal) (n : nat) (attempt : Z) :
  only reads_or_blobs body -> only reads_or_blobs (Part001.attempts n attempt body).
Proof.
  intros Hb. revert attempt. induction n as [|n IH]; intros attempt; [exact I|].
  cbn [Part001.attempts]. apply only_try_catch; [exact Hb|].
  intros e. destruct (attempt <? 3); simpl; auto.
Qed.

Lemma harmless_uniquePrefix : only reads_or_blobs uniquePrefix.
Proof. unfold uniquePrefix. simpl. auto. Qed.

Lemma onRequestPost001_harmless (decode_json : string -> DecodeOutcome)
      (request : UploadRequest) (env : Env) :
  only reads_or_blobs (Part001.onRequestPost decode_json request env).
Proof.
  unfold Part001.onRequestPost. apply only_bind.
  - unfold Part001.prepareUpload.
    destruct (admission request env); [exact I|].
    destruct (maxBytes <? _); [exact I|].
    apply only_bind.
    + unfold Part001.resolveTarget. destruct (overwriteOf request); [exact I|].
      apply only_bind; [apply only_fetch; intros; simpl; auto|]. intros checkRes.
      destruct (res_ok checkRes).
      * apply only_bind; [apply harmless_uniquePrefix | intros; exact I].
      * destruct (negb _); exact I.
    + intros [failure | [targetName safePath]]; [exact I|].
      apply only_bind.
      * unfold Part001.fetchManifest. harmless_steps.
      * intros [failure | contentObj]; [exact I|]. harmless_steps.
  - intros [response | p]; [exact I|].
    apply only_bind; [|intros; exact I].
    unfold Part001.commitFilesAtomically. apply harmless_attempts.
    unfold Part001.pipeline. apply only_bind.
    + unfold read_head_and_blobs. harmless_steps. apply harmless_create_blobs.
    + intros [[parentSha baseTree] blobMap]. exact I.
Qed.

(** X10.  Whatever the request and whatever the remote answers, the
    handler of part_001 changes nothing on the branch: every request
    it sends is a [GET] or the creation of a blob. *)
Theorem part001_never_writes (decode_json : string -> DecodeOutcome) (w : World)
        (request : UploadRequest) (env : Env) (h : list Event) :
  exists evs,
    fst (run w (Part001.onRequestPost decode_json request env) h) = (h ++ evs)%list /\
    Forall reads_or_blobs evs.
Proof.
  apply only_run. apply onRequestPost001_harmless.
Qed.

(* ================================================================== *)
(** * CORS headers and base64 *)
(* ================================================================== *)

Lemma header_get_set_same (name value : string) (hs : list (string * string)) :
  header_get name (header_set name value hs) = Some value.
Proof. apply lookup_set_same. Qed.

Lemma header_get_set_other (name name' value : string) (hs : list (string * string)) :
  String.eqb (Str.to_lower name) (Str.to_lower name') = false ->
  header_get name (header_set name' value hs) = header_get name hs.
Proof. apply lookup_set_other. Qed.

(** X11.  [cors] leaves the status and the body of a response as they
    are, always sets the three fixed headers, and keeps every other
    header of the response except [Access-Control-Allow-Origin]; the
    preflight answer is 204 without a body. *)
Theorem cors_keeps_response (env : Env) (res : FullResponse) (origin_header : option string) :
  let out := cors env res origin_header in
  full_status out = full_status res /\
  full_body out = full_body res /\
  header_get "Access-Control-Allow-Methods" (full_headers out) = Some "POST, OPTIONS" /\
  header_get "Access-Control-Allow-Headers" (full_headers out)
  = Some "Content-Type, X-Admin-Token" /\
  header_get "Vary" (full_headers out) = Some "Origin" /\
  (forall name,
      ~ In (Str.to_lower name)
           ["access-control-allow-methods"; "access-control-allow-headers"; "vary";
            "access-control-allow-origin"] ->
      header_get name (full_headers out) = header_get name (full_headers res)) /\
  full_status (onRequestOptions env origin_header) = 204 /\
  full_body (onRequestOptions env origin_header) = None.
Proof.
  intros out. subst out. unfold cors. cbn [full_status full_body full_headers].
  split; [reflexivity|]. split; [reflexivity|].
  destruct (origin_allowed env (or_else origin_header "")).
  - repeat split.
    + rewrite !header_get_set_other by reflexivity. apply header_get_set_same.
    + rewrite !header_get_set_other by reflexivity. apply header_get_set_same.
    + rewrite header_get_set_other by reflexivity. apply header_get_set_same.
    + intros name N. simpl in N.
      rewrite !header_get_set_other; [reflexivity| | | |];
        apply String.eqb_neq; intros E; apply N; rewrite E; simpl; auto.
  - repeat split.
    + rewrite !header_get_set_other by reflexivity. apply header_get_set_same.
    + rewrite header_get_set_other by reflexivity. apply header_get_set_same.
    + apply header_get_set_same.
    + intros name N. simpl in N.
      rewrite !header_get_set_other; [reflexivity| | |];
        apply String.eqb_neq; intros E; apply N; rewrite E; simpl; auto.
Qed.

Lemma existsb_eqb_In (x : string) (l : list string) :
  existsb (String.eqb x) l = true <-> In x l.
Proof.
  rewrite existsb_exists. split.
  - intros (y & I & E). apply String.eqb_eq in E. subst y. exact I.
  - intros I. exists x. split; [exact I | apply String.eqb_refl].
Qed.

(** X12.  On a response that does not name an allowed origin yet,
    [cors] sets [Access-Control-Allow-Origin] to the caller's origin
    (empty when the request has none) exactly when [ALLOWED_ORIGINS] is
    "*" or lists that origin between commas, white space around an
    item aside; otherwise the header stays absent, as it always does
    when [ALLOWED_ORIGINS] is not set. *)
Theorem cors_allow_origin (env : Env) (res : FullResponse) (origin_header : option string) :
  header_get "Access-Control-Allow-Origin" (full_headers res) = None ->
  let origin := or_else origin_header "" in
  let listed :=
    exists s, ALLOWED_ORIGINS env = Some s /\
              (s = "*" \/ In origin (List.map Str.trim (split_on "," s))) in
  (listed ->
   header_get "Access-Control-Allow-Origin" (full_headers (cors env res origin_header))
   = Some origin) /\
  (~ listed ->
   header_get "Access-Control-Allow-Origin" (full_headers (cors env res origin_header))
   = None) /\
  (ALLOWED_ORIGINS env = None -> ~ listed).
Proof.
  intros H origin listed.
  assert (A : origin_allowed env origin = true <-> listed).
  { unfold origin_allowed, allow_list, listed.
    destruct (ALLOWED_ORIGINS env) as [s|].
    - rewrite orb_true_iff, String.eqb_eq, existsb_eqb_In.
      split.
      + intros D. exists s. auto.
      + intros (s' & E & D). injection E as <-. exact D.
    - simpl. split; [discriminate|]. intros (s & E & _). discriminate. }
  assert (K : header_get "Access-Control-Allow-Origin"
                (header_set "Vary" "Origin"
                   (header_set "Access-Control-Allow-Headers" "Content-Type, X-Admin-Token"
                      (header_set "Access-Control-Allow-Methods" "POST, OPTIONS"
                         (full_headers res)))) = None).
  { rewrite !header_get_set_other by reflexivity. exact H. }
  unfold cors. cbn [full_headers]. fold origin.
  split; [|split].
  - intros L. apply A in L. rewrite L. apply header_get_set_same.
  - intros L. destruct (origin_allowed env origin) eqn:E; [|exact K].
    exfalso. apply L, A. reflexivity.
  - intros E (s & E' & _). congruence.
Qed.

(** A list with blanks after the commas, and a caller from its second
    origin. *)
Lemma cors_allow_origin_witness :
  let env := mkEnv "t" "owner/pool" None "secret" (Some "https://a.example, https://b.example") in
  header_get "Access-Control-Allow-Origin"
             (full_headers (cors env (json_full (JObj [("ok", JBool true)]) 200)
                                 (Some "https://b.example")))
  = Some "https://b.example".
Proof.
  intros env.
  apply (proj1 (cors_allow_origin env (json_full (JObj [("ok", JBool true)]) 200)
                                  (Some "https://b.example") eq_refl)).
  exists "https://a.example, https://b.example". split; [reflexivity|].
  right. vm_compute. auto.
Defined.

Lemma from_char_codes_app (a b : list Z) :
  from_char_codes (a ++ b) = from_char_codes a ++ from_char_codes b.
Proof. induction a; simpl; [reflexivity | rewrite IHa; reflexivity]. Qed.

Lemma chunk_loop_spec (chunk : nat) (bytes : list Z) :
  (0 < chunk)%nat ->
  forall (fuel i : nat) (binary : string),
    (List.length bytes - i <= fuel * chunk)%nat ->
    chunk_loop fuel chunk bytes i binary = binary ++ from_char_codes (skipn i bytes).
Proof.
  intros C. induction fuel as [|f IH]; intros i binary B; cbn [chunk_loop].
  - rewrite skipn_all2 by lia. simpl. symmetry. apply append_empty_r.
  - destruct (i <? List.length bytes)%nat eqn:L.
    + apply Nat.ltb_lt in L.
      rewrite IH by (simpl in B; lia).
      rewrite append_assoc. f_equal.
      unfold subarray. replace (i + chunk - i)%nat with chunk by lia.
      rewrite <- from_char_codes_app.
      replace (i + chunk)%nat with (chunk + i)%nat by lia.
      rewrite <- skipn_skipn, firstn_skipn. reflexivity.
    + apply Nat.ltb_ge in L. rewrite skipn_all2 by lia. simpl.
      symmetry. apply append_empty_r.
Qed.

(** X13.  The chunks of [base64FromBytes] add up to the whole input:
    for bytes of any length it encodes the string of all their
    character codes, in order, once. *)
Theorem base64FromBytes_whole (btoa : string -> string) (bytes : list Z) :
  base64FromBytes btoa bytes = btoa (from_char_codes bytes).
Proof.
  unfold base64FromBytes. f_equal.
  rewrite chunk_loop_spec.
  - reflexivity.
  - unfold chunk_size. lia.
  - unfold chunk_size. nia.
Qed.

(* ================================================================== *)
(** * Versions and manifests over several uploads *)
(* ================================================================== *)

Lemma digit_char_decimal (d : Z) :
  0 <= d < 10 ->
  Str.is_digit (Str.digit_char d) = true /\ Str.code (Str.digit_char d) - 48 = d.
Proof.
  intros H. unfold Str.is_digit, Str.code. rewrite digit_char_code by lia.
  destruct (d <? 10) eqn:E; [|apply Z.ltb_ge in E; lia].
  rewrite Z2Nat.id by lia. split; [|lia].
  apply andb_true_iff. split; apply Z.leb_le; lia.
Qed.

Lemma digits_spec_decimal (f : nat) (n : Z) :
  0 <= n -> Str.all Str.is_digit (digits_spec f 10 n) = true.
Proof.
  revert n. induction f as [|f IH]; intros n H; cbn [digits_spec]; [reflexivity|].
  assert (M : 0 <= n mod 10 < 10) by (apply Z.mod_pos_bound; lia).
  destruct (digit_char_decimal _ M) as [D _].
  destruct (n / 10 =? 0).
  - cbn [Str.all]. rewrite D. reflexivity.
  - rewrite all_append, IH by (apply Z.div_pos; lia). cbn [Str.all]. rewrite D. reflexivity.
Qed.

Lemma digits_value_from_app (acc : Z) (a : string) (c : ascii) :
  Str.digits_value_from acc (a ++ String c "")
  = 10 * Str.digits_value_from acc a + (Str.code c - 48).
Proof.
  revert acc. induction a as [|d a IH]; intros acc; cbn [append Str.digits_value_from];
    [reflexivity | apply IH].
Qed.

Lemma digits_value_spec (f : nat) (n : Z) :
  0 <= n < 2 ^ Z.of_nat f -> Str.digits_value (digits_spec f 10 n) = n.
Proof.
  revert n. induction f as [|f IH]; intros n B.
  - simpl in B. assert (n = 0) by lia. subst n. reflexivity.
  - assert (M : 0 <= n mod 10 < 10) by (apply Z.mod_pos_bound; lia).
    assert (D : n = 10 * (n / 10) + n mod 10) by (apply Z.div_mod; lia).
    destruct (digit_char_decimal _ M) as [_ C].
    cbn [digits_spec]. destruct (n / 10 =? 0) eqn:Q.
    + apply Z.eqb_eq in Q. unfold Str.digits_value. cbn [Str.digits_value_from]. lia.
    + unfold Str.digits_value. rewrite digits_value_from_app.
      fold (Str.digits_value (digits_spec f 10 (n / 10))).
      rewrite IH; [lia|].
      split; [apply Z.div_pos; lia|].
      rewrite Nat2Z.inj_succ, Z.pow_succ_r in B by lia.
      apply Z.div_lt_upper_bound; lia.
Qed.

(** Writing a number in decimal and reading the digits back. *)
Lemma to_radix_decimal (n : Z) :
  0 <= n -> digits (Str.to_radix 10 n) /\ Str.digits_value (Str.to_radix 10 n) = n.
Proof.
  intros H. rewrite to_radix_spec. split; [split|].
  - apply digits_spec_nonempty.
  - apply digits_spec_decimal. exact H.
  - apply digits_value_spec, log2_fuel. exact H.
Qed.

Lemma digit_not_space (c : ascii) : Str.is_digit c = true -> Str.is_space c = false.
Proof.
  unfold Str.is_digit, Str.is_space. cbv zeta. intros H.
  apply andb_true_iff in H as [A B]. apply Z.leb_le in A, B.
  destruct (Z.leb_spec 9 (Str.code c)), (Z.leb_spec (Str.code c) 13),
    (Z.eqb_spec (Str.code c) 32), (Z.eqb_spec (Str.code c) 160); simpl; try reflexivity; lia.
Qed.

Lemma digits_head (s : string) : digits s -> head_fails Str.is_space s.
Proof.
  intros [N A]. destruct s as [|c s]; [congruence|]. simpl in *.
  apply andb_true_iff in A as [A _]. apply digit_not_space. exact A.
Qed.

Lemma digits_rev (s : string) : digits s -> digits (Str.rev s).
Proof.
  intros [N A]. split; [apply rev_nonempty; exact N | rewrite all_rev; exact A].
Qed.

Lemma version_text_trimmed (major minor : string) :
  digits major -> digits minor -> Str.trim (major ++ "." ++ minor) = major ++ "." ++ minor.
Proof.
  intros Ma Mi. unfold Str.trim.
  rewrite drop_while_id by (apply head_fails_app; [apply Ma | apply digits_head; exact Ma]).
  apply drop_while_end_id. unfold last_fails. rewrite !rev_app.
  apply digits_rev in Mi.
  apply head_fails_app; [apply append_nonempty_l, Mi|].
  apply head_fails_app; [apply Mi | apply digits_head; exact Mi].
Qed.

Lemma bumpVersion_canonical (major minor : Z) :
  0 <= major < Js.two53 -> 0 <= minor -> minor + 1 < Js.two53 ->
  bumpVersion (JStr (version_text major minor)) = Ok (version_text major (minor + 1)).
Proof.
  intros Ma Mi Mb.
  destruct (to_radix_decimal major) as [D1 V1]; [lia|].
  destruct (to_radix_decimal minor) as [D2 V2]; [lia|].
  unfold version_text.
  rewrite (bumpVersion_matched _ (Str.to_radix 10 major ++ "." ++ Str.to_radix 10 minor)
                               (Str.to_radix 10 major) (Some (Str.to_radix 10 minor)));
    try discriminate; try reflexivity.
  - rewrite !number_of_digits_exact by (rewrite ?V1, ?V2; lia).
    rewrite V1, V2.
    rewrite add_one_exact by lia.
    rewrite !number_to_string_exact by lia.
    reflexivity.
  - rewrite version_text_trimmed by assumption.
    apply match_version_major_minor; assumption.
Qed.

(** X14.  On a version the handlers wrote themselves, [bumpVersion]
    counts: from [major.minor] in decimal without leading zeros it
    gives [major.(minor+1)] in the same form, the major part
    untouched, as long as the numbers stay below [2^53]; what it
    gives is again a version the pattern accepts. *)
Theorem bumpVersion_successive (major minor : Z) :
  0 <= major < Js.two53 -> 0 <= minor -> minor + 1 < Js.two53 ->
  bumpVersion (JStr (version_text major minor)) = Ok (version_text major (minor + 1)) /\
  version_form (version_text major (minor + 1)).
Proof.
  intros Ma Mi Mb. split; [apply bumpVersion_canonical; assumption|].
  right. exists (Str.to_radix 10 major), (Str.to_radix 10 (minor + 1)).
  split; [reflexivity|]. split; apply to_radix_decimal; lia.
Qed.

(** From "3.9" to "3.10": the minor part is a number, not a digit. *)
Lemma bumpVersion_successive_witness :
  bumpVersion (JStr "3.9") = Ok "3.10" /\ version_form "3.10".
Proof.
  apply (bumpVersion_successive 3 9);
    [split; [vm_compute; congruence | vm_compute; reflexivity]
    | vm_compute; congruence | vm_compute; reflexivity].
Defined.

Lemma bumpVersion_throws (v : JsVal) (e : JsError) :
  bumpVersion v = Thrown e -> Js.to_string v = Thrown e.
Proof.
  unfold bumpVersion.
  destruct v; try discriminate;
    (destruct (Js.to_string _) as [str | e'] eqn:T; cbn [Js.bind_result];
     [ destruct (match_version (Str.trim str)) as [[m1 m2]|]; discriminate
     | intros E; exact E ]).
Qed.

Lemma files_before_array (props : list (string * JsVal)) :
  exists elems named, files_before props = JArr elems named.
Proof.
  unfold files_before. destruct (Js.lookup "files" props) as [[]|]; unfold Js.arr; eauto.
Qed.

Lemma lookup_with_files_array (k : string) (props : list (string * JsVal)) :
  k <> "files" -> Js.lookup k (with_files_array props) = Js.lookup k props.
Proof.
  intros N. apply String.eqb_neq in N. unfold with_files_array.
  destruct (Js.lookup "files" props) as [[]|]; try reflexivity;
    apply lookup_set_other; exact N.
Qed.

(** X15.  Appending an entry to a manifest object changes [files],
    [version] and [generated_at] and no other field; it fails only when
    the manifest's [version] has no string form, with that error. *)
Theorem appendEntry_keeps_fields (w : World) (props : list (string * JsVal))
        (dir targetName fileType : string) (h : list Event) :
  match snd (run w (appendEntry (JObj props) dir targetName fileType) h) with
  | Ok (JObj doc) =>
      forall k, k <> "files" -> k <> "version" -> k <> "generated_at" ->
                Js.lookup k doc = Js.lookup k props
  | Ok _ => False
  | Thrown e => Js.to_string (version_before props) = Thrown e
  end.
Proof.
  rewrite appendEntry_object.
  destruct (files_before_array props) as (elems & named & F). rewrite F. cbn [Js.unshift].
  destruct (bumpVersion (version_before props)) as [v | e] eqn:B; cbn [snd].
  - intros k N1 N2 N3.
    rewrite !lookup_set_other by (apply String.eqb_neq; assumption).
    apply lookup_with_files_array. exact N1.
  - apply bumpVersion_throws. exact B.
Qed.

(** X16.  Two uploads one after the other, the second reading the
    manifest the first one made: the second entry comes first, then
    the first, then the entries that were there, and a version
    [major.minor] has become [major.(minor+2)]. *)
Theorem two_uploads_in_a_row (w : World) (props : list (string * JsVal))
        (elems : list JsVal) (named : list (string * JsVal)) (major minor : Z)
        (dir1 name1 type1 dir2 name2 type2 : string) (h : list Event) :
  files_before props = JArr elems named ->
  version_before props = JStr (version_text major minor) ->
  0 <= major < Js.two53 -> 0 <= minor -> minor + 2 < Js.two53 ->
  exists doc1 doc2 h1 h2 t1 t2,
    run w (appendEntry (JObj props) dir1 name1 type1) h = (h1, Ok (JObj doc1)) /\
    run w (appendEntry (JObj doc1) dir2 name2 type2) h1 = (h2, Ok (JObj doc2)) /\
    files_before doc2
    = JArr (fileEntry (normDirOf dir2) name2 type2 t2
              :: fileEntry (normDirOf dir1) name1 type1 t1 :: elems) named /\
    version_before doc2 = JStr (version_text major (minor + 2)).
Proof.
  intros F V Ma Mi Mb.
  assert (S : forall (p : list (string * JsVal)) (files : JsVal) (v g : string),
             files_before (Js.set "generated_at" (JStr g)
                             (Js.set "version" (JStr v) (Js.set "files" files p)))
             = match files with JArr e n => JArr e n | _ => Js.arr [] end /\
             version_before (Js.set "generated_at" (JStr g)
                               (Js.set "version" (JStr v) (Js.set "files" files p)))
             = JStr v).
  { intros p files v g. unfold files_before, version_before.
    rewrite !lookup_set_other by reflexivity.
    rewrite lookup_set_same.
    rewrite lookup_set_other by reflexivity.
    rewrite lookup_set_same. auto. }
  pose proof (appendEntry_object w props dir1 name1 type1 h) as R1. cbv zeta in R1.
  rewrite F, V in R1. cbn [Js.unshift] in R1.
  rewrite bumpVersion_canonical in R1 by lia.
  destruct (S (with_files_array props)
              (JArr (fileEntry (normDirOf dir1) name1 type1 (answer_now_iso w h) :: elems) named)
              (version_text major (minor + 1))
              (answer_now_iso w (h ++ [EvNowIso (answer_now_iso w h)])))
    as [F1 V1].
  match type of R1 with
  | _ = (?hh, Ok (JObj ?d)) =>
      pose proof (appendEntry_object w d dir2 name2 type2 hh) as R2
  end.
  cbv zeta in R2. rewrite F1, V1 in R2. cbn [Js.unshift] in R2.
  rewrite bumpVersion_canonical in R2 by lia.
  replace (minor + 1 + 1) with (minor + 2) in R2 by lia.
  eexists. eexists. eexists. eexists. eexists. eexists.
  split; [exact R1|]. split; [exact R2|].
  exact (S _ (JArr _ _) _ _).
Qed.

(** Starting from the manifest a first upload leaves, "1.1" with no
    earlier file. *)
Lemma two_uploads_in_a_row_witness :
  exists doc1 doc2 h1 h2 t1 t2,
    run (scripted [] clock_ms clock_iso "")
        (appendEntry (JObj [("version", JStr "1.1"); ("files", Js.arr [])])
                     "images" "a.png" "image/png") [] = (h1, Ok (JObj doc1)) /\
    run (scripted [] clock_ms clock_iso "")
        (appendEntry (JObj doc1) "" "b.png" "") h1 = (h2, Ok (JObj doc2)) /\
    files_before doc2
    = JArr [fileEntry (normDirOf "") "b.png" "" t2;
            fileEntry (normDirOf "images") "a.png" "image/png" t1] [] /\
    version_before doc2 = JStr (version_text 1 (1 + 2)).
Proof.
  apply (two_uploads_in_a_row (scripted [] clock_ms clock_iso "")
           [("version", JStr "1.1"); ("files", Js.arr [])] [] [] 1 1).
  - reflexivity.
  - reflexivity.
  - split; [vm_compute; congruence | vm_compute; reflexivity].
  - vm_compute; congruence.
  - vm_compute; reflexivity.
Defined.

(* ================================================================== *)
(** * The pipeline of part_000 when every step is accepted *)
(* ================================================================== *)

Lemma lookup_in_nodup {A} (l : list (string * A)) (p : string) (f : A) :
  NoDup (List.map fst l) -> In (p, f) l -> Js.lookup p l = Some f.
Proof.
  induction l as [|[k v] l IH]; intros N I; [destruct I|].
  inversion N as [|? ? Nk Nl]; subst. cbn [Js.lookup].
  destruct I as [E | I].
  - injection E as -> ->. rewrite String.eqb_refl. reflexivity.
  - destruct (String.eqb p k) eqn:E.
    + apply String.eqb_eq in E. subst k. exfalso. apply Nk.
      apply (in_map fst) in I. exact I.
    + apply IH; assumption.
Qed.

Lemma create_blobs_ok (w : World) (api repo auth : string) (files : list (string * FileSpec))
      (sub : list (string * FileSpec)) :
  (forall p f, In (p, f) sub -> Js.lookup p files = Some f) ->
  forall (blobMap : list (string * JsVal)) (h h' : list Event) (blobMap' : list (string * JsVal)),
    run w (create_blobs api repo auth files (List.map fst sub) blobMap) h = (h', Ok blobMap') ->
    exists answers shas,
      List.length answers = List.length sub /\
      Forall2 created answers shas /\
      h' = (h ++ blob_events api repo auth sub answers)%list /\
      blobMap' = record_blobs (List.map fst sub) shas blobMap.
Proof.
  induction sub as [|[p f] rest IH]; intros L blobMap h h' blobMap'.
  - cbn [List.map create_blobs run]. intros E. injection E as <- <-.
    exists [], []. repeat split; [constructor | symmetry; apply app_nil_r].
  - cbn [List.map fst create_blobs]. rewrite (L p f (or_introl eq_refl)).
    rewrite run_bind, run_fetch.
    fold (blob_request api repo auth f).
    destruct (answer_fetch w h (blob_request api repo auth f)) as [r | e] eqn:A; [|discriminate].
    destruct (res_ok r) eqn:O; cbn [negb]; [|discriminate].
    rewrite run_bind. unfold json_of at 1.
    destruct (res_json r) as [j|] eqn:J; [|discriminate].
    cbn [run]. rewrite run_bind, run_lift.
    destruct (Js.get j "sha") as [sha | e] eqn:G; [|discriminate].
    intros R. apply IH in R; [|intros q g I; apply L; right; exact I].
    destruct R as (answers & shas & Len & C & -> & ->).
    exists (Responded r :: answers), (sha :: shas).
    split; [simpl; rewrite Len; reflexivity|].
    split; [constructor; [exists r, j; auto | exact C]|].
    split; [rewrite <- app_assoc; reflexivity | reflexivity].
Qed.

Lemma record_blobs_other (keys : list string) (p : string) :
  ~ In p keys ->
  forall shas blobMap, Js.lookup p (record_blobs keys shas blobMap) = Js.lookup p blobMap.
Proof.
  unfold record_blobs.
  induction keys as [|k keys IH]; intros N shas blobMap; [reflexivity|].
  destruct shas as [|s shas]; [reflexivity|]. cbn [combine fold_left fst snd].
  rewrite IH by (intros I; apply N; right; exact I).
  apply lookup_set_other. apply String.eqb_neq. intros E. apply N. left. auto.
Qed.

Lemma record_blobs_lookup (sub : list (string * FileSpec)) :
  NoDup (List.map fst sub) ->
  forall shas blobMap,
    List.length shas = List.length sub ->
    List.map (fun p => match Js.lookup p (record_blobs (List.map fst sub) shas blobMap) with
                       | Some sha => sha
                       | None => JUndefined
                       end) (List.map fst sub)
    = shas.
Proof.
  induction sub as [|[p f] rest IH]; intros N shas blobMap Len.
  - destruct shas; [reflexivity | discriminate].
  - destruct shas as [|s shas]; [discriminate|].
    inversion N as [|? ? Np Nr]; subst.
    cbn [List.map fst]. f_equal.
    + change (record_blobs (p :: List.map fst rest) (s :: shas) blobMap)
        with (record_blobs (List.map fst rest) shas (Js.set p s blobMap)).
      rewrite record_blobs_other by exact Np.
      rewrite lookup_set_same. reflexivity.
    + change (record_blobs (p :: List.map fst rest) (s :: shas) blobMap)
        with (record_blobs (List.map fst rest) shas (Js.set p s blobMap)).
      apply IH; [exact Nr | simpl in Len; lia].
Qed.

Lemma treeEntries_for (files sub : list (string * FileSpec)) (blobMap : list (string * JsVal))
      (shas : list JsVal) :
  (forall p f, In (p, f) sub -> Js.lookup p files = Some f) ->
  List.map (fun p => match Js.lookup p blobMap with
                     | Some sha => sha
                     | None => JUndefined
                     end) (List.map fst sub) = shas ->
  List.map
    (fun p =>
       mkTreeEntry
         (Str.drop_while (is_char "/") p)
         (match Js.lookup p files with
          | Some f => or_else (mode f) "100644"
          | None => "100644"
          end)
         "blob"
         (match Js.lookup p blobMap with Some sha => sha | None => JUndefined end))
    (List.map fst sub)
  = entries_for sub shas.
Proof.
  revert shas. induction sub as [|[p f] rest IH]; intros shas L E.
  - reflexivity.
  - cbn [List.map fst] in *. destruct shas as [|s shas]; [discriminate|].
    injection E as E1 E2.
    unfold entries_for. cbn [combine List.map fst snd].
    rewrite (L p f (or_introl eq_refl)), E1. f_equal.
    apply IH; [intros q g I; apply L; right; exact I | exact E2].
Qed.

Lemma read_head_and_blobs_ok (w : World) (api repo branch auth : string)
      (files : list (string * FileSpec)) (h h1 : list Event)
      (parentSha baseTree : JsVal) (blobMap : list (string * JsVal)) :
  NoDup (List.map fst files) ->
  run w (read_head_and_blobs api repo branch auth files) h
  = (h1, Ok (parentSha, baseTree, blobMap)) ->
  exists refA parentText commitA answers shas,
    observed_parent refA parentSha /\
    Js.truthy parentSha = true /\
    Js.to_string parentSha = Ok parentText /\
    observed_tree commitA baseTree /\
    List.length answers = List.length files /\
    Forall2 created answers shas /\
    h1 = (h ++ [EvFetch (ref_request api repo branch auth) refA;
                EvFetch (mkRequest GET api repo (GitCommit parentText) auth NoBody) commitA]
            ++ blob_events api repo auth files answers)%list /\
    blobMap = record_blobs (List.map fst files) shas [].
Proof.
  intros N. unfold read_head_and_blobs. fold (ref_request api repo branch auth).
  rewrite run_bind, run_fetch.
  destruct (answer_fetch w h (ref_request api repo branch auth)) as [r | e] eqn:A; [|discriminate].
  destruct (res_ok r) eqn:O; cbn [negb]; [|discriminate].
  rewrite run_bind. unfold json_of at 1.
  destruct (res_json r) as [j|] eqn:J; [|discriminate].
  cbn [run]. rewrite run_bind, run_lift.
  destruct (Js.get j "object") as [obj | e] eqn:G; [|discriminate].
  rewrite run_bind, run_lift.
  destruct (Js.get_opt obj "sha") as [p | e] eqn:G'; [|discriminate].
  destruct (Js.truthy p) eqn:T; cbn [negb]; [|discriminate].
  rewrite run_bind, run_lift.
  destruct (Js.to_string p) as [parentText | e] eqn:S; [|discriminate].
  rewrite run_bind, run_fetch.
  set (h0 := (h ++ [EvFetch (ref_request api repo branch auth) (Responded r)])%list).
  set (q := mkRequest GET api repo (GitCommit parentText) auth NoBody).
  destruct (answer_fetch w h0 q) as [r2 | e] eqn:A2; [|discriminate].
  destruct (res_ok r2) eqn:O2; cbn [negb]; [|discriminate].
  rewrite run_bind. unfold json_of at 1.
  destruct (res_json r2) as [j2|] eqn:J2; [|discriminate].
  cbn [run]. rewrite run_bind, run_lift.
  destruct (Js.get j2 "tree") as [tree | e] eqn:G2; [|discriminate].
  rewrite run_bind, run_lift.
  destruct (Js.get_opt tree "sha") as [base | e] eqn:G2'; [|discriminate].
  rewrite run_bind.
  destruct (run w (create_blobs api repo auth files (List.map fst files) [])
                (h0 ++ [EvFetch q (Responded r2)])) as [hb [bm | e]] eqn:B; [|discriminate].
  cbn [run]. intros E. injection E as <- <- <- <-.
  apply create_blobs_ok in B; [|intros x f I; apply lookup_in_nodup; assumption].
  destruct B as (answers & shas & Len & C & -> & ->).
  exists (Responded r), parentText, (Responded r2), answers, shas.
  split; [exists r, j, obj; auto|].
  split; [exact T|]. split; [exact S|].
  split; [exists r2, j2, tree; auto|].
  split; [exact Len|]. split; [exact C|].
  split; [|reflexivity].
  unfold h0. rewrite <- !app_assoc. reflexivity.
Qed.

Lemma tree_commit_ref_ok (w : World) (api repo branch auth message : string)
      (parentSha base_tree : JsVal) (treeEntries : list TreeEntry) (h h' : list Event)
      (sha : JsVal) :
  run w (tree_commit_ref api repo branch auth message parentSha base_tree treeEntries) h
  = (h', Ok sha) ->
  exists a1 newTreeSha a2 r,
    h' = (h ++ [EvFetch (mkRequest POST api repo GitTrees auth
                                   (TreeBody base_tree treeEntries)) a1;
                EvFetch (mkRequest POST api repo GitCommits auth
                                   (CommitBody message newTreeSha [parentSha])) a2;
                EvFetch (mkRequest PATCH api repo (GitRefs branch) auth (RefBody sha))
                        (Responded r)])%list /\
    created a1 newTreeSha /\ created a2 sha /\ res_ok r = true.
Proof.
  unfold tree_commit_ref. rewrite run_bind, run_fetch.
  destruct (answer_fetch w h _) as [r1 | e]; [|discriminate].
  destruct (res_ok r1) eqn:O1; cbn [negb]; [|discriminate].
  rewrite run_bind. unfold json_of at 1.
  destruct (res_json r1) as [j1|] eqn:J1; [|discriminate].
  cbn [run]. rewrite run_bind, run_lift.
  destruct (Js.get j1 "sha") as [newTreeSha | e] eqn:G1; [|discriminate].
  rewrite run_bind, run_fetch.
  destruct (answer_fetch w _ _) as [r2 | e]; [|discriminate].
  destruct (res_ok r2) eqn:O2; cbn [negb]; [|discriminate].
  rewrite run_bind. unfold json_of at 1.
  destruct (res_json r2) as [j2|] eqn:J2; [|discriminate].
  cbn [run]. rewrite run_bind, run_lift.
  destruct (Js.get j2 "sha") as [newCommitSha | e] eqn:G2; [|discriminate].
  rewrite run_bind, run_fetch.
  destruct (answer_fetch w _ _) as [r3 | e]; [|discriminate].
  destruct (res_ok r3) eqn:O3; cbn [negb run]; [|discriminate].
  intros E. injection E as <- <-.
  exists (Responded r1), newTreeSha, (Responded r2), r3.
  split; [rewrite <- !app_assoc; reflexivity|].
  split; [exists r1, j1; auto|]. split; [exists r2, j2; auto | exact O3].
Qed.

(** X17.  For a change-set whose keys are distinct and ordinary (none
    is [__proto__], none a run of digits): when [commitFilesAtomically]
    of part_000 returns, it has made one pass and nothing else: it
    read the ref and the commit the ref names, created one blob per
    file, in the order of the files and from each file's own content,
    created a tree on the parent's tree whose entries give every path
    (leading "/" removed, mode 100644 unless the file states one) the
    blob created for that file, created a commit of that tree with
    the head it read as the only parent, and moved the ref to that
    commit, whose identifier it returns. *)
Theorem commit_pipeline_success (w : World) (api repo branch message token : string)
        (files : list (string * FileSpec)) (h h' : list Event) (sha : JsVal) :
  NoDup (List.map fst files) ->
  Forall ordinary_key (List.map fst files) ->
  run w (Part000.commitFilesAtomically api repo branch files message token) h = (h', Ok sha) ->
  let auth := Part000.ghHeaders token in
  exists refA parentSha parentText commitA baseTree answers shas a1 newTreeSha a2 r,
    h' = (h ++ [EvFetch (ref_request api repo branch auth) refA;
                EvFetch (mkRequest GET api repo (GitCommit parentText) auth NoBody) commitA]
            ++ blob_events api repo auth files answers
            ++ [EvFetch (mkRequest POST api repo GitTrees auth
                                   (TreeBody baseTree (entries_for files shas))) a1;
                EvFetch (mkRequest POST api repo GitCommits auth
                                   (CommitBody message newTreeSha [parentSha])) a2;
                EvFetch (mkRequest PATCH api repo (GitRefs branch) auth (RefBody sha))
                        (Responded r)])%list /\
    observed_parent refA parentSha /\
    Js.to_string parentSha = Ok parentText /\
    observed_tree commitA baseTree /\
    List.length answers = List.length files /\
    Forall2 created answers shas /\
    created a1 newTreeSha /\
    created a2 sha /\
    res_ok r = true.
Proof.
  intros N _ R auth. unfold Part000.commitFilesAtomically in R. fold auth in R.
  rewrite run_bind in R.
  destruct (run w (read_head_and_blobs api repo branch auth files) h)
    as [h1 [[[parentSha baseTree] blobMap] | e]] eqn:R1; [|discriminate].
  destruct (read_head_and_blobs_ok w api repo branch auth files h h1 parentSha baseTree blobMap
              N R1)
    as (refA & parentText & commitA & answers & shas & P & _ & S & T & Len & C & -> & ->).
  assert (E : Part000.treeEntriesOf files (record_blobs (List.map fst files) shas [])
              = entries_for files shas).
  { unfold Part000.treeEntriesOf. apply treeEntries_for.
    - intros p f I. apply lookup_in_nodup; assumption.
    - apply record_blobs_lookup; [exact N|].
      apply Forall2_length in C. lia. }
  rewrite E in R.
  apply tree_commit_ref_ok in R.
  destruct R as (a1 & newTreeSha & a2 & r & -> & C1 & C2 & O).
  exists refA, parentSha, parentText, commitA, baseTree, answers, shas, a1, newTreeSha, a2, r.
  split; [rewrite <- !app_assoc; reflexivity|].
  repeat (split; [assumption|]). assumption.
Qed.

(** Two files on a remote that accepts everything: seven requests, and
    the tree gives "a.txt" the first blob and "bin/run.sh", mode
    100755, the second. *)
Lemma commit_pipeline_success_witness :
  let auth := Part000.ghHeaders "t" in
  let out := run two_file_remote
                 (Part000.commitFilesAtomically apiBase "owner/pool" "main" two_files "msg" "t")
                 [] in
  (exists refA parentSha parentText commitA baseTree answers shas a1 newTreeSha a2 r,
      fst out
      = ([] ++ [EvFetch (ref_request apiBase "owner/pool" "main" auth) refA;
                EvFetch (mkRequest GET apiBase "owner/pool" (GitCommit parentText) auth NoBody)
                        commitA]
            ++ blob_events apiBase "owner/pool" auth two_files answers
            ++ [EvFetch (mkRequest POST apiBase "owner/pool" GitTrees auth
                                   (TreeBody baseTree (entries_for two_files shas))) a1;
                EvFetch (mkRequest POST apiBase "owner/pool" GitCommits auth
                                   (CommitBody "msg" newTreeSha [parentSha])) a2;
                EvFetch (mkRequest PATCH apiBase "owner/pool" (GitRefs "main") auth
                                   (RefBody (JStr "c1")))
                        (Responded r)])%list /\
      observed_parent refA parentSha /\
      Js.to_string parentSha = Ok parentText /\
      observed_tree commitA baseTree /\
      List.length answers = List.length two_files /\
      Forall2 created answers shas /\
      created a1 newTreeSha /\
      created a2 (JStr "c1") /\
      res_ok r = true) /\
  entries_for two_files [JStr "b1"; JStr "b2"]
  = [mkTreeEntry "a.txt" "100644" "blob" (JStr "b1");
     mkTreeEntry "bin/run.sh" "100755" "blob" (JStr "b2")].
Proof.
  intros auth out. split; [|reflexivity].
  apply (commit_pipeline_success two_file_remote apiBase "owner/pool" "main" "msg" "t"
                                 two_files [] (fst out) (JStr "c1")).
  - repeat constructor; simpl; intuition discriminate.
  - repeat constructor; try discriminate; intros [_ D]; discriminate D.
  - vm_compute. reflexivity.
Defined.

(* ================================================================== *)
(** * How many requests a call sends *)
(* ================================================================== *)

Lemma requests_mono {A} (p : Prog A) (n m : nat) :
  (n <= m)%nat -> requests_at_most n p -> requests_at_most m p.
Proof.
  revert n m. induction p as [a|e|req k IH|k IH|k IH|k IH|ms k IH|l d k IH];
    intros n m L H; cbn [requests_at_most] in *; auto.
  - destruct n as [|n]; [destruct H|]. destruct m as [|m]; [lia|].
    intros r. apply (IH r n m); [lia | apply H].
  - intros t. apply (IH t n m L (H t)).
  - intros t. apply (IH t n m L (H t)).
  - intros r. apply (IH r n m L (H r)).
  - apply (IH n m L H).
  - apply (IH n m L H).
Qed.

Lemma requests_bind {A B} (p : Prog A) (f : A -> Prog B) (n m : nat) :
  requests_at_most n p -> (forall a, requests_at_most m (f a)) ->
  requests_at_most (n + m) (bind p f).
Proof.
  intros Hp Hf. revert n Hp.
  induction p as [a|e|req k IH|k IH|k IH|k IH|ms k IH|l d k IH];
    intros n Hp; cbn [bind requests_at_most] in *; auto.
  - apply (requests_mono (f a) m); [lia | apply Hf].
  - destruct n as [|n]; [destruct Hp|]. cbn [Nat.add]. intros r. apply IH, Hp.
Qed.

(** The same when what [p] returns is known to satisfy [P]. *)
Lemma requests_bind_results {A B} (P : A -> Prop) (p : Prog A) (f : A -> Prog B) (n m : nat) :
  requests_at_most n p -> results P p -> (forall a, P a -> requests_at_most m (f a)) ->
  requests_at_most (n + m) (bind p f).
Proof.
  intros Hp Hr Hf. revert n Hp Hr.
  induction p as [a|e|req k IH|k IH|k IH|k IH|ms k IH|l d k IH];
    intros n Hp Hr; cbn [bind requests_at_most results] in *; auto.
  - apply (requests_mono (f a) m); [lia | apply Hf, Hr].
  - destruct n as [|n]; [destruct Hp|]. cbn [Nat.add]. intros r. apply IH; [apply Hp | apply Hr].
Qed.

Lemma requests_try_catch {A} (p : Prog A) (handler : JsError -> Prog A) (n m : nat) :
  requests_at_most n p -> (forall e, requests_at_most m (handler e)) ->
  requests_at_most (n + m) (try_catch p handler).
Proof.
  intros Hp Hh. revert n Hp.
  induction p as [a|e|req k IH|k IH|k IH|k IH|ms k IH|l d k IH];
    intros n Hp; cbn [try_catch requests_at_most] in *; auto.
  - apply (requests_mono (handler e) m); [lia | apply Hh].
  - destruct n as [|n]; [destruct Hp|]. cbn [Nat.add]. intros r. apply IH, Hp.
Qed.

Lemma requests_fetch (req : Request) : requests_at_most 1 (fetch req).
Proof. intros [r | e]; exact I. Qed.

Lemma requests_lift {A} (r : Result A) : requests_at_most 0 (lift r).
Proof. destruct r; exact I. Qed.

Lemma requests_json_of (r : Response) : requests_at_most 0 (json_of r).
Proof. unfold json_of. destruct (res_json r); exact I. Qed.

Lemma count_fetches_app (a b : list Event) :
  count_fetches (a ++ b) = (count_fetches a + count_fetches b)%nat.
Proof.
  induction a as [|ev a IH]; [reflexivity|].
  destruct ev; cbn [app count_fetches]; rewrite IH; reflexivity.
Qed.

Lemma requests_run {A} (w : World) (p : Prog A) (n : nat) (h : list Event) :
  requests_at_most n p ->
  exists evs, fst (run w p h) = (h ++ evs)%list /\ (count_fetches evs <= n)%nat.
Proof.
  revert n h. induction p as [a|e|req k IH|k IH|k IH|k IH|ms k IH|l d k IH];
    intros n h H; cbn [run requests_at_most] in *.
  - exists []. split; [symmetry; apply app_nil_r | simpl; lia].
  - exists []. split; [symmetry; apply app_nil_r | simpl; lia].
  - destruct n as [|n]; [destruct H|].
    destruct (IH (answer_fetch w h req) n (h ++ [EvFetch req (answer_fetch w h req)])%list
                 (H _)) as (evs & E & C).
    exists (EvFetch req (answer_fetch w h req) :: evs).
    split; [rewrite E, <- app_assoc; reflexivity | simpl; lia].
  - destruct (IH (answer_date_now w h) n (h ++ [EvDateNow (answer_date_now w h)])%list (H _)) as (evs & E & C).
    exists (EvDateNow (answer_date_now w h) :: evs).
    split; [rewrite E, <- app_assoc; reflexivity | exact C].
  - destruct (IH (answer_now_iso w h) n (h ++ [EvNowIso (answer_now_iso w h)])%list (H _)) as (evs & E & C).
    exists (EvNowIso (answer_now_iso w h) :: evs).
    split; [rewrite E, <- app_assoc; reflexivity | exact C].
  - destruct (IH (answer_random w h) n (h ++ [EvRandom (answer_random w h)])%list (H _)) as (evs & E & C).
    exists (EvRandom (answer_random w h) :: evs).
    split; [rewrite E, <- app_assoc; reflexivity | exact C].
  - destruct (IH n (h ++ [EvSleep ms])%list H) as (evs & E & C).
    exists (EvSleep ms :: evs).
    split; [rewrite E, <- app_assoc; reflexivity | exact C].
  - destruct (IH n (h ++ [EvWarn l d])%list H) as (evs & E & C).
    exists (EvWarn l d :: evs).
    split; [rewrite E, <- app_assoc; reflexivity | exact C].
Qed.

(** Steps that send nothing, and a request followed by the rest. *)
Ltac count_steps :=
  repeat first
    [ exact I
    | apply requests_lift
    | apply requests_json_of
    | apply requests_fetch
    | apply (requests_bind _ _ 0); [| intros ]
    | match goal with
      | |- requests_at_most (S ?n) (bind (fetch _) _) =>
          apply (requests_bind _ _ 1 n); [apply requests_fetch | intros ]
      | |- requests_at_most _ (if ?b then _ else _) => destruct b
      | |- requests_at_most _ (match ?x with _ => _ end) => destruct x
      end ].

Lemma requests_create_blobs (api repo auth : string) (files : list (string * FileSpec))
      (keys : list string) (blobMap : list (string * JsVal)) :
  requests_at_most (List.length keys) (create_blobs api repo auth files keys blobMap).
Proof.
  revert blobMap. induction keys as [|p rest IH]; intros blobMap;
    cbn [create_blobs List.length]; [exact I|].
  destruct (Js.lookup p files); [|exact I].
  apply (requests_bind _ _ 1 (List.length rest)); [apply requests_fetch|]. intros bRes.
  destruct (negb (res_ok bRes)); [exact I|].
  apply (requests_bind _ _ 0); [apply requests_json_of|]. intros bj.
  apply (requests_bind _ _ 0); [apply requests_lift|]. intros sha.
  apply IH.
Qed.

Lemma requests_read_head_and_blobs (api repo branch auth : string)
      (files : list (string * FileSpec)) :
  requests_at_most (2 + List.length files) (read_head_and_blobs api repo branch auth files).
Proof.
  unfold read_head_and_blobs. cbn [Nat.add].
  apply (requests_bind _ _ 1 (S (List.length files))); [apply requests_fetch|]. intros refRes.
  destruct (negb (res_ok refRes)); [exact I|].
  apply (requests_bind _ _ 0); [apply requests_json_of|]. intros refJson.
  apply (requests_bind _ _ 0); [apply requests_lift|]. intros obj.
  apply (requests_bind _ _ 0); [apply requests_lift|]. intros parentSha.
  destruct (negb (Js.truthy parentSha)); [exact I|].
  apply (requests_bind _ _ 0); [apply requests_lift|]. intros parentText.
  apply (requests_bind _ _ 1 (List.length files)); [apply requests_fetch|]. intros commitRes.
  destruct (negb (res_ok commitRes)); [exact I|].
  apply (requests_bind _ _ 0); [apply requests_json_of|]. intros commitJson.
  apply (requests_bind _ _ 0); [apply requests_lift|]. intros tree.
  apply (requests_bind _ _ 0); [apply requests_lift|]. intros baseTree.
  apply (requests_mono _ (List.length (List.map fst files) + 0));
    [rewrite length_map, Nat.add_0_r; apply le_n|].
  apply requests_bind; [apply requests_create_blobs | intros; exact I].
Qed.

Lemma requests_tree_commit_ref (api repo branch auth message : string)
      (parentSha base_tree : JsVal) (treeEntries : list TreeEntry) :
  requests_at_most 3
    (tree_commit_ref api repo branch auth message parentSha base_tree treeEntries).
Proof.
  unfold tree_commit_ref.
  apply (requests_bind _ _ 1 2); [apply requests_fetch|]. intros treeRes.
  destruct (negb (res_ok treeRes)); [exact I|].
  apply (requests_bind _ _ 0); [apply requests_json_of|]. intros treeJson.
  apply (requests_bind _ _ 0); [apply requests_lift|]. intros newTreeSha.
  apply (requests_bind _ _ 1 1); [apply requests_fetch|]. intros newCommitRes.
  destruct (negb (res_ok newCommitRes)); [exact I|].
  apply (requests_bind _ _ 0); [apply requests_json_of|]. intros newCommitJson.
  apply (requests_bind _ _ 0); [apply requests_lift|]. intros newCommitSha.
  apply (requests_bind _ _ 1 0); [apply requests_fetch|]. intros updateRes.
  destruct (negb (res_ok updateRes)); exact I.
Qed.

Lemma write_steps_quiet (api repo branch auth message : string)
      (parentSha base_tree : JsVal) (treeEntries : list TreeEntry)
      (evs : list Event) (out : Result JsVal) :
  write_steps api repo branch auth message parentSha base_tree treeEntries evs out ->
  ref_reads evs = O /\ sleeps evs = [].
Proof. intros W. destruct W; split; reflexivity. Qed.

(** X18.  [commitFilesAtomically] of part_000 makes one pass and never
    tries again: whatever the remote answers, it reads the branch ref
    once, waits for nothing, and sends at most five requests besides
    one per file. *)
Theorem commit_pipeline_single_pass (w : World) (api repo branch message token : string)
        (files : list (string * FileSpec)) (h : list Event) :
  exists evs,
    fst (run w (Part000.commitFilesAtomically api repo branch files message token) h)
    = (h ++ evs)%list /\
    ref_reads evs = 1%nat /\
    sleeps evs = [] /\
    (count_fetches evs <= List.length files + 5)%nat.
Proof.
  set (auth := Part000.ghHeaders token).
  assert (B : requests_at_most (List.length files + 5)
                (Part000.commitFilesAtomically api repo branch files message token)).
  { unfold Part000.commitFilesAtomically.
    replace (List.length files + 5)%nat with ((2 + List.length files) + 3)%nat by lia.
    apply requests_bind; [apply requests_read_head_and_blobs|].
    intros [[parentSha baseTree] blobMap]. apply requests_tree_commit_ref. }
  assert (Q : exists evs,
             fst (run w (Part000.commitFilesAtomically api repo branch files message token) h)
             = (h ++ evs)%list /\ ref_reads evs = 1%nat /\ sleeps evs = []).
  { unfold Part000.commitFilesAtomically. fold auth. rewrite run_bind.
    destruct (read_head_and_blobs_events w api repo branch auth files h) as (rest & E1 & F).
    destruct (quiet_events rest F) as (R & S & _).
    set (ev := EvFetch (ref_request api repo branch auth)
                       (answer_fetch w h (ref_request api repo branch auth))) in *.
    assert (R1 : ref_reads [ev] = 1%nat) by reflexivity.
    assert (S1 : sleeps [ev] = []) by reflexivity.
    destruct (run w (read_head_and_blobs api repo branch auth files) h)
      as [h1 [[[parentSha baseTree] blobMap] | e]]; cbn [fst] in E1; subst h1.
    - destruct (tree_commit_ref_steps w api repo branch auth message parentSha baseTree
                  (Part000.treeEntriesOf files blobMap) (h ++ ev :: rest)%list)
        as (evs2 & out & R2 & W).
      rewrite R2. cbn [fst].
      destruct (write_steps_quiet _ _ _ _ _ _ _ _ _ _ W) as (RW & SW).
      exists ([ev] ++ rest ++ evs2)%list.
      split; [rewrite <- !app_assoc; reflexivity|].
      rewrite !ref_reads_app, !sleeps_app, R, RW, R1, S, SW, S1. split; reflexivity.
    - exists ([ev] ++ rest)%list. split; [reflexivity|].
      rewrite ref_reads_app, sleeps_app, R, R1, S, S1. split; reflexivity. }
  destruct Q as (evs & E & R & S).
  destruct (requests_run w _ _ h B) as (evs' & E' & C).
  rewrite E in E'. apply app_inv_head in E'. subst evs'.
  exists evs. auto.
Qed.

(* ================================================================== *)
(** * The first handler of part_000: requests, failures, paths *)
(* ================================================================== *)

Lemma requests_uniquePrefix : requests_at_most 0 uniquePrefix.
Proof. unfold uniquePrefix. simpl. auto. Qed.

Lemma requests_now_iso : requests_at_most 0 now_iso.
Proof. intros t. exact I. Qed.

Lemma requests_appendEntry (contentObj : JsVal) (dir targetName fileType : string) :
  requests_at_most 0 (appendEntry contentObj dir targetName fileType).
Proof.
  unfold appendEntry.
  repeat first
    [ exact I
    | apply requests_lift
    | apply requests_now_iso
    | apply (requests_bind _ _ 0 0); [| intros ]
    | match goal with
      | |- requests_at_most _ (if ?b then _ else _) => destruct b
      end ].
Qed.

Section Requests000.

Variable decode_json : string -> DecodeOutcome.

Variable env : Env.

Lemma requests_existingSha (safePath : string) (overwrite : bool) :
  requests_at_most (if overwrite then 1 else 0) (Part000.existingSha env safePath overwrite).
Proof.
  unfold Part000.existingSha. destruct overwrite; [|exact I].
  apply (requests_bind _ _ 1 0); [apply requests_fetch|]. intros getRes.
  destruct (res_ok getRes); [|exact I].
  apply (requests_bind _ _ 0 0); [apply requests_json_of|]. intros meta.
  destruct (Js.is_array meta); [exact I|].
  apply (requests_bind _ _ 0 0); [apply requests_lift | intros; exact I].
Qed.

Lemma requests_putArtifact (dir finalName : string) (overwrite : bool)
      (b64 : Base64Text) (sha : JsVal) :
  requests_at_most (if overwrite then 1 else 2)
                   (Part000.putArtifact env dir finalName overwrite b64 sha).
Proof.
  unfold Part000.putArtifact. destruct overwrite.
  - apply (requests_bind _ _ 1 0); [apply requests_fetch|]. intros putRes.
    rewrite andb_false_r. exact I.
  - apply (requests_bind _ _ 1 1); [apply requests_fetch|]. intros putRes.
    destruct (_ && _ && _)%bool; [|exact I].
    apply (requests_bind _ _ 0 1).
    { destruct (safeJSON putRes); try exact I;
        (apply (requests_bind _ _ 0 0); [apply requests_lift | intros; exact I]). }
    intros msg.
    apply (requests_bind _ _ 0 1); [apply requests_lift|]. intros msgText.
    destruct (Str.includes "already exists" msgText); [|exact I].
    apply (requests_bind _ _ 0 1); [apply requests_uniquePrefix|]. intros prefix.
    apply (requests_bind _ _ 1 0); [apply requests_fetch | intros; exact I].
Qed.

Lemma requests_onRequestPost (request : UploadRequest) :
  requests_at_most 2 (Part000.onRequestPost decode_json request env).
Proof.
  unfold Part000.onRequestPost.
  destruct (admission request env) as [rejection | file]; [exact I|].
  destruct (maxBytes <? _); [exact I|].
  destruct (overwriteOf request).
  - apply (requests_bind _ _ 1 1); [apply (requests_existingSha _ true)|].
    intros [failure | sha]; [exact I|].
    apply (requests_bind _ _ 1 0); [apply (requests_putArtifact _ _ true)|].
    intros [[putRes targetName] safePath]. destruct (negb (res_ok putRes)); exact I.
  - apply (requests_bind _ _ 0 2); [apply (requests_existingSha _ false)|].
    intros [failure | sha]; [exact I|].
    apply (requests_bind _ _ 2 0); [apply (requests_putArtifact _ _ false)|].
    intros [[putRes targetName] safePath]. destruct (negb (res_ok putRes)); exact I.
Qed.

Lemma requests_updateContentJson (dir targetName fileType : string) :
  requests_at_most 2 (Part000.updateContentJson decode_json env dir targetName fileType).
Proof.
  unfold Part000.updateContentJson.
  apply (requests_try_catch _ _ 2 0); [|intros e; exact I].
  apply (requests_bind _ _ 1 1); [apply requests_fetch|]. intros getRes.
  apply (requests_bind _ _ 0 1).
  { destruct (res_ok getRes).
    - apply (requests_bind _ _ 0 0); [apply requests_json_of|]. intros meta.
      apply (requests_bind _ _ 0 0); [apply requests_lift|]. intros contentSha.
      apply (requests_bind _ _ 0 0); [apply requests_lift|]. intros content.
      apply (requests_bind _ _ 0 0); [apply requests_lift|]. intros text.
      destruct (decode_json _); try exact I.
      apply (requests_bind _ _ 0 0); [apply requests_now_iso | intros; exact I].
    - destruct (res_status getRes =? 404); [|exact I].
      apply (requests_bind _ _ 0 0); [apply requests_now_iso | intros; exact I]. }
  intros [[contentObj contentSha]|]; [|exact I].
  apply (requests_bind _ _ 0 1); [apply requests_appendEntry|]. intros newObj.
  apply (requests_bind _ _ 1 0); [apply requests_fetch|]. intros putRes.
  destruct (negb (res_ok putRes)); exact I.
Qed.

End Requests000.

(** X19.  Whatever the request and whatever the remote answers, the
    first handler of part_000 sends at most two requests before it
    answers, and the manifest update it leaves running sends at most
    two more. *)
Theorem first_handler_requests (decode_json : string -> DecodeOutcome) (w : World)
        (request : UploadRequest) (env : Env) (h : list Event) :
  (exists evs,
      fst (run w (Part000.onRequestPost decode_json request env) h) = (h ++ evs)%list /\
      (count_fetches evs <= 2)%nat) /\
  (forall (w' : World) (h' : list Event) (dir targetName fileType : string),
      exists evs,
        fst (run w' (Part000.updateContentJson decode_json env dir targetName fileType) h')
        = (h' ++ evs)%list /\
        (count_fetches evs <= 2)%nat).
Proof.
  split.
  - apply requests_run, requests_onRequestPost.
  - intros w' h' dir targetName fileType.
    apply requests_run, requests_updateContentJson.
Qed.


Lemma admission_statuses (request : UploadRequest) (env : Env) (r : HttpResponse) :
  admission request env = inl r -> In (http_status r) [401; 400; 413].
Proof.
  unfold admission.
  destruct (_ || _)%bool; [intros E; injection E as <-; simpl; auto|].
  destruct (negb _); [intros E; injection E as <-; simpl; auto|].
  destruct (form_file request); [discriminate|].
  intros E; injection E as <-; simpl; auto.
Qed.

Section Outcomes000.

Variable decode_json : string -> DecodeOutcome.

Variable w : World.

Variable env : Env.

(** What [putArtifact] returns is the answer to the last request it
    sent, a [PUT]. *)
Lemma putArtifact_last (dir finalName : string) (overwrite : bool)
      (b64 : Base64Text) (sha : JsVal) (h h' : list Event)
      (putRes : Response) (targetName safePath : string) :
  run w (Part000.putArtifact env dir finalName overwrite b64 sha) h
  = (h', Ok (putRes, targetName, safePath)) ->
  exists evs req,
    h' = (h ++ evs ++ [EvFetch req (Responded putRes)])%list /\ req_method req = PUT.
Proof.
  unfold Part000.putArtifact. rewrite run_bind, run_fetch.
  set (q1 := mkRequest PUT apiBase (GH_REPO env) (Contents (join_path dir finalName) None)
                       (Part000.ghHeaders (GH_TOKEN env))
                       (ContentsBody ("Upload " ++ finalName ++ " via moenaigomi.com")
                                     b64 (branchOf env) (Part000.truthy_opt sha))).
  destruct (answer_fetch w h q1) as [r1 | e1]; [|discriminate].
  destruct (negb (res_ok r1) && negb overwrite
            && ((res_status r1 =? 409) || (res_status r1 =? 422)))%bool.
  - rewrite run_bind.
    match goal with
    | |- context [run w ?p (h ++ [EvFetch q1 (Responded r1)])] =>
        assert (S1 : fst (run w p (h ++ [EvFetch q1 (Responded r1)]))
                     = (h ++ [EvFetch q1 (Responded r1)])%list);
        [ apply silent_run; destruct (safeJSON r1); only_steps
        | destruct (run w p (h ++ [EvFetch q1 (Responded r1)])) as [hm [msg | e]] ]
    end; simpl in S1; subst hm; [|discriminate].
    rewrite run_bind, run_lift.
    destruct (Js.to_string msg) as [msgText | e]; [|discriminate].
    destruct (Str.includes "already exists" msgText); [|discriminate].
    rewrite run_bind, run_uniquePrefix. cbv zeta.
    set (now := answer_date_now w (h ++ [EvFetch q1 (Responded r1)])).
    set (rnd := answer_random w ((h ++ [EvFetch q1 (Responded r1)]) ++ [EvDateNow now])).
    rewrite run_bind, run_fetch.
    match goal with
    | |- context [answer_fetch w ?hh ?q] =>
        set (q2 := q); destruct (answer_fetch w hh q2) as [r2 | e2]
    end; [|discriminate].
    cbn [run]. intros E. injection E as <- <- _ _.
    exists [EvFetch q1 (Responded r1); EvDateNow now; EvRandom rnd], q2.
    split; [|reflexivity].
    rewrite <- !app_assoc. reflexivity.
  - cbn [run]. intros E. injection E as <- <- _ _.
    exists [], q1. split; reflexivity.
Qed.

(** X20.  Every answer of the first handler of part_000 other than
    200 comes without a manifest update left running, and is one of
    three: a rejection made before any request (401, 400, 413); the
    400 given when the probe of an overwrite finds a directory; or the
    report of a refused write, whose status is the status the remote
    gave to the last write and whose detail is the remote's answer. *)
Theorem first_handler_failures (request : UploadRequest) (h h' : list Event)
        (response : HttpResponse) (task : option (Prog unit)) :
  run w (Part000.onRequestPost decode_json request env) h = (h', Ok (response, task)) ->
  http_status response <> 200 ->
  task = None /\
  ((h' = h /\ In (http_status response) [401; 400; 413]) \/
   (exists probe r,
       h' = (h ++ [EvFetch probe (Responded r)])%list /\ req_method probe = GET /\
       http_status response = 400) \/
   (exists evs req r,
       h' = (h ++ evs ++ [EvFetch req (Responded r)])%list /\ req_method req = PUT /\
       res_ok r = false /\
       http_status response = res_status r /\
       Js.get (http_body response) "error" = Ok (JStr "GitHub API error") /\
       Js.get (http_body response) "detail" = Ok (safeJSON r))).
Proof.
  unfold Part000.onRequestPost.
  destruct (admission request env) as [rej | file] eqn:Adm.
  { cbn [run]. intros E _. injection E as <- <- <-.
    split; [reflexivity|]. left. split; [reflexivity|].
    apply (admission_statuses request env). exact Adm. }
  destruct (maxBytes <? _).
  { cbn [run]. intros E _. injection E as <- <- <-.
    split; [reflexivity|]. left. split; [reflexivity|]. right. right. left. reflexivity. }
  rewrite run_bind.
  set (dir := dirOf request).
  set (finalName := finalNameOf (origOf file) (or_else (form_filename request) "")).
  assert (P : forall (h0 : list Event) (evs0 : list Event) (sha : JsVal),
             h0 = (h ++ evs0)%list ->
             run w (bind (Part000.putArtifact env dir finalName (overwriteOf request)
                                              (B64Bytes (file_bytes file)) sha)
                         (fun x => let '(putRes, targetName, safePath) := x in
                            if negb (res_ok putRes) then
                              Ret (json (JObj [("error", JStr "GitHub API error");
                                               ("status", num (res_status putRes));
                                               ("detail", safeJSON putRes)])
                                        (res_status putRes), None)
                            else
                              Ret (json (JObj [("ok", JBool true);
                                               ("path", JStr safePath);
                                               ("filename", JStr targetName);
                                               ("rawUrl",
                                                JStr (rawUrlOf (GH_REPO env) (branchOf env)
                                                               safePath));
                                               ("github", safeJSON putRes)]) 200,
                                   Some (Part000.updateContentJson decode_json env dir targetName
                                           (file_type file))))) h0
             = (h', Ok (response, task)) ->
             http_status response <> 200 ->
             task = None /\
             exists evs req r,
               h' = (h ++ evs ++ [EvFetch req (Responded r)])%list /\ req_method req = PUT /\
               res_ok r = false /\
               http_status response = res_status r /\
               Js.get (http_body response) "error" = Ok (JStr "GitHub API error") /\
               Js.get (http_body response) "detail" = Ok (safeJSON r)).
  { intros h0 evs0 sha E0. rewrite run_bind.
    destruct (run w (Part000.putArtifact env dir finalName (overwriteOf request)
                                         (B64Bytes (file_bytes file)) sha) h0)
      as [h1 [[[putRes targetName] safePath] | e]] eqn:R; [|discriminate].
    apply putArtifact_last in R. destruct R as (evs & req & -> & M).
    destruct (res_ok putRes) eqn:O; cbn [negb run]; intros E N; injection E as <- <- <-.
    - exfalso. apply N. reflexivity.
    - split; [reflexivity|].
      exists (evs0 ++ evs)%list, req, putRes.
      split; [rewrite E0, <- !app_assoc; reflexivity|].
      repeat split; assumption. }
  unfold Part000.existingSha. destruct (overwriteOf request).
  - rewrite run_bind, run_fetch.
    match goal with
    | |- context [answer_fetch w h ?q] =>
        set (probe := q); destruct (answer_fetch w h probe) as [r | e]
    end; [|discriminate].
    destruct (res_ok r).
    + rewrite run_bind. unfold json_of at 1.
      destruct (res_json r) as [meta|]; [|discriminate].
      cbn [run]. destruct (Js.is_array meta).
      * cbn [run]. intros E _. injection E as <- <- <-.
        split; [reflexivity|]. right. left. exists probe, r. repeat split.
      * rewrite run_bind, run_lift.
        destruct (Js.get meta "sha") as [sha | e]; [|discriminate].
        cbn [run]. intros E N.
        destruct (P _ [EvFetch probe (Responded r)] sha eq_refl E N) as (T & H).
        split; [exact T|]. right. right. exact H.
    + cbn [run]. intros E N.
      destruct (P _ [EvFetch probe (Responded r)] JUndefined eq_refl E N) as (T & H).
      split; [exact T|]. right. right. exact H.
  - cbn [run]. intros E N.
    destruct (P h [] JUndefined (eq_sym (app_nil_r h)) E N) as (T & H).
    split; [exact T|]. right. right. exact H.
Qed.

End Outcomes000.


(** The write is answered 500: the caller gets a 500 with the remote's
    answer as detail, and no manifest update is started. *)
Lemma first_handler_failures_witness :
  let out := run (scripted [server_error] clock_ms clock_iso "")
                 (Part000.onRequestPost sample_decode photo_upload pool_env) [] in
  let response := json (JObj [("error", JStr "GitHub API error");
                              ("status", num 500);
                              ("detail", JObj [("message", JStr "Server Error")])]) 500 in
  @None (Prog unit) = None /\
  ((fst out = [] /\ In (http_status response) [401; 400; 413]) \/
   (exists probe r,
       fst out = ([] ++ [EvFetch probe (Responded r)])%list /\ req_method probe = GET /\
       http_status response = 400) \/
   (exists evs req r,
       fst out = ([] ++ evs ++ [EvFetch req (Responded r)])%list /\ req_method req = PUT /\
       res_ok r = false /\
       http_status response = res_status r /\
       Js.get (http_body response) "error" = Ok (JStr "GitHub API error") /\
       Js.get (http_body response) "detail" = Ok (safeJSON r))).
Proof.
  intros out response.
  apply (first_handler_failures sample_decode (scripted [server_error] clock_ms clock_iso "")
                                pool_env photo_upload [] (fst out) response None).
  - reflexivity.
  - discriminate.
Defined.

(** X21.  A write refused with status 409 or 422 for a reason other
    than an existing file, on an upload without overwrite, makes the
    first handler of part_000 fail with a [TypeError] after that one
    request: it has read the body of the answer to look for "already
    exists" and reads it again for the report. *)
Theorem refused_write_throws (decode_json : string -> DecodeOutcome) (w : World)
        (request : UploadRequest) (env : Env) (file : UploadFile) (h : list Event)
        (r : Response) (props : list (string * JsVal)) (m : string) :
  admission request env = inr file ->
  Z.of_nat (List.length (file_bytes file)) <= maxBytes ->
  overwriteOf request = false ->
  (forall req, answer_fetch w h req = Responded r) ->
  res_status r = 409 \/ res_status r = 422 ->
  res_json r = Some (JObj props) ->
  Js.lookup "message" props = Some (JStr m) ->
  Str.includes "already exists" m = false ->
  exists req msg,
    run w (Part000.onRequestPost decode_json request env) h
    = ((h ++ [EvFetch req (Responded r)])%list, Thrown (TypeError msg)) /\
    req_method req = PUT.
Proof.
  intros Adm Size Ov A St J L N.
  unfold Part000.onRequestPost. rewrite Adm.
  destruct (maxBytes <? _) eqn:B; [apply Z.ltb_lt in B; lia|].
  rewrite Ov. cbn [Part000.existingSha]. rewrite run_bind. cbn [run].
  unfold Part000.putArtifact. rewrite !run_bind, run_fetch, A.
  assert (O : res_ok r = false).
  { unfold res_ok. destruct St as [-> | ->]; reflexivity. }
  assert (C : ((res_status r =? 409) || (res_status r =? 422))%bool = true).
  { destruct St as [-> | ->]; reflexivity. }
  rewrite O, C. cbn [negb andb].
  unfold safeJSON. rewrite J. rewrite !run_bind, run_lift.
  cbn [Js.get_opt Js.get]. rewrite L. cbn [run].
  assert (T : Js.to_string (if Js.truthy (JStr m) then JStr m else JStr "") = Ok m)
    by (destruct m; reflexivity).
  rewrite run_bind, run_lift, T, N. cbn [run].
  eexists. eexists. split; reflexivity.
Qed.

(** The remote answers 422 "Invalid request". *)
Lemma refused_write_throws_witness :
  exists req msg,
    run (answering invalid_request)
        (Part000.onRequestPost sample_decode photo_upload pool_env) []
    = (([] ++ [EvFetch req (Responded invalid_request)])%list, Thrown (TypeError msg)) /\
    req_method req = PUT.
Proof.
  apply (refused_write_throws sample_decode (answering invalid_request) photo_upload pool_env
           (mkFile "photo.png" "image/png" [137; 80; 78; 71]) [] invalid_request
           [("message", JStr "Invalid request")] "Invalid request").
  - reflexivity.
  - vm_compute. congruence.
  - reflexivity.
  - reflexivity.
  - right. reflexivity.
  - reflexivity.
  - reflexivity.
  - reflexivity.
Defined.

Section Paths000.

Variable decode_json : string -> DecodeOutcome.

Variable env : Env.



End Paths000.


(* ================================================================== *)
(** * src/image-validator.ts *)
(* ================================================================== *)

Lemma after_last_app (c : ascii) (a b : string) :
  Str.after_last c (a ++ String c b) = Str.after_last c b.
Proof.
  induction a as [|d a IH]; cbn [append Str.after_last].
  - rewrite Ascii.eqb_refl. reflexivity.
  - rewrite contains_char_append. cbn [Str.contains_char].
    rewrite Ascii.eqb_refl, orb_true_r.
    destruct (Ascii.eqb c d); exact IH.
Qed.

Lemma after_last_none (c : ascii) (s : string) :
  Str.contains_char c s = false -> Str.after_last c s = s.
Proof.
  destruct s as [|d r]; [reflexivity|]. cbn [Str.contains_char Str.after_last].
  intros H. apply orb_false_iff in H as [H1 H2]. rewrite H1, H2. reflexivity.
Qed.

Lemma lower_char_dot (d : ascii) :
  Ascii.eqb "." (Str.lower_char d) = Ascii.eqb "." d.
Proof. destruct d as [[] [] [] [] [] [] [] []]; reflexivity. Qed.

Lemma lower_char_idempotent (d : ascii) :
  Str.lower_char (Str.lower_char d) = Str.lower_char d.
Proof. destruct d as [[] [] [] [] [] [] [] []]; reflexivity. Qed.

Lemma to_lower_idempotent (s : string) : Str.to_lower (Str.to_lower s) = Str.to_lower s.
Proof.
  unfold Str.to_lower. induction s as [|d s IH]; cbn [Str.map]; [reflexivity|].
  rewrite lower_char_idempotent, IH. reflexivity.
Qed.

Lemma contains_dot_to_lower (s : string) :
  Str.contains_char "." (Str.to_lower s) = Str.contains_char "." s.
Proof.
  unfold Str.to_lower. induction s as [|d s IH]; cbn [Str.map Str.contains_char]; [reflexivity|].
  rewrite lower_char_dot, IH. reflexivity.
Qed.

Lemma after_last_to_lower (s : string) :
  Str.after_last "." (Str.to_lower s) = Str.to_lower (Str.after_last "." s).
Proof.
  induction s as [|d s IH]; [reflexivity|].
  change (Str.to_lower (String d s)) with (String (Str.lower_char d) (Str.to_lower s)).
  cbn [Str.after_last]. rewrite lower_char_dot, contains_dot_to_lower.
  destruct (Ascii.eqb "." d); [exact IH|].
  destruct (Str.contains_char "." s); [exact IH | reflexivity].
Qed.

(** X23.  [isImageByExt] looks at the text after the last dot of the
    name and at nothing before it, without regard to upper and lower
    case; a name without a dot is taken whole, so the bare name "png"
    is accepted. *)
Theorem isImageByExt_last_extension :
  (forall stem ext,
      Str.contains_char "." ext = false ->
      isImageByExt (Some (stem ++ "." ++ ext)) = isImageByExt (Some ext)) /\
  (forall name, isImageByExt (Some (Str.to_lower name)) = isImageByExt (Some name)) /\
  (forall name,
      Str.contains_char "." name = false ->
      isImageByExt (Some name) = includes_string (Str.to_lower name) allowedExtensions) /\
  isImageByExt None = false.
Proof.
  split; [|split; [|split; [|reflexivity]]].
  - intros stem ext N. unfold isImageByExt.
    change (stem ++ "." ++ ext) with (stem ++ String "." ext).
    rewrite after_last_app, (after_last_none _ _ N).
    destruct stem; destruct ext; reflexivity.
  - intros name. unfold isImageByExt.
    rewrite after_last_to_lower, to_lower_idempotent.
    destruct name; reflexivity.
  - intros name N. unfold isImageByExt. rewrite (after_last_none _ _ N).
    destruct name; reflexivity.
Qed.

Lemma byte_is_app (bytes extra : list Z) (i : nat) (v : Z) :
  (i < List.length bytes)%nat -> byte_is (bytes ++ extra) i v = byte_is bytes i v.
Proof. intros L. unfold byte_is. rewrite nth_error_app1 by exact L. reflexivity. Qed.

Lemma subarray_app (bytes extra : list Z) (i j : nat) :
  (j <= List.length bytes)%nat -> subarray (bytes ++ extra) i j = subarray bytes i j.
Proof.
  intros L. unfold subarray.
  rewrite skipn_app, firstn_app, length_skipn.
  replace (j - i - (List.length bytes - i))%nat with O by lia.
  rewrite firstn_O. apply app_nil_r.
Qed.

Lemma chars_at_app (bytes extra : list Z) (i n : nat) :
  (i + n <= List.length bytes)%nat -> chars_at (bytes ++ extra) i n = chars_at bytes i n.
Proof. intros L. unfold chars_at. rewrite subarray_app by exact L. reflexivity. Qed.

(** X24.  Unless the content begins with "<", [isImageBuffer] decides
    on the first twelve bytes: what follows them does not change the
    answer.  Fewer than four bytes are never an image. *)
Theorem isImageBuffer_header (bytes extra : list Z) :
  ((List.length bytes < 4)%nat -> isImageBuffer bytes = false) /\
  ((12 <= List.length bytes)%nat -> byte_is bytes 0 60 = false ->
   isImageBuffer (bytes ++ extra) = isImageBuffer bytes).
Proof.
  split.
  - intros L. unfold isImageBuffer. apply Nat.ltb_lt in L. rewrite L. reflexivity.
  - intros L N. unfold isImageBuffer.
    rewrite length_app.
    rewrite !byte_is_app by lia. rewrite !chars_at_app by (simpl; lia).
    rewrite N. cbn [andb].
    assert (L4 : (List.length bytes <? 4)%nat = false) by (apply Nat.ltb_ge; lia).
    assert (L4' : (List.length bytes + List.length extra <? 4)%nat = false)
      by (apply Nat.ltb_ge; lia).
    assert (L12 : (12 <=? List.length bytes)%nat = true) by (apply Nat.leb_le; lia).
    assert (L12' : (12 <=? List.length bytes + List.length extra)%nat = true)
      by (apply Nat.leb_le; lia).
    rewrite L4, L4', L12, L12'. reflexivity.
Qed.

(** A JPEG header followed by text. *)
Lemma isImageBuffer_header_witness :
  isImageBuffer ([255; 216; 255; 224; 0; 16; 74; 70; 73; 70; 0; 1] ++ [60; 115; 118; 103])
  = isImageBuffer [255; 216; 255; 224; 0; 16; 74; 70; 73; 70; 0; 1].
Proof.
  apply (proj2 (isImageBuffer_header [255; 216; 255; 224; 0; 16; 74; 70; 73; 70; 0; 1]
                                     [60; 115; 118; 103]));
    [simpl; lia | reflexivity].
Defined.

Lemma probe_prefix (bytes extra : list Z) :
  (4096 <= List.length bytes)%nat ->
  subarray (bytes ++ extra) 0
           (Nat.min 4096 (if (List.length (bytes ++ extra) =? 0)%nat
                          then 4096 else List.length (bytes ++ extra)))
  = subarray bytes 0
             (Nat.min 4096 (if (List.length bytes =? 0)%nat then 4096 else List.length bytes)).
Proof.
  intros L. rewrite length_app.
  destruct (Nat.eqb_spec (List.length bytes + List.length extra) 0) as [E | _]; [lia|].
  destruct (Nat.eqb_spec (List.length bytes) 0) as [E | _]; [lia|].
  rewrite !Nat.min_l by lia.
  apply subarray_app. exact L.
Qed.

(** X25.  [validateFileIsImage] accepts a file on its declared type
    alone when that begins with "image/", then on its name alone;
    only then does it look at the content, and there at the first
    4096 bytes: what follows them does not change the answer. *)
Theorem validateFileIsImage_probe (name type : string) (bytes extra : list Z) :
  (String.prefix "image/" type = true -> validateFileIsImage (mkFile name type bytes) = true) /\
  (isImageByExt (Some name) = true -> validateFileIsImage (mkFile name type bytes) = true) /\
  ((4096 <= List.length bytes)%nat ->
   validateFileIsImage (mkFile name type (bytes ++ extra))
   = validateFileIsImage (mkFile name type bytes)).
Proof.
  unfold validateFileIsImage. cbn [file_type file_name file_bytes].
  split; [|split].
  - intros P. unfold isImageByMime. destruct type as [|c t]; [discriminate|].
    cbn [Str.is_empty]. rewrite P, orb_true_r. reflexivity.
  - intros E. rewrite E. destruct (isImageByMime (Some type)); reflexivity.
  - intros L. rewrite (probe_prefix bytes extra L). reflexivity.
Qed.

(* ================================================================== *)
(** * How many requests an upload to part_001 sends *)
(* ================================================================== *)

Lemma requests_attempts (body : Prog JsVal) (n : nat) (remaining : nat) (attempt : Z) :
  requests_at_most n body ->
  requests_at_most (remaining * n) (Part001.attempts remaining attempt body).
Proof.
  intros Hb. revert attempt. induction remaining as [|k IH]; intros attempt; [exact I|].
  cbn [Part001.attempts Nat.mul].
  apply requests_try_catch; [exact Hb|].
  intros e. destruct (attempt <? 3); [|exact I].
  cbn [requests_at_most]. apply IH.
Qed.

Lemma set_length_le {A} (k : string) (v : A) (l : list (string * A)) :
  (List.length (Js.set k v l) <= S (List.length l))%nat.
Proof.
  induction l as [|[k' v'] l IH]; cbn [Js.set List.length]; [lia|].
  destruct (String.eqb k k'); cbn [List.length]; lia.
Qed.

Section Requests001.

Variable decode_json : string -> DecodeOutcome.

Variable env : Env.

Lemma requests_resolveTarget (dir finalName : string) (overwrite : bool) :
  requests_at_most 1 (Part001.resolveTarget env dir finalName overwrite).
Proof.
  unfold Part001.resolveTarget. destruct overwrite; [exact I|].
  apply (requests_bind _ _ 1 0); [apply requests_fetch|]. intros checkRes.
  destruct (res_ok checkRes).
  - apply (requests_bind _ _ 0 0); [apply requests_uniquePrefix | intros; exact I].
  - destruct (negb _); exact I.
Qed.

Lemma requests_fetchManifest :
  requests_at_most 1 (Part001.fetchManifest decode_json env).
Proof.
  unfold Part001.fetchManifest.
  apply (requests_bind _ _ 1 0); [apply requests_fetch|]. intros getRes.
  destruct (res_ok getRes).
  - apply (requests_bind _ _ 0 0); [apply requests_json_of|]. intros meta.
    apply (requests_bind _ _ 0 0); [apply requests_lift|]. intros content.
    apply (requests_bind _ _ 0 0); [apply requests_lift|]. intros text.
    destruct (decode_json _); try exact I.
    apply (requests_bind _ _ 0 0); [apply requests_now_iso | intros; exact I].
  - destruct (res_status getRes =? 404); [|exact I].
    apply (requests_bind _ _ 0 0); [apply requests_now_iso | intros; exact I].
Qed.

Lemma requests_prepareUpload (request : UploadRequest) :
  requests_at_most 2 (Part001.prepareUpload decode_json request env).
Proof.
  unfold Part001.prepareUpload.
  destruct (admission request env) as [rejection | file]; [exact I|].
  destruct (maxBytes <? _); [exact I|].
  apply (requests_bind _ _ 1 1); [apply requests_resolveTarget|].
  intros [failure | [targetName safePath]]; [exact I|].
  apply (requests_bind _ _ 1 0); [apply requests_fetchManifest|].
  intros [failure | contentObj]; [exact I|].
  apply (requests_bind _ _ 0 0); [apply requests_appendEntry | intros; exact I].
Qed.

(** The change-set has at most two files. *)
Lemma prepareUpload_two_files (request : UploadRequest) :
  results (fun r => match r with
                    | inl _ => True
                    | inr p => (List.length (Part001.p_filesToCommit p) <= 2)%nat
                    end)
          (Part001.prepareUpload decode_json request env).
Proof.
  unfold Part001.prepareUpload.
  destruct (admission request env) as [rejection | file]; [exact I|].
  destruct (maxBytes <? _); [exact I|].
  eapply results_bind; [apply results_any|].
  intros [failure | [targetName safePath]] _; [exact I|].
  eapply results_bind; [apply results_any|].
  intros [failure | contentObj] _; [exact I|].
  eapply results_bind; [apply results_any|]. intros newObj _.
  cbn [results Part001.p_filesToCommit].
  match goal with
  | |- (List.length (Js.set ?k ?v ?l) <= 2)%nat =>
      pose proof (set_length_le k v l) as L
  end.
  simpl in L |- *. exact L.
Qed.

Lemma requests_pipeline (api repo branch : string) (files : list (string * FileSpec))
      (message auth : string) :
  requests_at_most (2 + List.length files)
                   (Part001.pipeline api repo branch files message auth).
Proof.
  unfold Part001.pipeline.
  apply (requests_mono _ ((2 + List.length files) + 0)); [lia|].
  apply requests_bind; [apply requests_read_head_and_blobs|].
  intros [[parentSha baseTree] blobMap]. exact I.
Qed.

Lemma requests_onRequestPost001 (request : UploadRequest) :
  requests_at_most 14 (Part001.onRequestPost decode_json request env).
Proof.
  unfold Part001.onRequestPost.
  apply (requests_bind_results _ _ _ 2 12 (requests_prepareUpload request)
                               (prepareUpload_two_files request)).
  intros [response | p] L; [exact I|].
  apply (requests_bind _ _ 12 0); [|intros; exact I].
  unfold Part001.commitFilesAtomically.
  apply (requests_mono _ (3 * (2 + List.length (Part001.p_filesToCommit p)))); [lia|].
  apply requests_attempts, requests_pipeline.
Qed.

End Requests001.

(** X26.  Whatever the request and whatever the remote answers, an
    upload to part_001 sends at most fourteen requests: the probe,
    the manifest read, and three runs of the pipeline, each of which
    reads the ref and the commit and creates at most two blobs.  A
    well-formed upload to a remote that accepts everything sends all
    fourteen. *)
Theorem upload_requests_bounded (decode_json : string -> DecodeOutcome) (w : World)
        (request : UploadRequest) (env : Env) (h : list Event) :
  (exists evs,
      fst (run w (Part001.onRequestPost decode_json request env) h) = (h ++ evs)%list /\
      (count_fetches evs <= 14)%nat) /\
  count_fetches (fst (run healthy_remote (Part001.onRequestPost no_decode photo_upload pool_env) []))
  = 14%nat.
Proof.
  split; [apply requests_run, requests_onRequestPost001|].
  vm_compute. reflexivity.
Qed.

(* ================================================================== *)
(** * The second handler of part_000 *)
(* ================================================================== *)

(** X27.  In the second handler of part_000, when a write without
    overwrite is refused because the file already exists, the file is
    written under [<prefix>-<sanitized name>]: the unique name is made
    from the sanitized name, not from the final name, so an extension
    that was appended to make the final name is not in it. *)
Theorem retry_name_from_sanitized_name (request : UploadRequest) (env : Env)
        (file : UploadFile) (r1 r2 : Response) (props : list (string * JsVal))
        (m : string) (ms : Z) (iso rnd : string) :
  admission request env = inr file ->
  Z.of_nat (List.length (file_bytes file)) <= maxBytes ->
  overwriteOf request = false ->
  res_status r1 = 409 \/ res_status r1 = 422 ->
  res_json r1 = Some (JObj props) ->
  Js.lookup "message" props = Some (JStr m) ->
  Str.includes "already exists" m = true ->
  res_ok r2 = true ->
  let dir := dirOf request in
  let safeOrig := Part000b.safeOrigOf request file in
  let name := uniqueName ms rnd safeOrig in
  exists q1 q2 body,
    run (scripted [Responded r1; Responded r2] ms iso rnd)
        (Part000b.onRequestPost request env) []
    = ([EvFetch q1 (Responded r1); EvDateNow ms; EvRandom rnd; EvFetch q2 (Responded r2)],
       Ok (json body 200)) /\
    req_method q2 = PUT /\
    req_endpoint q2 = Contents (join_path dir name) None /\
    Js.get body "filename" = Ok (JStr name) /\
    Js.get body "path" = Ok (JStr (join_path dir name)) /\
    (forall ext, ext <> "" ->
                 finalNameFor request = safeOrig ++ "." ++ ext ->
                 name <> uniqueName ms rnd (finalNameFor request)).
Proof.
  intros Adm Size Ov St J L Inc O2 dir safeOrig name.
  unfold Part000b.onRequestPost. rewrite Adm.
  destruct (maxBytes <? _) eqn:B; [apply Z.ltb_lt in B; lia|].
  rewrite Ov. cbn [Part000.existingSha]. rewrite run_bind. cbn [run].
  unfold Part000b.putArtifact. rewrite !run_bind, run_fetch.
  cbn [scripted answer_fetch count_fetches nth].
  assert (O1 : res_ok r1 = false).
  { unfold res_ok. destruct St as [-> | ->]; reflexivity. }
  assert (C : ((res_status r1 =? 409) || (res_status r1 =? 422))%bool = true).
  { destruct St as [-> | ->]; reflexivity. }
  rewrite O1, C. cbn [negb andb].
  unfold safeJSON. rewrite J. rewrite !run_bind, run_lift.
  cbn [Js.get_opt Js.get]. rewrite L. cbn [run].
  assert (T : Js.to_string (if Js.truthy (JStr m) then JStr m else JStr "") = Ok m)
    by (destruct m; reflexivity).
  rewrite run_bind, run_lift, T, Inc.
  rewrite run_bind, run_uniquePrefix. cbv zeta.
  cbn [scripted answer_date_now answer_random].
  rewrite run_bind, run_fetch.
  cbn [scripted answer_fetch count_fetches nth app].
  cbn [run]. rewrite O2. cbn [negb run].
  eexists. eexists. eexists. split; [reflexivity|].
  split; [reflexivity|]. split; [reflexivity|].
  split; [reflexivity|]. split; [reflexivity|].
  intros ext N F E. rewrite F in E. unfold name, uniqueName in E.
  apply append_cancel_l in E. apply append_cancel_l in E.
  apply (f_equal String.length) in E. rewrite !length_append in E.
  destruct ext; [congruence | simpl in E; lia].
Qed.

(** "photo.png" sent under the name "pic": the final name is
    "pic.png", and the name written after the refusal ends in "pic". *)
Lemma retry_name_from_sanitized_name_witness :
  let request := mkUpload (Some "admin-secret") (Some "multipart/form-data")
                          (Some (mkFile "photo.png" "image/png" [137; 80; 78; 71]))
                          (Some "images") (Some "pic") None in
  let r1 := mkResponse 422 "" (Some (JObj [("message", JStr "sha already exists")])) in
  let r2 := mkResponse 201 "" (Some (JObj [])) in
  finalNameFor request = "pic.png" /\
  exists q1 q2 body,
    run (scripted [Responded r1; Responded r2] clock_ms clock_iso "0.4fzyo82mvyr")
        (Part000b.onRequestPost request pool_env) []
    = ([EvFetch q1 (Responded r1); EvDateNow clock_ms; EvRandom "0.4fzyo82mvyr";
        EvFetch q2 (Responded r2)],
       Ok (json body 200)) /\
    Js.get body "filename" = Ok (JStr "m5d4ruo0-4fzy-pic").
Proof.
  intros request r1 r2. split; [reflexivity|].
  destruct (retry_name_from_sanitized_name request pool_env
              (mkFile "photo.png" "image/png" [137; 80; 78; 71]) r1 r2
              [("message", JStr "sha already exists")] "sha already exists"
              clock_ms clock_iso "0.4fzyo82mvyr")
    as (q1 & q2 & body & R & _ & _ & F & _).
  - reflexivity.
  - vm_compute. congruence.
  - reflexivity.
  - right. reflexivity.
  - reflexivity.
  - reflexivity.
  - reflexivity.
  - reflexivity.
  - exists q1, q2, body. split; [exact R | exact F].
Defined.

(* ================================================================== *)
(** * src/api/upload.ts *)
(* ================================================================== *)

Lemma encode_char_no_slash (c : ascii) :
  Str.contains_char "/" (UploadTs.encode_char c) = false.
Proof. destruct c as [[] [] [] [] [] [] [] []]; reflexivity. Qed.

Lemma encode_char_filename (c : ascii) :
  filename_char c = true -> UploadTs.encode_char c = String c "".
Proof. destruct c as [[] [] [] [] [] [] [] []]; intros H; try discriminate H; reflexivity. Qed.

Lemma encodeURIComponent_app (a b : string) :
  UploadTs.encodeURIComponent (a ++ b)
  = UploadTs.encodeURIComponent a ++ UploadTs.encodeURIComponent b.
Proof.
  induction a as [|c a IH]; cbn [append UploadTs.encodeURIComponent]; [reflexivity|].
  rewrite IH, append_assoc. reflexivity.
Qed.

Lemma encodeURIComponent_no_slash (s : string) :
  Str.contains_char "/" (UploadTs.encodeURIComponent s) = false.
Proof.
  induction s as [|c s IH]; cbn [UploadTs.encodeURIComponent]; [reflexivity|].
  rewrite contains_char_append, encode_char_no_slash, IH. reflexivity.
Qed.

Section UploadTsFacts.

Variable env : Env.

Lemma upload_ts_segments (request : UploadRequest) :
  only single_segment (UploadTs.onRequestPost request env).
Proof.
  unfold UploadTs.onRequestPost.
  destruct (admission request env) as [rejection | file]; [exact I|].
  apply only_bind; [apply only_now_iso; intros; exact I|]. intros iso.
  apply only_bind; [unfold uniquePrefix; simpl; auto|]. intros prefix.
  destruct (maxBytes <? _); [exact I|].
  assert (S : forall q ref a,
             single_segment
               (EvFetch (mkRequest q apiBase (GH_REPO env)
                                   (Contents (UploadTs.encodeURIComponent
                                                (UploadTs.pathOf (UploadTs.dirOf request) iso prefix
                                                   (sanitizeFilename
                                                      (if Str.is_empty
                                                            (or_else (form_filename request) "")
                                                       then origOf file
                                                       else or_else (form_filename request) ""))))
                                             ref)
                                   (Part000.ghHeaders (GH_TOKEN env)) NoBody) a)).
  { intros q ref a. cbn [single_segment req_endpoint].
    eexists. eexists. split; [reflexivity | apply encodeURIComponent_no_slash]. }
  apply only_bind.
  - destruct (overwriteOf request); [|exact I].
    apply only_bind; [apply only_fetch; intros a; apply S|]. intros getRes.
    destruct (res_ok getRes); [|exact I].
    apply only_bind; [apply only_json_of | intros; apply only_lift].
  - intros sha. apply only_bind.
    + apply only_fetch. intros a. cbn [single_segment req_endpoint].
      eexists. eexists. split; [reflexivity | apply encodeURIComponent_no_slash].
    + intros putRes. destruct (negb (res_ok putRes)); exact I.
Qed.

Lemma requests_upload_ts (request : UploadRequest) :
  requests_at_most 2 (UploadTs.onRequestPost request env).
Proof.
  unfold UploadTs.onRequestPost.
  destruct (admission request env) as [rejection | file]; [exact I|].
  apply (requests_bind _ _ 0 2); [apply requests_now_iso|]. intros iso.
  apply (requests_bind _ _ 0 2); [apply requests_uniquePrefix|]. intros prefix.
  destruct (maxBytes <? _); [exact I|].
  apply (requests_bind _ _ 1 1).
  - destruct (overwriteOf request); [|exact I].
    apply (requests_bind _ _ 1 0); [apply requests_fetch|]. intros getRes.
    destruct (res_ok getRes); [|exact I].
    apply (requests_bind _ _ 0 0); [apply requests_json_of | intros; apply requests_lift].
  - intros sha. apply (requests_bind _ _ 1 0); [apply requests_fetch|].
    intros putRes. destruct (negb (res_ok putRes)); exact I.
Qed.

End UploadTsFacts.

(** X28.  The handler of src/api/upload.ts sends at most two requests,
    and addresses each to a path of a single segment:
    [encodeURIComponent] writes every "/" of the dated path as "%2F"
    and leaves the characters of a sanitized name as they are. *)
Theorem upload_ts_single_segment (w : World) (request : UploadRequest) (env : Env)
        (h : list Event) :
  (exists evs,
      fst (run w (UploadTs.onRequestPost request env) h) = (h ++ evs)%list /\
      (count_fetches evs <= 2)%nat /\
      Forall single_segment evs) /\
  (forall a b,
      UploadTs.encodeURIComponent (a ++ "/" ++ b)
      = UploadTs.encodeURIComponent a ++ "%2F" ++ UploadTs.encodeURIComponent b) /\
  (forall s, Str.all filename_char s = true -> UploadTs.encodeURIComponent s = s).
Proof.
  split; [|split].
  - destruct (only_run _ w _ h (upload_ts_segments env request)) as (evs & E & F).
    destruct (requests_run w _ _ h (requests_upload_ts env request)) as (evs' & E' & C).
    rewrite E in E'. apply app_inv_head in E'. subst evs'.
    exists evs. auto.
  - intros a b. rewrite encodeURIComponent_app. reflexivity.
  - intros s. induction s as [|c s IH]; [reflexivity|].
    cbn [Str.all UploadTs.encodeURIComponent]. intros H.
    apply andb_true_iff in H as [Hc Hs].
    rewrite (encode_char_filename c Hc), (IH Hs). reflexivity.
Qed.

(** X29.  Every answer of the handler of src/api/upload.ts is either
    a rejection made before any request (401, 400, 413), or follows
    the answer the remote gave to the write: 200 with the path that
    was written when the write was accepted, the remote's own status
    and answer otherwise. *)
Theorem upload_ts_outcome (w : World) (request : UploadRequest) (env : Env)
        (h h' : list Event) (response : HttpResponse) :
  run w (UploadTs.onRequestPost request env) h = (h', Ok response) ->
  (exists evs,
      h' = (h ++ evs)%list /\ count_fetches evs = 0%nat /\
      In (http_status response) [401; 400; 413]) \/
  (exists evs req r path,
      h' = (h ++ evs ++ [EvFetch req (Responded r)])%list /\
      req_method req = PUT /\
      req_endpoint req = Contents (UploadTs.encodeURIComponent path) None /\
      if res_ok r
      then http_status response = 200 /\
           Js.get (http_body response) "path" = Ok (JStr path) /\
           Js.get (http_body response) "github" = Ok (safeJSON r)
      else http_status response = res_status r /\
           Js.get (http_body response) "detail" = Ok (safeJSON r)).
Proof.
  unfold UploadTs.onRequestPost.
  destruct (admission request env) as [rej | file] eqn:Adm.
  { cbn [run]. intros E. injection E as <- <-. left. exists [].
    split; [symmetry; apply app_nil_r|]. split; [reflexivity|].
    apply (admission_statuses request env). exact Adm. }
  rewrite run_bind, run_now_iso.
  set (t := answer_now_iso w h).
  rewrite run_bind, run_uniquePrefix. cbv zeta.
  set (now := answer_date_now w (h ++ [EvNowIso t])).
  set (rnd := answer_random w ((h ++ [EvNowIso t]) ++ [EvDateNow now])).
  set (path := UploadTs.pathOf (UploadTs.dirOf request) t
                 (to_string36 now ++ "-" ++ random_part rnd)
                 (sanitizeFilename
                    (if Str.is_empty (or_else (form_filename request) "")
                     then origOf file else or_else (form_filename request) ""))).
  destruct (maxBytes <? _).
  { cbn [run]. intros E. injection E as <- <-. left.
    exists [EvNowIso t; EvDateNow now; EvRandom rnd].
    split; [rewrite <- !app_assoc; reflexivity|]. split; [reflexivity|].
    right. right. left. reflexivity. }
  rewrite run_bind.
  destruct (overwriteOf request).
  - rewrite run_bind, run_fetch.
    match goal with
    | |- context [answer_fetch w ?hh ?q] =>
        set (probe := q); destruct (answer_fetch w hh probe) as [rp | e]
    end; [|discriminate].
    assert (K : forall sha : Result JsVal,
               run w (lift sha) (((h ++ [EvNowIso t]) ++ [EvDateNow now; EvRandom rnd])
                                   ++ [EvFetch probe (Responded rp)])
               = ((h ++ [EvNowIso t; EvDateNow now; EvRandom rnd;
                         EvFetch probe (Responded rp)])%list, sha)).
    { intros sha. rewrite run_lift, <- !app_assoc. reflexivity. }
    destruct (res_ok rp).
    + rewrite run_bind. unfold json_of at 1.
      destruct (res_json rp) as [meta|]; [|discriminate].
      cbn [run]. rewrite K.
      destruct (Js.get meta "sha") as [sha | e]; [|discriminate].
      rewrite run_bind, run_fetch.
      match goal with
      | |- context [answer_fetch w ?hh ?q] =>
          set (req := q); destruct (answer_fetch w hh req) as [r | e]
      end; [|discriminate].
      intros E. right.
      exists [EvNowIso t; EvDateNow now; EvRandom rnd; EvFetch probe (Responded rp)],
             req, r, path.
      destruct (res_ok r); cbn [negb run] in E; injection E as <- <-;
        (split; [rewrite <- !app_assoc; reflexivity|]); repeat split.
    + change (@Ret JsVal JUndefined) with (lift (Ok JUndefined)). rewrite K.
      rewrite run_bind, run_fetch.
      match goal with
      | |- context [answer_fetch w ?hh ?q] =>
          set (req := q); destruct (answer_fetch w hh req) as [r | e]
      end; [|discriminate].
      intros E. right.
      exists [EvNowIso t; EvDateNow now; EvRandom rnd; EvFetch probe (Responded rp)],
             req, r, path.
      destruct (res_ok r); cbn [negb run] in E; injection E as <- <-;
        (split; [rewrite <- !app_assoc; reflexivity|]); repeat split.
  - cbn [run]. rewrite run_bind, run_fetch.
    match goal with
    | |- context [answer_fetch w ?hh ?q] =>
        set (req := q); destruct (answer_fetch w hh req) as [r | e]
    end; [|discriminate].
    intros E. right.
    exists [EvNowIso t; EvDateNow now; EvRandom rnd], req, r, path.
    destruct (res_ok r); cbn [negb run] in E; injection E as <- <-;
      (split; [rewrite <- !app_assoc; reflexivity|]); repeat split.
Qed.

(** The write is accepted: the caller is told the dated path, and the
    request names it with "%2F" for every "/". *)
Lemma upload_ts_outcome_witness :
  let out := run (scripted [respond 201 (JObj [])] clock_ms clock_iso "0.4fzyo82mvyr")
                 (UploadTs.onRequestPost photo_upload pool_env) [] in
  snd out
  = Ok (json (JObj [("ok", JBool true);
                    ("path", JStr "images/2025/01/01/m5d4ruo0-4fzy-photo.png");
                    ("rawUrl", JStr
                       "https://raw.githubusercontent.com/nagito-hiroshima/pool/main/images/2025/01/01/m5d4ruo0-4fzy-photo.png");
                    ("github", JObj [])]) 200) /\
  exists evs req r,
    fst out = ([] ++ evs ++ [EvFetch req (Responded r)])%list /\
    req_endpoint req = Contents "images%2F2025%2F01%2F01%2Fm5d4ruo0-4fzy-photo.png" None.
Proof.
  intros out. split; [reflexivity|].
  destruct (upload_ts_outcome (scripted [respond 201 (JObj [])] clock_ms clock_iso "0.4fzyo82mvyr")
              photo_upload pool_env [] (fst out)
              (json (JObj [("ok", JBool true);
                           ("path", JStr "images/2025/01/01/m5d4ruo0-4fzy-photo.png");
                           ("rawUrl", JStr
                              "https://raw.githubusercontent.com/nagito-hiroshima/pool/main/images/2025/01/01/m5d4ruo0-4fzy-photo.png");
                           ("github", JObj [])]) 200) eq_refl)
    as [(evs & _ & _ & [S | [S | [S | []]]]) | (evs & req & r & path & E & _ & P & O)];
    try discriminate S.
  exists evs, req, r. split; [exact E|].
  assert (R : r = mkResponse 201 "" (Some (JObj []))).
  { apply (f_equal (fun l => last l (EvSleep 0))) in E.
    rewrite app_nil_l, last_last in E. vm_compute in E. injection E as _ E. symmetry. exact E. }
  subst r. cbn [res_ok res_status Z.leb Z.compare Pos.compare Pos.compare_cont andb] in O.
  destruct O as (_ & G & _). cbn in G. injection G as G. subst path. exact P.
Defined.

Lemma collapse_nonempty (s : string) :
  s <> "" -> UploadTs.collapse_slashes s <> "".
Proof.
  destruct s as [|c [|d r]]; [congruence | discriminate|]. intros _.
  cbn [UploadTs.collapse_slashes]. destruct (_ && _)%bool; discriminate.
Qed.

Lemma collapse_head (s : string) :
  head_fails (is_char "/") s -> head_fails (is_char "/") (UploadTs.collapse_slashes s).
Proof.
  destruct s as [|c [|d r]]; [auto | auto|].
  cbn [head_fails UploadTs.collapse_slashes]. unfold is_char. intros H.
  rewrite Ascii.eqb_sym, H. cbn [andb head_fails]. rewrite Ascii.eqb_sym in H. 
  rewrite Ascii.eqb_sym. exact H.
Qed.

Lemma last_fails_cons (p : ascii -> bool) (c : ascii) (r : string) :
  r <> "" -> (last_fails p (String c r) <-> last_fails p r).
Proof.
  intros N. unfold last_fails. rewrite rev_cons.
  pose proof (rev_nonempty r N) as R.
  destruct (Str.rev r); [congruence | reflexivity].
Qed.

Lemma collapse_two (c d : ascii) (r : string) :
  UploadTs.collapse_slashes (String c (String d r))
  = if (Ascii.eqb c "/" && Ascii.eqb d "/")%bool
    then String "/" (UploadTs.collapse_slashes r)
    else String c (UploadTs.collapse_slashes (String d r)).
Proof. reflexivity. Qed.

Lemma collapse_last_bounded (n : nat) :
  forall s, (String.length s <= n)%nat ->
            last_fails (is_char "/") s ->
            last_fails (is_char "/") (UploadTs.collapse_slashes s).
Proof.
  induction n as [|n IH]; intros s L H.
  - destruct s; [exact H | simpl in L; lia].
  - destruct s as [|c [|d r]]; [exact H | exact H|].
    rewrite collapse_two. cbn [String.length] in L.
    destruct (Ascii.eqb c "/" && Ascii.eqb d "/")%bool eqn:B.
    + apply andb_true_iff in B as [_ B]. apply Ascii.eqb_eq in B. subst d.
      destruct r as [|e r'].
      * exfalso. apply last_fails_cons in H; [|discriminate].
        unfold last_fails in H. simpl in H. discriminate H.
      * apply last_fails_cons in H; [|discriminate].
        apply last_fails_cons in H; [|discriminate].
        apply last_fails_cons; [apply collapse_nonempty; discriminate|].
        apply IH; [lia | exact H].
    + apply last_fails_cons in H; [|discriminate].
      apply last_fails_cons; [apply collapse_nonempty; discriminate|].
      apply IH; [cbn [String.length]; lia | exact H].
Qed.

Lemma collapse_length (n : nat) :
  forall s, (String.length s <= n)%nat ->
            (String.length (UploadTs.collapse_slashes s) <= String.length s)%nat.
Proof.
  induction n as [|n IH]; intros s L.
  - destruct s; [simpl; lia | simpl in L; lia].
  - destruct s as [|c [|d r]]; [simpl; lia | simpl; lia|].
    rewrite collapse_two. cbn [String.length] in L.
    destruct (_ && _)%bool.
    + assert (Lr : (String.length r <= n)%nat) by lia.
      specialize (IH r Lr). cbn [String.length]. lia.
    + assert (Lr : (String.length (String d r) <= n)%nat) by (cbn [String.length]; lia).
      specialize (IH (String d r) Lr). cbn [String.length] in IH |- *. lia.
Qed.

(** X30.  The path the handler of src/api/upload.ts builds is never
    empty, has no "/" at either end, and is no longer than the
    directory, the date, the prefix and the sanitized name put
    together: collapsing "//" only removes characters. *)
Theorem dated_path_no_edge_slash (request : UploadRequest) (iso prefix name : string) :
  let dir := UploadTs.dirOf request in
  let safeOrig := sanitizeFilename name in
  let path := UploadTs.pathOf dir iso prefix safeOrig in
  path <> "" /\
  head_fails (is_char "/") path /\
  last_fails (is_char "/") path /\
  (String.length path
   <= String.length (dir ++ "/" ++ UploadTs.datedPrefix iso ++ prefix ++ "-" ++ safeOrig))%nat.
Proof.
  intros dir safeOrig path. subst path. unfold UploadTs.pathOf.
  destruct (sanitizeDir_facts
              (if Str.is_empty (or_else (form_dir request) "")
               then "images" else or_else (form_dir request) ""))
    as (Nd & _ & Hd & _).
  fold (UploadTs.dirOf request) in Nd, Hd. fold dir in Nd, Hd.
  destruct (sanitizeFilename_facts name) as (Ns & _ & As & _). fold safeOrig in Ns, As.
  set (whole := dir ++ "/" ++ UploadTs.datedPrefix iso ++ prefix ++ "-" ++ safeOrig).
  assert (Nw : whole <> "") by (apply append_nonempty_l; exact Nd).
  assert (Hw : head_fails (is_char "/") whole) by (apply head_fails_app; assumption).
  assert (Lw : last_fails (is_char "/") whole).
  { unfold last_fails, whole. rewrite !rev_app.
    assert (R : head_fails (is_char "/") (Str.rev safeOrig)).
    { apply filename_char_not_slash. rewrite all_rev. exact As. }
    pose proof (rev_nonempty safeOrig Ns) as Nr.
    repeat (apply head_fails_app; [repeat apply append_nonempty_l; exact Nr|]).
    exact R. }
  split; [apply collapse_nonempty; exact Nw|].
  split; [apply collapse_head; exact Hw|].
  split; [apply (collapse_last_bounded (String.length whole)); [lia | exact Lw]|].
  apply (collapse_length (String.length whole)). lia.
Qed.

Lemma json_view_object (props : list (string * JsVal)) :
  json_view (JObj props) = JObj (view_props props).
Proof. reflexivity. Qed.

Lemma json_view_array (elems : list JsVal) (named : list (string * JsVal)) :
  json_view (JArr elems named) = Js.arr (List.map elem_view elems).
Proof. reflexivity. Qed.



Section HandOver.

Variable decode_json : string -> DecodeOutcome.

Lemma resolveTarget_joined (env : Env) (dir finalName : string) (overwrite : bool) :
  results (fun target =>
             match target with
             | inl _ => True
             | inr (targetName, safePath) => safePath = join_path dir targetName
             end)
          (Part001.resolveTarget env dir finalName overwrite).
Proof.
  unfold Part001.resolveTarget. destruct overwrite; [reflexivity|].
  eapply (results_bind (fun _ => True)); [apply results_any|]. intros checkRes _.
  destruct (res_ok checkRes).
  - eapply (results_bind (fun _ => True)); [apply results_any|]. intros prefix _.
    reflexivity.
  - destruct (negb _); [exact I | reflexivity].
Qed.



End HandOver.

(* ================================================================== *)
(** * The manifest an upload hands over *)
(* ================================================================== *)

Lemma fetchManifest_decoded (decode_json : string -> DecodeOutcome) (w : World) (env : Env)
      (h : list Event) (v : JsVal) :
  let a := answer_fetch w h (manifest_request env) in
  manifest_holds decode_json a v ->
  run w (Part001.fetchManifest decode_json env) h
  = ((h ++ [EvFetch (manifest_request env) a])%list, Ok (inr v)).
Proof.
  intros a (r & meta & content & text & E & O & J & G & T & D).
  unfold Part001.fetchManifest. fold (manifest_request env).
  rewrite run_bind, run_fetch. fold a. rewrite E, O.
  rewrite run_bind. unfold json_of. rewrite J. cbn [run].
  rewrite run_bind, run_lift, G.
  rewrite run_bind, run_lift, T.
  rewrite D. reflexivity.
Qed.

(** The handler up to the change-set, by its three steps. *)
Lemma prepareUpload_steps (decode_json : string -> DecodeOutcome) (w : World)
      (request : UploadRequest) (env : Env) (file : UploadFile)
      (h h1 h2 h3 : list Event) (targetName safePath : string) (contentObj newObj : JsVal) :
  admission request env = inr file ->
  (maxBytes <? Z.of_nat (List.length (file_bytes file))) = false ->
  run w (Part001.resolveTarget env (dirOf request)
           (finalNameOf (origOf file) (or_else (form_filename request) ""))
           (overwriteOf request)) h
  = (h1, Ok (inr (targetName, safePath))) ->
  run w (Part001.fetchManifest decode_json env) h1 = (h2, Ok (inr contentObj)) ->
  run w (appendEntry contentObj (dirOf request) targetName (file_type file)) h2
  = (h3, Ok newObj) ->
  run w (Part001.prepareUpload decode_json request env) h
  = (h3, Ok (inr (Part001.mkPrepared targetName safePath
                    (Js.set contentPath (mkFileSpec (B64Json newObj) None)
                       [(safePath, mkFileSpec (B64Bytes (file_bytes file)) None)])))).
Proof.
  intros A S R F E. unfold Part001.prepareUpload. rewrite A, S.
  rewrite run_bind, R. rewrite run_bind, F. rewrite run_bind, E. reflexivity.
Qed.

(** The entry of a file, field by field, for a sanitized directory. *)
Lemma fileEntry_fields (dirRaw targetName fileType t : string) :
  let dir := sanitizeDirAllowEmpty dirRaw in
  fileEntry (normDirOf dir) targetName fileType t
  = JObj [("dir", JStr (if Str.is_empty dir then "/" else "/" ++ dir));
          ("name", JStr targetName);
          ("path", JStr ("/" ++ join_path dir targetName));
          ("type", if Str.is_empty fileType then JNull else JStr fileType);
          ("description", JStr "");
          ("uploaded_at", JStr t)].
Proof.
  intros dir.
  destruct (sanitizeDirAllowEmpty_facts dirRaw) as (_ & H & L). fold dir in H, L.
  unfold normDirOf, join_path.
  destruct dir as [|c d] eqn:E; cbn [Str.is_empty].
  - reflexivity.
  - rewrite (drop_while_id _ _ H), (drop_while_end_id _ _ L).
    unfold fileEntry. cbn [String.eqb]. reflexivity.
Qed.

Lemma lookup_view_props (k : string) (l : list (string * JsVal)) (x : JsVal) :
  Js.lookup k l = Some x -> x <> JUndefined ->
  Js.lookup k (view_props l) = Some (json_view x).
Proof.
  intros L N. induction l as [|[k' y] l IH]; [discriminate L|].
  cbn [Js.lookup] in L. cbn [view_props].
  destruct (String.eqb k k') eqn:E.
  - injection L as ->.
    destruct x; try congruence; cbn [Js.lookup]; rewrite E; reflexivity.
  - specialize (IH L).
    destruct y; try exact IH; cbn [Js.lookup]; rewrite E; exact IH.
Qed.

Lemma json_view_entry (d n p t : string) (ty : JsVal) :
  ty = JNull \/ (exists s, ty = JStr s) ->
  json_view (JObj [("dir", JStr d); ("name", JStr n); ("path", JStr p);
                   ("type", ty); ("description", JStr ""); ("uploaded_at", JStr t)])
  = JObj [("dir", JStr d); ("name", JStr n); ("path", JStr p);
          ("type", ty); ("description", JStr ""); ("uploaded_at", JStr t)].
Proof. intros [-> | (s & ->)]; reflexivity. Qed.

Lemma lookup_with_files_other (k : string) (props : list (string * JsVal)) :
  k <> "files" -> Js.lookup k (with_files_array props) = Js.lookup k props.
Proof.
  intros N. unfold with_files_array.
  destruct (Js.lookup "files" props) as [[]|]; try reflexivity;
    apply lookup_set_other; apply String.eqb_neq; exact N.
Qed.

(** The run of the handler of part_001 up to the change-set, on a
    manifest that is a JSON object. *)
Lemma prepareUpload_on_object (decode_json : string -> DecodeOutcome) (w : World)
      (request : UploadRequest) (env : Env) (file : UploadFile)
      (h h1 : list Event) (targetName safePath : string)
      (props : list (string * JsVal)) (elems : list JsVal) (named : list (string * JsVal))
      (v : string) :
  admission request env = inr file ->
  (maxBytes <? Z.of_nat (List.length (file_bytes file))) = false ->
  run w (Part001.resolveTarget env (dirOf request)
           (finalNameOf (origOf file) (or_else (form_filename request) ""))
           (overwriteOf request)) h
  = (h1, Ok (inr (targetName, safePath))) ->
  let a := answer_fetch w h1 (manifest_request env) in
  let h2 := (h1 ++ [EvFetch (manifest_request env) a])%list in
  let t1 := answer_now_iso w h2 in
  let t2 := answer_now_iso w (h2 ++ [EvNowIso t1]) in
  let entry :=
    JObj [("dir", JStr (if Str.is_empty (dirOf request) then "/" else "/" ++ dirOf request));
          ("name", JStr targetName);
          ("path", JStr ("/" ++ safePath));
          ("type", if Str.is_empty (file_type file) then JNull else JStr (file_type file));
          ("description", JStr "");
          ("uploaded_at", JStr t1)] in
  manifest_holds decode_json a (JObj props) ->
  files_before props = JArr elems named ->
  bumpVersion (version_before props) = Ok v ->
  run w (Part001.prepareUpload decode_json request env) h
  = ((h2 ++ [EvNowIso t1; EvNowIso t2])%list,
     Ok (inr (Part001.mkPrepared targetName safePath
                (Js.set contentPath
                   (mkFileSpec
                      (B64Json
                         (JObj (Js.set "generated_at" (JStr t2)
                                  (Js.set "version" (JStr v)
                                     (Js.set "files" (JArr (entry :: elems) named)
                                        (with_files_array props))))))
                      None)
                   [(safePath, mkFileSpec (B64Bytes (file_bytes file)) None)])))).
Proof.
  intros A S R a h2 t1 t2 entry M F V.
  assert (J : safePath = join_path (dirOf request) targetName).
  { pose proof (results_run _ w _ h (inr (targetName, safePath))
                            (resolveTarget_joined env (dirOf request)
                               (finalNameOf (origOf file) (or_else (form_filename request) ""))
                               (overwriteOf request))) as K.
    rewrite R in K. exact (K eq_refl). }
  apply (prepareUpload_steps decode_json w request env file h h1 h2 _ targetName safePath
                             (JObj props) _ A S R).
  - apply fetchManifest_decoded. exact M.
  - rewrite appendEntry_object, F, V. cbn [Js.unshift].
    fold h2. fold t1. fold t2.
    unfold dirOf at 1. rewrite fileEntry_fields. fold (dirOf request).
    rewrite <- J. reflexivity.
Qed.

(** The same on the fresh document, when there is no manifest or its
    text is not JSON. *)
Lemma prepareUpload_on_fresh (decode_json : string -> DecodeOutcome) (w : World)
      (request : UploadRequest) (env : Env) (file : UploadFile)
      (h h1 : list Event) (targetName safePath : string) :
  admission request env = inr file ->
  (maxBytes <? Z.of_nat (List.length (file_bytes file))) = false ->
  run w (Part001.resolveTarget env (dirOf request)
           (finalNameOf (origOf file) (or_else (form_filename request) ""))
           (overwriteOf request)) h
  = (h1, Ok (inr (targetName, safePath))) ->
  let a := answer_fetch w h1 (manifest_request env) in
  let h2 := (h1 ++ [EvFetch (manifest_request env) a])%list in
  let t0 := answer_now_iso w h2 in
  let t1 := answer_now_iso w (h2 ++ [EvNowIso t0]) in
  let t2 := answer_now_iso w (h2 ++ [EvNowIso t0; EvNowIso t1]) in
  let entry :=
    JObj [("dir", JStr (if Str.is_empty (dirOf request) then "/" else "/" ++ dirOf request));
          ("name", JStr targetName);
          ("path", JStr ("/" ++ safePath));
          ("type", if Str.is_empty (file_type file) then JNull else JStr (file_type file));
          ("description", JStr "");
          ("uploaded_at", JStr t1)] in
  manifest_absent a \/ manifest_unparsable decode_json a ->
  run w (Part001.prepareUpload decode_json request env) h
  = ((h2 ++ [EvNowIso t0; EvNowIso t1; EvNowIso t2])%list,
     Ok (inr (Part001.mkPrepared targetName safePath
                (Js.set contentPath
                   (mkFileSpec
                      (B64Json (JObj [("version", JStr "1.1");
                                      ("generated_at", JStr t2);
                                      ("files", Js.arr [entry])]))
                      None)
                   [(safePath, mkFileSpec (B64Bytes (file_bytes file)) None)])))).
Proof.
  intros A S R a h2 t0 t1 t2 entry M.
  assert (J : safePath = join_path (dirOf request) targetName).
  { pose proof (results_run _ w _ h (inr (targetName, safePath))
                            (resolveTarget_joined env (dirOf request)
                               (finalNameOf (origOf file) (or_else (form_filename request) ""))
                               (overwriteOf request))) as K.
    rewrite R in K. exact (K eq_refl). }
  apply (prepareUpload_steps decode_json w request env file h h1 (h2 ++ [EvNowIso t0])%list _
                             targetName safePath (defaultManifest t0) _ A S R).
  - apply fetchManifest_default. exact M.
  - rewrite appendEntry_default. fold t1.
    replace ((h2 ++ [EvNowIso t0]) ++ [EvNowIso t1])%list
      with (h2 ++ [EvNowIso t0; EvNowIso t1])%list by (rewrite <- app_assoc; reflexivity).
    fold t2.
    unfold dirOf at 1. rewrite fileEntry_fields. fold (dirOf request).
    rewrite <- J. rewrite <- app_assoc. reflexivity.
Qed.

(** C8, as amended.  Uploading "photo.png" under "images" without
    overwrite, with nothing at that path and no manifest yet, puts in
    the change-set a manifest at version "1.1" whose only file is
    [{dir: "/images", name: "photo.png", path: "/images/photo.png",
    type: declared type or null, description: "", uploaded_at: t1}],
    [t1] being the clock reading taken for the entry.  In general, an
    upload that finds a manifest that is a JSON object hands over that
    object with the new entry put in front of the entries [files] had,
    which stay as they were and in their order, with the version
    bumped, a new [generated_at] and every other property untouched,
    and the JSON text of it lists the new entry first; an upload that
    finds no manifest, or one whose text is not JSON, hands over a
    manifest at version "1.1" with the new entry as the only file. *)
Theorem upload_prepends_entry :
  (forall (decode_json : string -> DecodeOutcome) (w : World) (fileType : string)
          (h : list Event) (r1 r2 : Response),
      let probe := probe_request pool_env "images/photo.png" in
      let h1 := (h ++ [EvFetch probe (Responded r1)])%list in
      let h2 := (h1 ++ [EvFetch (manifest_request pool_env) (Responded r2)])%list in
      let t0 := answer_now_iso w h2 in
      let t1 := answer_now_iso w (h2 ++ [EvNowIso t0]) in
      let t2 := answer_now_iso w (h2 ++ [EvNowIso t0; EvNowIso t1]) in
      answer_fetch w h probe = Responded r1 -> res_status r1 = 404 ->
      answer_fetch w h1 (manifest_request pool_env) = Responded r2 -> res_status r2 = 404 ->
      run w (Part001.prepareUpload decode_json (photo_upload_of fileType) pool_env) h =
      ((h2 ++ [EvNowIso t0; EvNowIso t1; EvNowIso t2])%list,
       Ok (inr (Part001.mkPrepared
                  "photo.png" "images/photo.png"
                  [("images/photo.png", mkFileSpec (B64Bytes [137; 80; 78; 71]) None);
                   ("content.json",
                    mkFileSpec
                      (B64Json
                         (JObj [("version", JStr "1.1");
                                ("generated_at", JStr t2);
                                ("files",
                                 Js.arr [JObj [("dir", JStr "/images");
                                               ("name", JStr "photo.png");
                                               ("path", JStr "/images/photo.png");
                                               ("type", if Str.is_empty fileType
                                                        then JNull else JStr fileType);
                                               ("description", JStr "");
                                               ("uploaded_at", JStr t1)]])]))
                      None)])))) /\
  (forall (decode_json : string -> DecodeOutcome) (w : World)
          (request : UploadRequest) (env : Env) (file : UploadFile)
          (h h1 : list Event) (targetName safePath : string)
          (props : list (string * JsVal)) (elems : list JsVal)
          (named : list (string * JsVal)) (v : string),
      admission request env = inr file ->
      (maxBytes <? Z.of_nat (List.length (file_bytes file))) = false ->
      run w (Part001.resolveTarget env (dirOf request)
               (finalNameOf (origOf file) (or_else (form_filename request) ""))
               (overwriteOf request)) h
      = (h1, Ok (inr (targetName, safePath))) ->
      let a := answer_fetch w h1 (manifest_request env) in
      let h2 := (h1 ++ [EvFetch (manifest_request env) a])%list in
      let t1 := answer_now_iso w h2 in
      let t2 := answer_now_iso w (h2 ++ [EvNowIso t1]) in
      let entry :=
        JObj [("dir", JStr (if Str.is_empty (dirOf request)
                            then "/" else "/" ++ dirOf request));
              ("name", JStr targetName);
              ("path", JStr ("/" ++ safePath));
              ("type", if Str.is_empty (file_type file)
                       then JNull else JStr (file_type file));
              ("description", JStr "");
              ("uploaded_at", JStr t1)] in
      manifest_holds decode_json a (JObj props) ->
      files_before props = JArr elems named ->
      bumpVersion (version_before props) = Ok v ->
      exists doc,
        run w (Part001.prepareUpload decode_json request env) h
        = ((h2 ++ [EvNowIso t1; EvNowIso t2])%list,
           Ok (inr (Part001.mkPrepared targetName safePath
                      (Js.set contentPath (mkFileSpec (B64Json (JObj doc)) None)
                         [(safePath, mkFileSpec (B64Bytes (file_bytes file)) None)])))) /\
        Js.lookup "files" doc = Some (JArr (entry :: elems) named) /\
        Js.lookup "version" doc = Some (JStr v) /\
        Js.lookup "generated_at" doc = Some (JStr t2) /\
        (forall k, k <> "files" -> k <> "version" -> k <> "generated_at" ->
                   Js.lookup k doc = Js.lookup k props) /\
        Js.get (json_view (JObj doc)) "files"
        = Ok (Js.arr (entry :: List.map elem_view elems))) /\
  (forall (decode_json : string -> DecodeOutcome) (w : World)
          (request : UploadRequest) (env : Env) (file : UploadFile)
          (h h1 : list Event) (targetName safePath : string),
      admission request env = inr file ->
      (maxBytes <? Z.of_nat (List.length (file_bytes file))) = false ->
      run w (Part001.resolveTarget env (dirOf request)
               (finalNameOf (origOf file) (or_else (form_filename request) ""))
               (overwriteOf request)) h
      = (h1, Ok (inr (targetName, safePath))) ->
      let a := answer_fetch w h1 (manifest_request env) in
      let h2 := (h1 ++ [EvFetch (manifest_request env) a])%list in
      let t0 := answer_now_iso w h2 in
      let t1 := answer_now_iso w (h2 ++ [EvNowIso t0]) in
      let t2 := answer_now_iso w (h2 ++ [EvNowIso t0; EvNowIso t1]) in
      let entry :=
        JObj [("dir", JStr (if Str.is_empty (dirOf request)
                            then "/" else "/" ++ dirOf request));
              ("name", JStr targetName);
              ("path", JStr ("/" ++ safePath));
              ("type", if Str.is_empty (file_type file)
                       then JNull else JStr (file_type file));
              ("description", JStr "");
              ("uploaded_at", JStr t1)] in
      manifest_absent a \/ manifest_unparsable decode_json a ->
      run w (Part001.prepareUpload decode_json request env) h
      = ((h2 ++ [EvNowIso t0; EvNowIso t1; EvNowIso t2])%list,
         Ok (inr (Part001.mkPrepared targetName safePath
                    (Js.set contentPath
                       (mkFileSpec
                          (B64Json (JObj [("version", JStr "1.1");
                                          ("generated_at", JStr t2);
                                          ("files", Js.arr [entry])]))
                          None)
                       [(safePath, mkFileSpec (B64Bytes (file_bytes file)) None)]))))).
Proof.
  split; [|split].
  - intros decode_json w fileType h r1 r2 probe h1 h2 t0 t1 t2 A1 S1 A2 S2.
    exact (prepare_photo_on_empty decode_json w fileType h r1 r2 A1 S1 A2 S2).
  - intros decode_json w request env file h h1 targetName safePath props elems named v
           A S R a h2 t1 t2 entry M F V.
    eexists. split; [|split; [|split; [|split; [|split]]]].
    + exact (prepareUpload_on_object decode_json w request env file h h1 targetName safePath
                                     props elems named v A S R M F V).
    + rewrite !lookup_set_other by reflexivity. apply lookup_set_same.
    + rewrite lookup_set_other by reflexivity. apply lookup_set_same.
    + apply lookup_set_same.
    + intros k N1 N2 N3.
      rewrite !lookup_set_other by (apply String.eqb_neq; assumption).
      apply lookup_with_files_other. exact N1.
    + rewrite json_view_object. cbn [Js.get].
      rewrite (lookup_view_props "files" _ (JArr (entry :: elems) named)).
      * rewrite json_view_array. cbn [List.map]. unfold elem_view at 1.
        subst entry. rewrite json_view_entry; [reflexivity|].
        destruct (Str.is_empty (file_type file)); eauto.
      * rewrite !lookup_set_other by reflexivity. apply lookup_set_same.
      * discriminate.
  - intros decode_json w request env file h h1 targetName safePath A S R a h2 t0 t1 t2 entry M.
    exact (prepareUpload_on_fresh decode_json w request env file h h1 targetName safePath
                                  A S R M).
Qed.

(** The general statement at work: "photo.png" uploaded under "images"
    on the manifest at version "3" that lists "old.png".  The new
    entry comes first, "old.png" second, and the version is "3.1". *)
Lemma upload_prepends_entry_witness :
  let text := "eyJ2ZXJzaW9uIjoiMyIsImdlbmVyYXRlZF9hdCI6IjIwMjQtMTItMzFUMDA6MDA6MDAuMDAwWiIsImZpbGVzIjpbeyJuYW1lIjoib2xkLnBuZyJ9XX0=" in
  let w := scripted [not_found; contents_answer text] clock_ms clock_iso "0.4fzyo82mvyr" in
  let entry :=
    JObj [("dir", JStr "/images");
          ("name", JStr "photo.png");
          ("path", JStr "/images/photo.png");
          ("type", JStr "image/png");
          ("description", JStr "");
          ("uploaded_at", JStr clock_iso)] in
  exists doc,
    run w (Part001.prepareUpload sample_decode photo_upload pool_env) []
    = ([EvFetch (probe_request pool_env "images/photo.png") not_found;
        EvFetch (manifest_request pool_env) (contents_answer text);
        EvNowIso clock_iso; EvNowIso clock_iso],
       Ok (inr (Part001.mkPrepared "photo.png" "images/photo.png"
                  [("images/photo.png", mkFileSpec (B64Bytes [137; 80; 78; 71]) None);
                   ("content.json", mkFileSpec (B64Json (JObj doc)) None)]))) /\
    Js.lookup "files" doc = Some (Js.arr [entry; JObj [("name", JStr "old.png")]]) /\
    Js.lookup "version" doc = Some (JStr "3.1") /\
    Js.lookup "generated_at" doc = Some (JStr clock_iso) /\
    Js.get (json_view (JObj doc)) "files"
    = Ok (Js.arr [entry; JObj [("name", JStr "old.png")]]).
Proof.
  intros text w entry.
  destruct (proj1 (proj2 upload_prepends_entry) sample_decode w photo_upload pool_env
              (mkFile "photo.png" "image/png" [137; 80; 78; 71])
              [] [EvFetch (probe_request pool_env "images/photo.png") not_found]
              "photo.png" "images/photo.png"
              [("version", JStr "3");
               ("generated_at", JStr "2024-12-31T00:00:00.000Z");
               ("files", Js.arr [JObj [("name", JStr "old.png")]])]
              [JObj [("name", JStr "old.png")]] [] "3.1")
    as (doc & R & F & V & G & _ & J).
  - reflexivity.
  - reflexivity.
  - reflexivity.
  - eexists. eexists. eexists. eexists.
    split; [reflexivity|]. split; [reflexivity|]. split; [reflexivity|].
    split; [reflexivity|]. split; reflexivity.
  - reflexivity.
  - vm_compute. reflexivity.
  - exists doc. split; [exact R|]. split; [exact F|]. split; [exact V|].
    split; [exact G | exact J].
Defined.

(** C8 as stated fails: "photo.png" uploaded under "images" on a
    manifest whose text is the JSON array [[{"name":"old.png"}]].
    The handler sets [files], [version] and [generated_at] as
    properties of the array, and the JSON text of an array holds its
    elements only: the manifest in the change-set is the old array,
    without [files] and without the new entry. *)
Lemma array_manifest_counterexample :
  let text := "W3sibmFtZSI6Im9sZC5wbmcifV0=" in
  let w := scripted [not_found; contents_answer text] clock_ms clock_iso "0.4fzyo82mvyr" in
  exists p doc,
    array_decode text = Decoded (Js.arr [JObj [("name", JStr "old.png")]]) /\
    snd (run w (Part001.prepareUpload array_decode photo_upload pool_env) []) = Ok (inr p) /\
    Js.lookup "content.json" (Part001.p_filesToCommit p)
    = Some (mkFileSpec (B64Json doc) None) /\
    doc = JArr [JObj [("name", JStr "old.png")]]
               [("files", Js.arr [JObj [("dir", JStr "/images");
                                        ("name", JStr "photo.png");
                                        ("path", JStr "/images/photo.png");
                                        ("type", JStr "image/png");
                                        ("description", JStr "");
                                        ("uploaded_at", JStr clock_iso)]]);
                ("version", JStr "1.1");
                ("generated_at", JStr clock_iso)] /\
    json_view doc = Js.arr [JObj [("name", JStr "old.png")]] /\
    Js.get (json_view doc) "files" = Ok JUndefined.
Proof.
  intros text w. eexists. eexists.
  split; [reflexivity|].
  split; [vm_compute; reflexivity|].
  split; [reflexivity|].
  split; [reflexivity|].
  split; reflexivity.
Qed.

(* ================================================================== *)
(** * What an upload to part_001 hands over, and what it leaves *)
(* ================================================================== *)




